(** * oci-watcher: a shallow embedding of the reconciliation agent

    The development follows the Go sources file by file:
    - [GoStrings], [GoPath]: the fragments of [strings], [path] and
      [path/filepath] the agent calls;
    - [OS]: the file system the agent acts on (a finite map from absolute
      paths to nodes) with the [os] calls it makes;
    - [Unpack]: [unpackTgz], [findAppFiles], [fileExists] (first source file);
    - [Reconcile]: [downloadFromOCI], [dockerEnsureRunning],
      [verifyGPGSignature], [uploadToDocker], [reconcileDeployments].

    What lies outside the repository (registry, gzip/tar decoding, OpenPGP,
    docker, docker-compose, the random suffix of a scratch directory) is a
    field of the record [Env]; every statement is quantified over it.
    External commands are taken not to touch the files of the model.  The
    function [main] (credentials, ticker, signals) is not embedded. *)

From Stdlib Require Import Ascii String.
From stdpp Require Import base option list strings gmap fin_maps sorting.

Set Default Proof Using "Type".
Local Open Scope string_scope.
Local Open Scope list_scope.

(** ** Fragments of Go's [strings] package *)
Module GoStrings.

(** [strings.HasPrefix s prefix] *)
Fixpoint HasPrefix (s prefix : string) {struct prefix} : bool :=
  match prefix, s with
  | EmptyString, _ => true
  | String a p', String b s' => if Ascii.eqb a b then HasPrefix s' p' else false
  | String _ _, EmptyString => false
  end.

(** [strings.HasSuffix s suffix] *)
Definition HasSuffix (s suffix : string) : bool :=
  HasPrefix (String.rev s) (String.rev suffix).

(** [strings.Split s sep] for a non-empty separator: [skip] counts the
  bytes of a matched separator that are still to be dropped, [cur] is the
  piece being read. *)
Fixpoint splitFrom (sep : string) (skip : nat) (cur s : string) : list string :=
  match s with
  | EmptyString => [cur]
  | String c s' =>
      match skip with
      | S k => splitFrom sep k cur s'
      | O =>
          if HasPrefix s sep
          then cur :: splitFrom sep (String.length sep - 1) "" s'
          else splitFrom sep 0 (cur +:+ String c "") s'
      end
  end.

Definition Split (s sep : string) : list string := splitFrom sep 0 "" s.

(** [strings.Contains s substr] *)
Fixpoint Contains (s substr : string) : bool :=
  HasPrefix s substr ||
  match s with
  | EmptyString => false
  | String _ s' => Contains s' substr
  end.

(** [substr] occurs in [s] *)
Definition occursIn (substr s : string) : Prop :=
  ∃ s1 s2, s = s1 +:+ substr +:+ s2.

End GoStrings.

(** ** Paths

    The agent only hands the operating system paths it built with
    [path.Join]/[filepath.Join] from a base directory, so a path is kept as
    the list of its components below the root (a relative base directory
    is taken as resolved against the working directory); [Join] is Go's
    lexical [Clean] of [dir + "/" + name]. *)
Module GoPath.

Abbreviation Path := (list string).

(** processing of one component by [Clean]: the stack holds the
  components read so far, innermost first *)
Definition cleanStep (stack : list string) (seg : string) : list string :=
  if String.eqb seg "" then stack
  else if String.eqb seg "." then stack
  else if String.eqb seg ".." then tail stack
  else seg :: stack.

Definition Join (dir : Path) (name : string) : Path :=
  rev (fold_left cleanStep (GoStrings.Split name "/") (rev dir)).

(** [path.Base] of a joined path *)
Definition Base (p : Path) : string := List.last p "/".

(** the directory a path lies in *)
Definition Dir (p : Path) : Path := removelast p.

(** [fmt.Sprintf("%s.sig", p)]: text appended to the last component *)
Definition addExt (p : Path) (ext : string) : Path :=
  match p with
  | [] => [ext]
  | _ => removelast p ++ [List.last p "" +:+ ext]
  end.

Fixpoint path_leb (p q : Path) : bool :=
  match p, q with
  | [], _ => true
  | _ :: _, [] => false
  | a :: p', b :: q' =>
      match String.compare a b with
      | Lt => true
      | Gt => false
      | Eq => path_leb p' q'
      end
  end.

End GoPath.

Import GoStrings GoPath.


(** ** The file system and the [os] calls of the agent

    A file system is a finite map from absolute paths to nodes; the root is
    always a directory and is not stored.  Symbolic links, permission bits
    and failures of the medium are outside the model: a call fails exactly
    when the shape of the tree forbids it. *)
Module OS.

Inductive Node :=
  | NDir
  | NFile (content : string).

Inductive error :=
  | ENOENT                  (* no such file or directory *)
  | ENOTDIR                 (* a component of the path is not a directory *)
  | EISDIR                  (* the path names a directory *)
  | EEXIST                  (* the path exists already *)
  | ErrPatternHasSeparator  (* os.MkdirTemp: pattern contains a path separator *)
  | ErrUnsupportedURL (url : string)
  | ErrVerify (reason : string) (* wrapped "signature verification failed" *)
  | ErrExternal (msg : string). (* reported by a collaborator outside the repository *)

Abbreviation FS := (gmap Path Node).

Definition node_at (fs : FS) (p : Path) : option Node :=
  match p with
  | [] => Some NDir
  | _ => fs !! p
  end.

Definition isDirNode (n : Node) : bool :=
  match n with NDir => true | NFile _ => false end.

(** [os.Stat] succeeds *)
Definition exists_at (fs : FS) (p : Path) : bool :=
  match node_at fs p with Some _ => true | None => false end.

(** [os.Open]: a directory can be opened as well *)
Definition Open (fs : FS) (p : Path) : error + Node :=
  match node_at fs p with
  | Some n => inr n
  | None => inl ENOENT
  end.

(** [os.Open] followed by [io.ReadAll] *)
Definition ReadFile (fs : FS) (p : Path) : error + string :=
  match node_at fs p with
  | Some (NFile c) => inr c
  | Some NDir => inl EISDIR
  | None => inl ENOENT
  end.

(** the bytes of a file after [data] was written at offset 0 without
  truncation *)
Definition overwrite (data old : string) : string :=
  data +:+ String.string_of_list_ascii
             (drop (String.length data) (String.list_ascii_of_string old)).

(** [os.OpenFile(p, O_CREATE|O_WRONLY [|O_TRUNC])] followed by writing
  [data]: the directory of [p] has to exist. *)
Definition writeAt (trunc : bool) (fs : FS) (p : Path) (data : string) : error + FS :=
  match p with
  | [] => inl EISDIR
  | _ =>
      match node_at fs (Dir p) with
      | None => inl ENOENT
      | Some (NFile _) => inl ENOTDIR
      | Some NDir =>
          match fs !! p with
          | Some NDir => inl EISDIR
          | Some (NFile old) =>
              inr (<[p := NFile (if trunc then data else overwrite data old)]> fs)
          | None => inr (<[p := NFile data]> fs)
          end
      end
  end.

(** [os.WriteFile] *)
Definition WriteFile (fs : FS) (p : Path) (data : string) : error + FS :=
  writeAt true fs p data.

(** [os.MkdirAll]: walks down from the root, creating what is missing *)
Fixpoint mkdirFrom (fs : FS) (cur : Path) (rest : list string) : FS * option error :=
  match rest with
  | [] => (fs, None)
  | s :: rest' =>
      let cur' := cur ++ [s] in
      match fs !! cur' with
      | Some NDir => mkdirFrom fs cur' rest'
      | Some (NFile _) => (fs, Some ENOTDIR)
      | None => mkdirFrom (<[cur' := NDir]> fs) cur' rest'
      end
  end.

Definition MkdirAll (fs : FS) (p : Path) : FS * option error := mkdirFrom fs [] p.

(** [os.Mkdir] *)
Definition Mkdir (fs : FS) (p : Path) : error + FS :=
  match p with
  | [] => inl EEXIST
  | _ =>
      match node_at fs (Dir p) with
      | None => inl ENOENT
      | Some (NFile _) => inl ENOTDIR
      | Some NDir =>
          match fs !! p with
          | Some _ => inl EEXIST
          | None => inr (<[p := NDir]> fs)
          end
      end
  end.

Definition under (p q : Path) : Prop := p `prefix_of` q.

(** [os.RemoveAll]: the path and everything below it *)
Definition RemoveAll (fs : FS) (p : Path) : FS :=
  filter (λ kv, ¬ under p kv.1) fs.

Definition by_path (a b : Path * Node) : Prop := path_leb a.1 b.1 = true.

Global Instance by_path_dec a b : Decision (by_path a b) :=
  decide (path_leb a.1 b.1 = true).

(** the entries at or below [root], in the order of [filepath.Walk]
  (a directory before its entries, entries by name) *)
Definition tree (fs : FS) (root : Path) : list (Path * Node) :=
  merge_sort by_path
    (map_to_list (filter (λ kv, under root kv.1) fs)).

(** [filepath.Walk]: the error of [os.Lstat] on the root is handed to the
  callback, which returns it *)
Definition Walk (fs : FS) (root : Path) : error + list (Path * Node) :=
  match node_at fs root with
  | None => inl ENOENT
  | Some _ => inr (tree fs root)
  end.

(** [os.Open] followed by [ReadDir(0)]: the entries of a directory, or
  none when it cannot be opened as one.  The system lists them in an order
  of its own; here they come by name. *)
Definition ReadDir (fs : FS) (p : Path) : list (string * Node) :=
  match node_at fs p with
  | Some NDir =>
      omap (λ kv, match drop (length p) kv.1 with
                  | [name] => Some (name, kv.2)
                  | _ => None
                  end)
           (tree fs p)
  | _ => []
  end.

End OS.

Import OS.

(** ** The world outside the process *)

(** one line of the process log *)
Inductive logline :=
| WarnSkipHidden (name : string)
| WarnUnsupported (typeflag : ascii)
| LogDownloading (url : string)
| LogUpToDate (name : string)
| LogFailedToStart (name : string) (e : error)
| LogFetching (name : string)
| LogVerifying (signedFile : Path)
| LogVerified
| LogStarting (base : string)
| LogPurging (name : string)
| LogFailedToStop (name : string).

(** what the process does that can be observed from outside *)
Inductive event :=
| Logged (l : logline)
| NetPing (ref : string)
| NetManifestGet (ref : string)
| NetBlobGet (ref digest : string)
| ExecComposePs (dir : Path)
| ExecComposeUp (dir : Path)
| ExecComposeDown (dir : Path)
| DockerImageLoad (file : Path).

Record World := mkWorld {
  fs : FS;
  trace : list event (* oldest first *)
}.

Definition emit (ev : event) (w : World) : World :=
  mkWorld (fs w) (trace w ++ [ev]).

Definition setFS (w : World) (f : FS) : World := mkWorld f (trace w).

(** [tar.Header], the fields the agent reads *)
Record Header := mkHeader {
  Name : string;
  Typeflag : ascii;
  Mode : N
}.

Definition TypeReg : ascii := "0"%char.
Definition TypeDir : ascii := "5"%char.

(** what [tar.Reader] yields: the entries [Next] returns, each with the
    bytes [io.Copy] gets out of it and the error that ends the copy, if any;
    then [io.EOF] ([None]) or an error. *)
Record TarEntry := mkEntry {
  header : Header;
  body : string;
  bodyErr : option error
}.

Record TarStream := mkStream {
  entries : list TarEntry;
  streamErr : option error
}.

(** a content layer of a registry manifest *)
Record Descriptor := mkDescriptor {
  MediaType : string;
  Digest : string
}.

(** [ApplicationDeployment.Spec.DeploymentProfile.Components[i]]; the other
    fields of the document are parsed and never read. *)
Record Component := mkComponent {
  CName : string;
  KeyLocation : string;
  PackageLocation : string
}.

Record ApplicationDeployment := mkDeployment {
  Components : list Component
}.

(** The collaborators outside the repository.  Those that talk to the
    network, to docker or to the clock see the whole world, so their answers
    may change from one call to the next. *)
Record Env := mkEnv {
  (* regclient *)
  refNew : string → option error;
  ping : World → string → option error;
  manifestGet : World → string → error + option (list Descriptor);
      (* [inr None]: a manifest that is no [manifest.Imager] *)
  blobGet : World → string → string → error + string;
  yamlUnmarshal : string → error + ApplicationDeployment;
  (* compress/gzip and archive/tar *)
  gunzipTar : string → error + TarStream;
  (* openpgp *)
  KeyRing : Type;
  readArmoredKeyRing : string → error + KeyRing;
  checkDetachedSignature : KeyRing → string → string → option error;
  (* os *)
  TempDir : Path;
  nextRandom : World → string;
  (* docker-compose, run in a directory *)
  composePs : World → Path → error + string;
  composeUp : World → Path → option error;
  composeDown : World → Path → option error;
  (* docker client *)
  newDockerClient : World → option error;
  imageLoad : World → string → option error
}.

(** ** Results of Go functions: a value, an error, or a panic *)

Inductive panic :=
| IndexOutOfRange (index len : nat)
| TypeAssertionFailed.

Inductive result (A : Type) :=
| Ok (a : A)
| Fail (e : error)
| Crash (p : panic).
Arguments Ok {A} a.
Arguments Fail {A} e.
Arguments Crash {A} p.

(** a computation over a state [S] *)
Definition M (S A : Type) : Type := S → result A * S.

Definition ret {S A} (a : A) : M S A := λ s, (Ok a, s).
Definition fail {S A} (e : error) : M S A := λ s, (Fail e, s).
Definition crash {S A} (p : panic) : M S A := λ s, (Crash p, s).
Definition bind {S A B} (m : M S A) (k : A → M S B) : M S B :=
  λ s, match m s with
       | (Ok a, s') => k a s'
       | (Fail e, s') => (Fail e, s')
       | (Crash p, s') => (Crash p, s')
       end.
Definition get {S} : M S S := λ s, (Ok s, s).
Definition modify {S} (f : S → S) : M S unit := λ s, (Ok tt, f s).

(** [x, err := f(); if err != nil { return err }] for a call without effect *)
Definition attempt {S A} (r : error + A) : M S A :=
  match r with inl e => fail e | inr a => ret a end.

(** [if err := f(); err != nil { return err }] *)
Definition check {S} (r : option error) : M S unit :=
  match r with Some e => fail e | None => ret tt end.

(** [if err := m; err != nil { h(err) }]: the error is handled, not returned *)
Definition catch {S} (m : M S unit) (h : error → M S unit) : M S unit :=
  λ s, match m s with
       | (Fail e, s') => h e s'
       | r => r
       end.

Global Instance M_ret {S} : MRet (M S) := λ A, ret.
Global Instance M_bind {S} : MBind (M S) := λ A B k m, bind m k.

Definition logW (l : logline) : M World unit := modify (emit (Logged l)).
Definition emitW (ev : event) : M World unit := modify (emit ev).

(** ** First source file: [unpackTgz], [findAppFiles], [fileExists] *)
Module Unpack.
Section WithEnv.
Variable E : Env.

(** one turn of the loop of [unpackTgz], lines 36-60 *)
Definition unpackEntry (destDir : Path) (skipHidden : bool) (e : TarEntry)
  : M World unit :=
  let h := header e in
  if skipHidden && HasPrefix (Name h) "." then
    logW (WarnSkipHidden (Name h))
  else
    let target := Join destDir (Name h) in
    if Ascii.eqb (Typeflag h) TypeDir then
      w ← get;
      let '(f, err) := MkdirAll (fs w) target in
      modify (λ w, setFS w f);;
      check err
    else if Ascii.eqb (Typeflag h) TypeReg then
      w ← get;
      f ← attempt (writeAt false (fs w) target (body e));
      modify (λ w, setFS w f);;
      check (bodyErr e)
    else
      logW (WarnUnsupported (Typeflag h)).

(** the loop of [unpackTgz], lines 28-62 *)
Fixpoint unpackEntries (destDir : Path) (skipHidden : bool)
    (es : list TarEntry) (last : option error) : M World unit :=
  match es with
  | [] => check last
  | e :: es' =>
      unpackEntry destDir skipHidden e;;
      unpackEntries destDir skipHidden es' last
  end.

(** [unpackTgz(src, destDir, skipHidden)], [src] given by its bytes *)
Definition unpackTgz (src : string) (destDir : Path) (skipHidden : bool)
  : M World unit :=
  s ← attempt (gunzipTar E src);
  unpackEntries destDir skipHidden (entries s) (streamErr s).

(** the callback of [findAppFiles] on one visited entry *)
Definition isAppFile (pn : Path * Node) : bool :=
  negb (isDirNode pn.2) && HasSuffix (Base pn.1) ".app".

(** [findAppFiles(dir)]: the list it collected and the error of the walk *)
Definition findAppFiles (w : World) (dir : Path) : list Path * option error :=
  match Walk (fs w) dir with
  | inl e => ([], Some e)
  | inr l => (fst <$> List.filter isAppFile l, None)
  end.

(** [fileExists(filename)] *)
Definition fileExists (w : World) (filename : Path) : bool :=
  exists_at (fs w) filename.

End WithEnv.
End Unpack.

Import Unpack.

(** ** Second and third source files: the reconciler *)
Module Reconcile.

(** *** The pattern of [downloadFromOCI]:
  [^http://ghcr\.io/v2/([^/]+)/([^/]+)/blobs/(sha256:[a-f0-9]+)$] *)

Fixpoint stripPrefix (prefix s : string) {struct prefix} : option string :=
  match prefix, s with
  | EmptyString, _ => Some s
  | String a p', String b s' => if Ascii.eqb a b then stripPrefix p' s' else None
  | String _ _, EmptyString => None
  end.

(** the longest prefix free of ['/'], and what follows it *)
Fixpoint spanNoSlash (s : string) : string * string :=
  match s with
  | EmptyString => ("", "")
  | String c s' =>
      if Ascii.eqb c "/" then ("", s)
      else let '(a, b) := spanNoSlash s' in (String c a, b)
  end.

(** the class [a-f0-9] *)
Definition isLowerHex (c : ascii) : bool :=
  let n := nat_of_ascii c in
  (Nat.leb 48 n && Nat.leb n 57) || (Nat.leb 97 n && Nat.leb n 102).

Definition nonEmpty (s : string) : bool :=
  match s with EmptyString => false | _ => true end.

(** the submatches 1, 2 and 3 *)
Definition matchBlobURL (url : string) : option (string * string * string) :=
  r0 ← stripPrefix "http://ghcr.io/v2/" url;
  let '(owner, r1) := spanNoSlash r0 in
  r2 ← stripPrefix "/" r1;
  let '(repo, r3) := spanNoSlash r2 in
  hex ← stripPrefix "/blobs/sha256:" r3;
  if nonEmpty owner && nonEmpty repo && nonEmpty hex
     && forallb isLowerHex (String.list_ascii_of_string hex)
  then Some (owner, repo, "sha256:" +:+ hex)
  else None.

(** [prefixAndSuffix] of [os.MkdirTemp]: the pattern is cut at its last
  ['*'] *)
Fixpoint cutAtLastStar (s : string) : option (string * string) :=
  match s with
  | EmptyString => None
  | String c s' =>
      match cutAtLastStar s' with
      | Some (a, b) => Some (String c a, b)
      | None => if Ascii.eqb c "*" then Some ("", s') else None
      end
  end.

Definition hasSeparator (s : string) : bool :=
  existsb (Ascii.eqb "/") (String.list_ascii_of_string s).

(** the state of one run of [reconcileDeployments] *)
Record Frame := mkFrame {
  world : World;
  allowedDeployments : gmap string bool;
  deferred : list Path (* scratch directories to remove on return, last first *)
  }.

Definition liftW {A} (m : M World A) : M Frame A :=
  λ st, let '(r, w) := m (world st) in
        (r, mkFrame w (allowedDeployments st) (deferred st)).

Section WithEnv.
Variable E : Env.

(** [os.MkdirTemp("", pattern)]: one draw of the random part; a name that
  is taken makes the call fail. *)
Definition MkdirTemp (pattern : string) : M World Path :=
  if hasSeparator pattern then fail ErrPatternHasSeparator
  else
    w ← get;
    let '(pre, suf) := default (pattern, "") (cutAtLastStar pattern) in
    let dir := TempDir E ++ [pre +:+ nextRandom E w +:+ suf] in
    f ← attempt (Mkdir (fs w) dir);
    modify (λ w, setFS w f);;
    mret dir.

(** [getAppDeployment(deployRepo)] *)
Definition desiredStateType : string := "application/vnd.margo.desired-state.v1+yaml".

Fixpoint firstDesiredState (layers : list Descriptor) : option Descriptor :=
  match layers with
  | [] => None
  | d :: rest =>
      if String.eqb (MediaType d) desiredStateType then Some d
      else firstDesiredState rest
  end.

Definition getAppDeployment (deployRepo : string) : M World ApplicationDeployment :=
  check (refNew E deployRepo);;
  w ← get;
  emitW (NetPing deployRepo);;
  check (ping E w deployRepo);;
  w ← get;
  emitW (NetManifestGet deployRepo);;
  mf ← attempt (manifestGet E w deployRepo);
  match mf with
  | None => crash TypeAssertionFailed
  | Some layers =>
      match firstDesiredState layers with
      | Some desc =>
          w ← get;
          emitW (NetBlobGet deployRepo (Digest desc));;
          b ← attempt (blobGet E w deployRepo (Digest desc));
          attempt (yamlUnmarshal E b)
      | None => fail (ErrExternal "no app deployment found")
      end
  end.

(** [downloadFromOCI(url)], the blob given by its bytes *)
Definition downloadFromOCI (url : string) : M World string :=
  logW (LogDownloading url);;
  match matchBlobURL url with
  | None => fail (ErrUnsupportedURL url)
  | Some (owner, repo, sha256) =>
      let appRef := "ghcr.io/" +:+ owner +:+ "/" +:+ repo +:+ ":latest" in
      check (refNew E appRef);;
      w ← get;
      emitW (NetBlobGet appRef sha256);;
      attempt (blobGet E w appRef sha256)
  end.

(** [dockerEnsureRunning(dir)] *)
Definition dockerEnsureRunning (dir : Path) : M World unit :=
  w ← get;
  emitW (ExecComposePs dir);;
  output ← attempt (composePs E w dir);
  if nonEmpty output then mret tt
  else
    logW (LogStarting (Base dir));;
    w ← get;
    emitW (ExecComposeUp dir);;
    check (composeUp E w dir).

(** [uploadToDocker(filePath)] *)
Definition uploadToDocker (filePath : Path) : M World unit :=
  w ← get;
  check (newDockerClient E w);;
  file ← attempt (ReadFile (fs w) filePath);
  emitW (DockerImageLoad filePath);;
  check (imageLoad E w file).

(** [verifyGPGSignature(pubKey, signedFile, signatureFile)] *)
Definition verifyGPGSignature (pubKey : string) (signedFile signatureFile : Path)
  : M World unit :=
  logW (LogVerifying signedFile);;
  keyring ← attempt (readArmoredKeyRing E pubKey);
  w ← get;
  signature ← attempt (Open (fs w) signatureFile);
  signed ← attempt (Open (fs w) signedFile);
  match signed, signature with
  | NFile signedBytes, NFile signatureBytes =>
      match checkDetachedSignature E keyring signedBytes signatureBytes with
      | Some _ => fail (ErrVerify "signature verification failed")
      | None => logW LogVerified
      end
  | _, _ =>
      (* reading a directory fails inside [CheckDetachedSignature] *)
      fail (ErrVerify "signature verification failed")
  end.

(** the callback of the second walk, line 301 *)
Definition isImageArchive (pn : Path * Node) : bool :=
  negb (isDirNode pn.2) && HasSuffix (Base pn.1) ".tar".

Fixpoint uploadAll (files : list Path) : M World unit :=
  match files with
  | [] => mret tt
  | f :: rest => uploadToDocker f;; uploadAll rest
  end.

(** [if err := dockerEnsureRunning(destDir); err != nil { log }] *)
Definition ensureRunningLogged (name : string) (destDir : Path) : M World unit :=
  catch (dockerEnsureRunning destDir) (λ e, logW (LogFailedToStart name e)).

(** lines 237-313: the deployment is missing or stale *)
Definition applyComponent (deployment : Component) (destDir hashFile : Path)
    (expectedHash : string) : M Frame unit :=
  liftW (logW (LogFetching (CName deployment)));;
  tempDir ← liftW (MkdirTemp (CName deployment));
  modify (λ st, mkFrame (world st) (allowedDeployments st) (tempDir :: deferred st));;
  pubKey ← liftW (downloadFromOCI (KeyLocation deployment));
  pkg ← liftW (downloadFromOCI (PackageLocation deployment));
  liftW (unpackTgz E pkg tempDir true);;
  st ← get;
  let '(appFiles, err) := findAppFiles (world st) tempDir in
  check err;;
  match appFiles with
  | [] => crash (IndexOutOfRange 0 0)
  | app :: _ =>
      let appSig := addExt app ".sig" in
      liftW (verifyGPGSignature pubKey app appSig);;
      liftW (w ← get;
             f ← attempt (WriteFile (fs w) hashFile expectedHash);
             modify (λ w, setFS w f));;
      st ← get;
      (if fileExists (world st) (Join destDir "docker-compose.yaml") then
         liftW (w ← get;
                emitW (ExecComposeDown destDir);;
                check (composeDown E w destDir);;
                modify (λ w, setFS w (RemoveAll (fs w) destDir)))
       else mret tt);;
      st ← get;
      f ← attempt (ReadFile (fs (world st)) app);
      liftW (modify (λ w, setFS w (MkdirAll (fs w) destDir).1));;
      liftW (unpackTgz E f destDir true);;
      st ← get;
      tree ← attempt (Walk (fs (world st)) destDir);
      liftW (uploadAll (fst <$> List.filter isImageArchive tree));;
      liftW (ensureRunningLogged (CName deployment) destDir)
  end.

(** the body of the first loop, lines 210-313; [Ok tt] goes on to the
  next component *)
Definition reconcileComponent (deployDir : Path) (deployment : Component)
  : M Frame unit :=
  modify (λ st, mkFrame (world st)
                        (<[CName deployment := true]> (allowedDeployments st))
                        (deferred st));;
  let destDir := Join deployDir (CName deployment) in
  let hashFile := Join destDir ".hash" in
  let parts := Split (PackageLocation deployment) "sha256:" in
  match parts !! 1 with
  | None => crash (IndexOutOfRange 1 (length parts))
  | Some expectedHash =>
      st ← get;
      if fileExists (world st) hashFile then
        actualHash ← attempt (ReadFile (fs (world st)) hashFile);
        if String.eqb actualHash expectedHash then
          liftW (logW (LogUpToDate (CName deployment)));;
          liftW (ensureRunningLogged (CName deployment) destDir)
        else applyComponent deployment destDir hashFile expectedHash
      else applyComponent deployment destDir hashFile expectedHash
  end.

(** the first loop, lines 209-314 *)
Fixpoint reconcileAll (deployDir : Path) (cs : list Component) : M Frame unit :=
  match cs with
  | [] => mret tt
  | c :: rest => reconcileComponent deployDir c;; reconcileAll deployDir rest
  end.

(** the body of the second loop, lines 322-333 *)
Definition purgeEntry (deployDir : Path) (allowed : gmap string bool)
    (entry : string * Node) : M World unit :=
  if isDirNode entry.2 then
    if default false (allowed !! entry.1) then mret tt
    else
      logW (LogPurging entry.1);;
      let destDir := Join deployDir entry.1 in
      w ← get;
      emitW (ExecComposeDown destDir);;
      (match composeDown E w destDir with
       | Some _ => logW (LogFailedToStop entry.1)
       | None => mret tt
       end);;
      modify (λ w, setFS w (RemoveAll (fs w) destDir))
  else mret tt.

Fixpoint purgeEntries (deployDir : Path) (allowed : gmap string bool)
    (es : list (string * Node)) : M World unit :=
  match es with
  | [] => mret tt
  | e :: rest => purgeEntry deployDir allowed e;; purgeEntries deployDir allowed rest
  end.

(** lines 316-334 *)
Definition purge (deployDir : Path) : M Frame unit :=
  st ← get;
  liftW (purgeEntries deployDir (allowedDeployments st)
           (ReadDir (fs (world st)) deployDir)).

(** the deferred [os.RemoveAll(tempDir)] calls, run when the function
  leaves, however it leaves *)
Definition runDeferred (st : Frame) : World :=
  fold_left (λ w dir, setFS w (RemoveAll (fs w) dir)) (deferred st) (world st).

(** [reconcileDeployments(ociRegistry, deployDir)]: how the call ends
  ([Ok tt] is a nil error) and the world it leaves *)
Definition reconcileDeployments (ociRegistry : string) (deployDir : Path)
  : M World unit :=
  λ w,
    match getAppDeployment ociRegistry w with
    | (Ok deployments, w1) =>
        let '(r, st) :=
          (reconcileAll deployDir (Components deployments);; purge deployDir)
            (mkFrame w1 ∅ []) in
        (r, runDeferred st)
    | (Fail e, w1) => (Fail e, w1)
    | (Crash p, w1) => (Crash p, w1)
    end.

End WithEnv.
End Reconcile.

Import Reconcile.

(** ** Vocabulary of the statements *)

(** a name a directory entry can have *)
Definition plainName (name : string) : bool :=
  negb (Contains name "/") && negb (String.eqb name "")
  && negb (String.eqb name ".") && negb (String.eqb name "..").

(** the digest the agent expects for a component (line 215), if the
    expression does not panic *)
Definition digestOf (c : Component) : option string :=
  Split (PackageLocation c) "sha256:" !! 1.

(** the stored digest file of a component (lines 213-214) *)
Definition destDirOf (deployDir : Path) (c : Component) : Path :=
  Join deployDir (CName c).
Definition hashFileOf (deployDir : Path) (c : Component) : Path :=
  Join (destDirOf deployDir c) ".hash".

(** the local deployment is up to date: the stored digest file holds the
    expected digest (lines 217-227) *)
Definition upToDate (deployDir : Path) (w : World) (c : Component) : bool :=
  match digestOf c, ReadFile (fs w) (hashFileOf deployDir c) with
  | Some h, inr a => String.eqb a h
  | _, _ => false
  end.

(** the local deployment is missing or stale: there is no stored digest
    file, or it holds another digest *)
Definition stale (deployDir : Path) (w : World) (c : Component) : bool :=
  match digestOf c, node_at (fs w) (hashFileOf deployDir c) with
  | Some h, None => true
  | Some h, Some (NFile a) => negb (String.eqb a h)
  | _, _ => false
  end.

(** a regular file named [*.app] *)
Definition appFileAt (w : World) (p : Path) : Prop :=
  ∃ content, fs w !! p = Some (NFile content) ∧ HasSuffix (Base p) ".app" = true.

(** the trace shows that the loop took up the component of that name
    (lines 228 and 237) *)
Definition takenUp (name : string) (tr : list event) : bool :=
  existsb (λ ev, match ev with
                 | Logged (LogUpToDate n) | Logged (LogFetching n) => String.eqb n name
                 | _ => false
                 end) tr.

(** the trace shows a purge (line 324) *)
Definition purged (tr : list event) : bool :=
  existsb (λ ev, match ev with Logged (LogPurging _) => true | _ => false end) tr.

(** an event that is no access to the registry *)
Definition quiet (ev : event) : bool :=
  match ev with
  | NetPing _ | NetManifestGet _ | NetBlobGet _ _ => false
  | Logged (LogDownloading _) => false
  | _ => true
  end.

(** [w'] continues the trace of [w] without access to the registry *)
Definition quietly (w w' : World) : Prop :=
  ∃ evs, trace w' = trace w ++ evs ∧ forallb quiet evs = true.

(** the names recorded by the first loop *)
Definition allowedAfter (cs : list Component) (m : gmap string bool) : gmap string bool :=
  fold_left (λ m c, <[CName c := true]> m) cs m.

(** the directories the second loop removes *)
Definition purgeTargets (deployDir : Path) (allowed : gmap string bool)
    (es : list (string * Node)) : list Path :=
  (λ e, Join deployDir e.1) <$>
    List.filter (λ e, isDirNode e.2 && negb (default false (allowed !! e.1))) es.

(** the names of the manifest *)
Definition namesOf (d : ApplicationDeployment) : list string :=
  CName <$> Components d.

(** the entries [unpackTgz] passes over: hidden ones when asked to, and
    those that are neither a directory nor a regular file *)
Definition hiddenEntry (e : TarEntry) : bool :=
  HasPrefix (Name (header e)) ".".

Definition supportedType (e : TarEntry) : bool :=
  Ascii.eqb (Typeflag (header e)) TypeDir || Ascii.eqb (Typeflag (header e)) TypeReg.

Definition skipped (skipHidden : bool) (e : TarEntry) : bool :=
  (skipHidden && hiddenEntry e) || negb (supportedType e).

(** an archive without the entries that are passed over *)
Definition withoutSkipped (skipHidden : bool) (s : TarStream) : TarStream :=
  mkStream (List.filter (λ e, negb (skipped skipHidden e)) (entries s)) (streamErr s).

(** the trace shows [docker-compose ps] run in that directory, the first
    step of [dockerEnsureRunning] *)
Definition ensuredRunning (dir : Path) (tr : list event) : bool :=
  existsb (λ ev, match ev with
                 | ExecComposePs p => bool_decide (p = dir)
                 | _ => false
                 end) tr.

(** the trace shows a signature that verified *)
Definition verified (tr : list event) : bool :=
  existsb (λ ev, match ev with Logged LogVerified => true | _ => false end) tr.

(** ** A small world to run the agent in

    The registry serves the blobs of a table by digest, archives are decoded
    by a table as well, a signature over [data] by [key] is the text
    ["sig(key,data)"], nothing is running and docker does what it is asked. *)
Module Sample.

Fixpoint assoc {A} (k : string) (l : list (string * A)) : option A :=
  match l with
  | [] => None
  | (k', v) :: rest => if String.eqb k k' then Some v else assoc k rest
  end.

Definition sign (key data : string) : string :=
  "sig(" +:+ key +:+ "," +:+ data +:+ ")".

Definition env (manifest : ApplicationDeployment)
    (blobs : list (string * string)) (archives : list (string * TarStream)) : Env :=
  {| refNew := λ _, None;
     ping := λ _ _, None;
     manifestGet := λ _ _, inr (Some [mkDescriptor desiredStateType "sha256:00"]);
     blobGet := λ _ _ digest,
       match assoc digest (("sha256:00", "components: []") :: blobs) with
       | Some b => inr b
       | None => inl (ErrExternal "blob unknown")
       end;
     yamlUnmarshal := λ _, inr manifest;
     gunzipTar := λ src,
       match assoc src archives with
       | Some a => inr a
       | None => inl (ErrExternal "gzip: invalid header")
       end;
     KeyRing := string;
     readArmoredKeyRing := λ k, inr k;
     checkDetachedSignature := λ k signed signature,
       if String.eqb signature (sign k signed) then None
       else Some (ErrExternal "openpgp: invalid signature");
     TempDir := ["tmp"];
     nextRandom := λ _, "4711";
     composePs := λ _ _, inr "";
     composeUp := λ _ _, None;
     composeDown := λ _ _, None;
     newDockerClient := λ _, None;
     imageLoad := λ _ _, None |}.

Definition file (name body : string) : TarEntry :=
  mkEntry (mkHeader name TypeReg 420) body None.
Definition dir (name : string) : TarEntry :=
  mkEntry (mkHeader name TypeDir 493) "" None.
Definition archive (es : list TarEntry) : TarStream := mkStream es None.

Definition registry : string := "ghcr.io/silvanoc/poc-deploy:desired".
Definition deployDir : Path := ["deploy"].

Definition keyURL : string := "http://ghcr.io/v2/acme/keys/blobs/sha256:0e".
Definition pkgURL (hex : string) : string :=
  "http://ghcr.io/v2/acme/apps/blobs/sha256:" +:+ hex.

(** a well-formed package: the application archive and its signature *)
Definition goodPackage (app : string) : TarStream :=
  archive [file "svc.app" app; file "svc.app.sig" (sign "KEY" app)].

(** an application archive: an orchestration descriptor and an image *)
Definition appPayload : TarStream :=
  archive [file "docker-compose.yaml" "services: {}"; file "image.tar" "IMG"].

Definition start (files : list (Path * Node)) : World :=
  mkWorld (list_to_map files) [].

End Sample.

(** ** Worlds the statements are tried on *)

Module Scenario.
Import Sample.

(** a manifest whose only component has a package location without a
  digest *)
Definition noDigest : Component :=
  mkComponent "A" keyURL "http://ghcr.io/v2/acme/apps/blobs/latest".
Definition noDigestEnv : Env := env (mkDeployment [noDigest]) [] [].
Definition emptyHost : World := start [(["deploy"], NDir); (["tmp"], NDir)].

End Scenario.

Module ScenarioNoApp.
Import Sample.

(** a package that holds a README and nothing else *)
Definition comp : Component := mkComponent "A" keyURL (pkgURL "aa").
Definition world0 : World := start [(["deploy"], NDir); (["tmp"], NDir)].
Definition env0 : Env :=
  env (mkDeployment [comp])
      [("sha256:0e", "KEY"); ("sha256:aa", "PKG")]
      [("PKG", archive [file "README" "nothing to run"])].

End ScenarioNoApp.

Module ScenarioFetchFails.
Import Sample.

(** The registry does not have the key of [A]; the package of [B] is in
  order and its directory is there; [C] is not in the manifest. *)
Definition compA : Component :=
  mkComponent "A" "http://ghcr.io/v2/acme/keys/blobs/sha256:dead" (pkgURL "aa").
Definition compB : Component := mkComponent "B" keyURL (pkgURL "bb").
Definition env0 : Env :=
  env (mkDeployment [compA; compB])
      [("sha256:0e", "KEY"); ("sha256:aa", "PKG"); ("sha256:bb", "PKG")]
      [("PKG", goodPackage "APP"); ("APP", appPayload)].
Definition world0 : World :=
  start [(["deploy"], NDir); (["tmp"], NDir);
         (["deploy"; "B"], NDir);
         (["deploy"; "C"], NDir);
         (["deploy"; "C"; "docker-compose.yaml"], NFile "services: {}")].

(** the frame in which the loop starts *)
Definition frame0 : Frame :=
  mkFrame (getAppDeployment env0 registry world0).2 ∅ [].

End ScenarioFetchFails.

Module ScenarioSettled.
Import Sample.

(** [A] and [B] are deployed with the digests the manifest asks for; [C] is
  a deployment the manifest no longer lists. *)
Definition compA : Component := mkComponent "A" keyURL (pkgURL "aa").
Definition compB : Component := mkComponent "B" keyURL (pkgURL "bb").
Definition env0 : Env := env (mkDeployment [compA; compB]) [] [].
Definition world0 : World :=
  start [(["deploy"], NDir); (["tmp"], NDir);
         (["deploy"; "A"], NDir);
         (["deploy"; "A"; ".hash"], NFile "aa");
         (["deploy"; "A"; "docker-compose.yaml"], NFile "services: {}");
         (["deploy"; "B"], NDir);
         (["deploy"; "B"; ".hash"], NFile "bb");
         (["deploy"; "B"; "data"], NDir);
         (["deploy"; "B"; "data"; "state.db"], NFile "rows");
         (["deploy"; "C"], NDir);
         (["deploy"; "C"; ".hash"], NFile "cc");
         (["deploy"; "C"; "docker-compose.yaml"], NFile "services: {}");
         (["deploy"; "notes.txt"], NFile "keep")].

End ScenarioSettled.

Module ScenarioHidden.
Import Sample.

Definition symlink (name : string) : TarEntry :=
  mkEntry (mkHeader name "2"%char 511) "" None.

Definition mixed : TarStream :=
  archive [file ".secret" "token"; dir "conf"; symlink "latest";
           file "conf/app.yaml" "port: 80"; dir ".git"].
Definition env0 : Env :=
  env (mkDeployment [])
      []
      [("MIXED", mixed); ("PLAIN", withoutSkipped true mixed)].
Definition world0 : World := start [(["srv"], NDir)].

End ScenarioHidden.

Module ScenarioEscape.
Import Sample.

(** an archive with one entry that climbs out of the destination *)
Definition env0 : Env :=
  env (mkDeployment []) [] [("EVIL", archive [file "x/../../evil" "payload"])].
Definition world0 : World := start [(["srv"], NDir); (["srv"; "dest"], NDir)].

End ScenarioEscape.

Module ScenarioFresh.
Import Sample.

(** [A] is deployed and up to date, [B] has never been deployed; the
  package of [B] is in order. *)
Definition compA : Component := mkComponent "A" keyURL (pkgURL "aa").
Definition compB : Component := mkComponent "B" keyURL (pkgURL "bb").
Definition env0 : Env :=
  env (mkDeployment [compA; compB])
      [("sha256:0e", "KEY"); ("sha256:bb", "PKG")]
      [("PKG", goodPackage "APP"); ("APP", appPayload)].
Definition world0 : World :=
  start [(["deploy"], NDir); (["tmp"], NDir);
         (["deploy"; "A"], NDir);
         (["deploy"; "A"; ".hash"], NFile "aa");
         (["deploy"; "A"; "docker-compose.yaml"], NFile "services: {}")].

End ScenarioFresh.

Module ScenarioForged.
Import Sample.

(** [A] is deployed with digest ["11"]; the manifest asks for ["aa"].  The
  package behind ["aa"] carries a signature that does not verify, and two
  entries whose names lead from the scratch directory into the deployment
  directory of [A]. *)
Definition compA : Component := mkComponent "A" keyURL (pkgURL "aa").
Definition forged : TarStream :=
  archive [file "x/../../../deploy/A/.hash" "aa";
           file "x/../../../deploy/A/docker-compose.yaml" "services: {evil}";
           file "svc.app" "APP";
           file "svc.app.sig" "forged"].
Definition env0 : Env :=
  env (mkDeployment [compA])
      [("sha256:0e", "KEY"); ("sha256:aa", "PKG")]
      [("PKG", forged); ("APP", appPayload)].
Definition world0 : World :=
  start [(["deploy"], NDir); (["tmp"], NDir);
         (["deploy"; "A"], NDir);
         (["deploy"; "A"; ".hash"], NFile "11");
         (["deploy"; "A"; "docker-compose.yaml"], NFile "services: {}")].

End ScenarioForged.

Module ScenarioReapply.
Import Sample.

(** [A] is deployed with digest ["11"] and an orchestration descriptor; the
  manifest asks for ["aa"], whose package is in order. *)
Definition compA : Component := mkComponent "A" keyURL (pkgURL "aa").
Definition env0 : Env :=
  env (mkDeployment [compA])
      [("sha256:0e", "KEY"); ("sha256:aa", "PKG")]
      [("PKG", goodPackage "APP"); ("APP", appPayload)].
Definition world0 : World :=
  start [(["deploy"], NDir); (["tmp"], NDir);
         (["deploy"; "A"], NDir);
         (["deploy"; "A"; ".hash"], NFile "11");
         (["deploy"; "A"; "docker-compose.yaml"], NFile "services: {old}")].

End ScenarioReapply.

(** ** Vocabulary of the further statements *)

(** no component of the name is [".."] *)
Definition noDotDot (name : string) : bool :=
  forallb (λ seg, negb (String.eqb seg "..")) (Split name "/").

(** an archive none of whose entry names has a [".."] component *)
Definition safeArchive (s : TarStream) : bool :=
  forallb (λ e, noDotDot (Name (header e))) (entries s).

(** every state a computation can end in is related to the one it started
    in *)
Definition respects {S A} (R : S → S → Prop) (m : M S A) : Prop :=
  ∀ s, R s (m s).2.

(** the node at [q] is the same *)
Definition sameAt (q : Path) (w w' : World) : Prop := fs w' !! q = fs w !! q.

(** the files are the same *)
Definition sameFS (w w' : World) : Prop := fs w' = fs w.

(** what is there stays there, directories as directories and files as
    files *)
Definition persists (w w' : World) : Prop :=
  ∀ q n, fs w !! q = Some n →
         ∃ n', fs w' !! q = Some n' ∧ isDirNode n' = isDirNode n.

Module ScenarioPartial.
Import Sample.

(** an archive whose third entry names a file in a directory that no entry
    creates *)
Definition broken : TarStream :=
  archive [dir "conf"; file "conf/a.yaml" "a: 1"; file "data/b.bin" "B";
           file "conf/c.yaml" "c: 3"].
Definition env0 : Env := env (mkDeployment []) [] [("BROKEN", broken)].
Definition world0 : World :=
  start [(["srv"], NDir); (["srv"; "app"], NDir);
         (["srv"; "app"; "motd"], NFile "welcome, all");
         (["srv"; "other"], NDir); (["srv"; "other"; "keep"], NFile "k")].

End ScenarioPartial.

Module ScenarioWalk.
Import Sample.

(** a scratch directory with two descriptors, a directory named like one,
    and other files *)
Definition world0 : World :=
  start [(["pkg"], NDir);
         (["pkg"; "b.app"], NFile "B");
         (["pkg"; "b.app.sig"], NFile "sig");
         (["pkg"; "a"], NDir);
         (["pkg"; "a"; "z.app"], NFile "Z");
         (["pkg"; "c.app"], NDir);
         (["pkg"; "c.app"; "readme"], NFile "r");
         (["pkgs"], NDir);
         (["pkgs"; "d.app"], NFile "D")].

End ScenarioWalk.

(** an event of the first loop: anything but the two log lines of the
    purge *)
Definition loopEvent (ev : event) : bool :=
  match ev with
  | Logged (LogPurging _) | Logged (LogFailedToStop _) => false
  | _ => true
  end.

(** [w'] continues the trace of [w] by events that satisfy [P] *)
Definition adds (P : event → bool) (w w' : World) : Prop :=
  ∃ evs, trace w' = trace w ++ evs ∧ forallb P evs = true.

(** a relation between worlds that holds when an event of the first loop is
    recorded *)
Definition emitClosed (RW : World → World → Prop) : Prop :=
  ∀ ev w, loopEvent ev = true → RW w (emit ev w).

(** a relation between worlds, read on the frames that hold them *)
Definition onWorld (RW : World → World → Prop) (st st' : Frame) : Prop :=
  RW (world st) (world st').

(** lines 276-313: what follows the writing of the digest file *)
Definition activate (E : Env) (deployment : Component) (destDir app : Path)
  : M Frame unit :=
  st ← get;
  (if fileExists (world st) (Join destDir "docker-compose.yaml") then
     liftW (w ← get;
            emitW (ExecComposeDown destDir);;
            check (composeDown E w destDir);;
            modify (λ w, setFS w (RemoveAll (fs w) destDir)))
   else mret tt);;
  st ← get;
  f ← attempt (ReadFile (fs (world st)) app);
  liftW (modify (λ w, setFS w (MkdirAll (fs w) destDir).1));;
  liftW (unpackTgz E f destDir true);;
  st ← get;
  tree ← attempt (Walk (fs (world st)) destDir);
  liftW (uploadAll E (fst <$> List.filter isImageArchive tree));;
  liftW (ensureRunningLogged E (CName deployment) destDir).

(** a relation between frames that does not look at the world *)
Definition ignoresWorld (R : Frame → Frame → Prop) : Prop :=
  ∀ st w, R st (mkFrame w (allowedDeployments st) (deferred st)).

(** the deferred removals of the first frame are still to be run in the
    second *)
Definition keepsDeferred (st st' : Frame) : Prop :=
  deferred st `suffix_of` deferred st'.

Module ScenarioScratch.
Import Sample.

(** the package of [A] has no descriptor, so its turn panics after the
    scratch directory was filled *)
Definition comp : Component := mkComponent "A" keyURL (pkgURL "aa").
Definition env0 : Env :=
  env (mkDeployment [comp])
      [("sha256:0e", "KEY"); ("sha256:aa", "PKG")]
      [("PKG", archive [dir "docs"; file "docs/README" "nothing to run"])].
Definition world0 : World := start [(["deploy"], NDir); (["tmp"], NDir)].
Definition frame0 : Frame := mkFrame (getAppDeployment env0 registry world0).2 ∅ [].

End ScenarioScratch.

Module ScenarioUpgrade.
Import Sample.

(** [A] is deployed with digest ["11"] and without an orchestration
    descriptor; the manifest asks for ["aa"], whose package is in order.
    [B] and [old] are directories the manifest does not list. *)
Definition compA : Component := mkComponent "A" keyURL (pkgURL "aa").
Definition env0 : Env :=
  env (mkDeployment [compA])
      [("sha256:0e", "KEY"); ("sha256:aa", "PKG")]
      [("PKG", goodPackage "APP"); ("APP", appPayload)].
Definition world0 : World :=
  start [(["deploy"], NDir); (["tmp"], NDir);
         (["deploy"; "A"], NDir);
         (["deploy"; "A"; ".hash"], NFile "11");
         (["deploy"; "B"], NDir);
         (["deploy"; "B"; "data"], NFile "rows");
         (["etc"], NDir);
         (["etc"; "motd"], NFile "hello")].
Definition frame0 : Frame := mkFrame (getAppDeployment env0 registry world0).2 ∅ [].

End ScenarioUpgrade.

(** the set of allowed names is the same *)
Definition sameAllowed (st st' : Frame) : Prop :=
  allowedDeployments st' = allowedDeployments st.

(** an event of lines 237-268, up to the check of the signature: a log line
    of the fetch, of the extraction or of the start of the check, or the
    download of a blob *)
Definition preparing (ev : event) : bool :=
  match ev with
  | Logged (LogFetching _) | Logged (LogDownloading _) | Logged (LogVerifying _)
  | Logged (WarnSkipHidden _) | Logged (WarnUnsupported _) => true
  | NetBlobGet _ _ => true
  | _ => false
  end.

(** [w'] continues [w], and as long as no signature has verified on the
    way it does so by events of the preparation only and with the same
    files outside the directory [T] and the directories above it *)
Definition gated (T : Path) (w w' : World) : Prop :=
  ∃ evs, trace w' = trace w ++ evs
         ∧ (verified evs = false →
            forallb preparing evs = true
            ∧ ∀ q, ¬ T `prefix_of` q → ¬ q `prefix_of` T → fs w' !! q = fs w !! q).

Module ScenarioUnsigned.
Import Sample.

(** [A] is deployed with digest ["11"]; the manifest asks for ["aa"], whose
    package has entries with ordinary names and a signature that does not
    verify. *)
Definition compA : Component := mkComponent "A" keyURL (pkgURL "aa").
Definition env0 : Env :=
  env (mkDeployment [compA])
      [("sha256:0e", "KEY"); ("sha256:aa", "PKG")]
      [("PKG", archive [file "svc.app" "APP"; file "svc.app.sig" "forged";
                        file "docker-compose.yaml" "services: {evil}"]);
       ("APP", appPayload)].
Definition world0 : World :=
  start [(["deploy"], NDir); (["tmp"], NDir);
         (["deploy"; "A"], NDir);
         (["deploy"; "A"; ".hash"], NFile "11");
         (["deploy"; "A"; "docker-compose.yaml"], NFile "services: {}")].
Definition frame0 : Frame := mkFrame (getAppDeployment env0 registry world0).2 ∅ [].

End ScenarioUnsigned.

(** lines 285-313: what follows the removal of the old directory *)
Definition install (E : Env) (deployment : Component) (destDir app : Path)
  : M Frame unit :=
  st ← get;
  f ← attempt (ReadFile (fs (world st)) app);
  liftW (modify (λ w, setFS w (MkdirAll (fs w) destDir).1));;
  liftW (unpackTgz E f destDir true);;
  st ← get;
  tree ← attempt (Walk (fs (world st)) destDir);
  liftW (uploadAll E (fst <$> List.filter isImageArchive tree));;
  liftW (ensureRunningLogged E (CName deployment) destDir).

(** no entry that extraction into the deployment directory of the component
    takes up has its target at or below the stored digest file *)
Definition sparesDigest (deployDir : Path) (c : Component) (s : TarStream) : bool :=
  forallb (λ e, hiddenEntry e
                || bool_decide (¬ hashFileOf deployDir c
                                    `prefix_of` Join (destDirOf deployDir c)
                                                  (Name (header e))))
          (entries s).

Module ScenarioHalfway.
Import Sample.

(** [A] is deployed with digest ["11"] and without an orchestration
    descriptor; the manifest asks for ["aa"].  The package is in order, the
    application archive in it has an entry for a file in a directory that
    no entry creates. *)
Definition compA : Component := mkComponent "A" keyURL (pkgURL "aa").
Definition payload : TarStream :=
  archive [file "docker-compose.yaml" "services: {new}";
           file "conf/app.yaml" "port: 80";
           file "image.tar" "IMG"].
Definition env0 : Env :=
  env (mkDeployment [compA])
      [("sha256:0e", "KEY"); ("sha256:aa", "PKG")]
      [("PKG", goodPackage "APP"); ("APP", payload)].
Definition world0 : World :=
  start [(["deploy"], NDir); (["tmp"], NDir);
         (["deploy"; "A"], NDir);
         (["deploy"; "A"; ".hash"], NFile "11")].
Definition frame0 : Frame := mkFrame (getAppDeployment env0 registry world0).2 ∅ [].

End ScenarioHalfway.

(** an access to the registry under the reference [ref] *)
Definition registryAccess (ref : string) (ev : event) : bool :=
  match ev with
  | NetPing r | NetManifestGet r | NetBlobGet r _ => String.eqb r ref
  | _ => false
  end.

Module ScenarioOffline.
Import Sample.

(** the deployments of [ScenarioSettled], with a registry that cannot be
    reached *)
Definition env0 : Env :=
  let e := ScenarioSettled.env0 in
  {| refNew := refNew e;
     ping := λ _ _, Some (ErrExternal "dial tcp: connection refused");
     manifestGet := manifestGet e;
     blobGet := blobGet e;
     yamlUnmarshal := yamlUnmarshal e;
     gunzipTar := gunzipTar e;
     KeyRing := KeyRing e;
     readArmoredKeyRing := readArmoredKeyRing e;
     checkDetachedSignature := checkDetachedSignature e;
     TempDir := TempDir e;
     nextRandom := nextRandom e;
     composePs := composePs e;
     composeUp := composeUp e;
     composeDown := composeDown e;
     newDockerClient := newDockerClient e;
     imageLoad := imageLoad e |}.
Definition world0 : World := ScenarioSettled.world0.

End ScenarioOffline.

(** [docker-compose ps], in any directory *)
Definition isPs (ev : event) : bool :=
  match ev with ExecComposePs _ => true | _ => false end.

Definition notPs (ev : event) : bool := negb (isPs ev).

(** a computation that ends without an error only after [docker-compose ps]
    was run in [dir], and that does not run it anywhere when it ends with an
    error or a panic *)
Definition startsLast {A} (dir : Path) (m : M Frame A) : Prop :=
  ∀ st, ∃ evs,
    trace (world (m st).2) = trace (world st) ++ evs
    ∧ match (m st).1 with
      | Ok _ => ensuredRunning dir evs = true
      | _ => forallb notPs evs = true
      end.

Module ScenarioNested.
Import Sample.

(** a component whose name has a path separator, never deployed *)
Definition comp : Component := mkComponent "group/app" keyURL (pkgURL "aa").
Definition env0 : Env :=
  env (mkDeployment [comp])
      [("sha256:0e", "KEY"); ("sha256:aa", "PKG")]
      [("PKG", goodPackage "APP"); ("APP", appPayload)].
Definition world0 : World := start [(["deploy"], NDir); (["tmp"], NDir)].
Definition frame0 : Frame := mkFrame (getAppDeployment env0 registry world0).2 ∅ [].

End ScenarioNested.

(** * Properties *)

(** ** The embedding on small inputs *)

Example Split_digest :
  Split "http://ghcr.io/v2/o/r/blobs/sha256:abc" "sha256:"
    = ["http://ghcr.io/v2/o/r/blobs/"; "abc"].
Proof. reflexivity. Qed.

Example Split_twice : Split "sha256:1/sha256:2" "sha256:" = [""; "1/"; "2"].
Proof. reflexivity. Qed.

Example Split_slashes : Split "a/b//c/" "/" = ["a"; "b"; ""; "c"; ""].
Proof. reflexivity. Qed.

Example Join_name : Join ["deploy"] "A" = ["deploy"; "A"].
Proof. reflexivity. Qed.

Example Join_dot_name : Join ["deploy"] "./A/" = ["deploy"; "A"].
Proof. reflexivity. Qed.

Example Join_rooted_name : Join ["tmp"; "x"] "/etc/passwd" = ["tmp"; "x"; "etc"; "passwd"].
Proof. reflexivity. Qed.

Example Join_above_root : Join ["tmp"; "x"] "a/../../../../etc" = ["etc"].
Proof. reflexivity. Qed.

Example matchBlobURL_ok :
  matchBlobURL "http://ghcr.io/v2/acme/apps/blobs/sha256:0a1b"
    = Some ("acme", "apps", "sha256:0a1b").
Proof. reflexivity. Qed.

Example matchBlobURL_upper :
  matchBlobURL "http://ghcr.io/v2/acme/apps/blobs/sha256:0A1B" = None.
Proof. reflexivity. Qed.

Example matchBlobURL_https :
  matchBlobURL "https://ghcr.io/v2/acme/apps/blobs/sha256:0a1b" = None.
Proof. reflexivity. Qed.

Example matchBlobURL_nested :
  matchBlobURL "http://ghcr.io/v2/acme/a/b/blobs/sha256:0a1b" = None.
Proof. reflexivity. Qed.

Example cutAtLastStar_ex : cutAtLastStar "a*b*c" = Some ("a*b", "c").
Proof. reflexivity. Qed.

Example overwrite_shorter : overwrite "aa" "old!" = "aad!".
Proof. reflexivity. Qed.

Example tree_order :
  fst <$> tree (fs ScenarioSettled.world0) ["deploy"; "B"]
    = [["deploy"; "B"]; ["deploy"; "B"; ".hash"]; ["deploy"; "B"; "data"];
       ["deploy"; "B"; "data"; "state.db"]].
Proof. vm_compute. reflexivity. Qed.

Example ReadDir_deploy :
  fst <$> ReadDir (fs ScenarioSettled.world0) ["deploy"] = ["A"; "B"; "C"; "notes.txt"].
Proof. vm_compute. reflexivity. Qed.

Example MkdirAll_through_file :
  (MkdirAll (fs ScenarioSettled.world0) ["deploy"; "notes.txt"; "x"]).2 = Some ENOTDIR.
Proof. vm_compute. reflexivity. Qed.

(** ** Strings and paths *)

Lemma string_app_cons (x : ascii) (a b : string) : String x a +:+ b = String x (a +:+ b).
Proof. reflexivity. Qed.

Lemma string_app_nil_l (b : string) : "" +:+ b = b.
Proof. reflexivity. Qed.

Lemma string_app_assoc (a b c : string) : (a +:+ b) +:+ c = a +:+ (b +:+ c).
Proof.
  induction a as [|x a IH]; [done |].
  rewrite !string_app_cons. by f_equal.
Qed.

Lemma string_app_nil_r (a : string) : a +:+ "" = a.
Proof.
  induction a as [|x a IH]; [done |].
  rewrite string_app_cons. by f_equal.
Qed.

Lemma HasPrefix_app (s p : string) : HasPrefix s p = true → ∃ r, s = p +:+ r.
Proof.
  revert s. induction p as [|a p IH]; intros s H.
  - by exists s.
  - destruct s as [|b s]; simpl in H; [done |].
    destruct (Ascii.eqb_spec a b) as [->|]; [| done].
    destruct (IH _ H) as [r ->]. exists r. reflexivity.
Qed.

Lemma HasPrefix_self_app (p r : string) : HasPrefix (p +:+ r) p = true.
Proof.
  induction p as [|a p IH]; [reflexivity |].
  rewrite string_app_cons. simpl. by rewrite Ascii.eqb_refl.
Qed.

Lemma splitFrom_nonempty sep skip cur s : splitFrom sep skip cur s ≠ [].
Proof.
  revert skip cur. induction s as [|c s IH]; intros skip cur; simpl; [done |].
  destruct skip; [| apply IH].
  destruct (HasPrefix _ _); [done | apply IH].
Qed.

(** Without an occurrence of the separator, [Split] yields the string itself
    and nothing else. *)
Lemma splitFrom_absent sep cur s :
  ¬ occursIn sep s → splitFrom sep 0 cur s = [cur +:+ s].
Proof.
  revert cur. induction s as [|c s IH]; intros cur Hno; simpl.
  - by rewrite string_app_nil_r.
  - destruct (HasPrefix (String c s) sep) eqn:Hp.
    + destruct (HasPrefix_app _ _ Hp) as [r Hr].
      exfalso. apply Hno. exists "", r. exact Hr.
    + rewrite IH.
      * by rewrite string_app_assoc.
      * intros (s1 & s2 & ->). apply Hno. exists (String c s1), s2. reflexivity.
Qed.

Lemma Split_absent s sep : ¬ occursIn sep s → Split s sep = [s].
Proof. intros H. unfold Split. by rewrite splitFrom_absent. Qed.

(** With an occurrence of a non-empty separator there are at least two
    pieces. *)
Lemma splitFrom_present sep cur s :
  sep ≠ "" → occursIn sep s → ∃ a b rest, splitFrom sep 0 cur s = a :: b :: rest.
Proof.
  intros Hsep (s1 & s2 & ->). revert cur.
  induction s1 as [|c s1 IH]; intros cur.
  - destruct sep as [|x sep]; [done |].
    rewrite string_app_nil_l, string_app_cons. cbn [splitFrom].
    rewrite <- string_app_cons, HasPrefix_self_app.
    pose proof (splitFrom_nonempty (String x sep)
                  (String.length (String x sep) - 1) "" (sep +:+ s2)) as Hne.
    destruct (splitFrom _ _ _ _) as [|b rest]; [done |]. by exists cur, b, rest.
  - rewrite string_app_cons. cbn [splitFrom].
    destruct (HasPrefix _ sep).
    + pose proof (splitFrom_nonempty sep (String.length sep - 1) ""
                    (s1 +:+ sep +:+ s2)) as Hne.
      destruct (splitFrom _ _ _ _) as [|b rest]; [done |]. by exists cur, b, rest.
    + apply IH.
Qed.

Lemma Split_present s sep :
  sep ≠ "" → occursIn sep s → is_Some (Split s sep !! 1).
Proof.
  intros H1 H2. destruct (splitFrom_present sep "" s H1 H2) as (a & b & rest & Heq).
  unfold Split. rewrite Heq. by exists b.
Qed.

Lemma Contains_true s sub : Contains s sub = true → occursIn sub s.
Proof.
  induction s as [|c s IH]; simpl; intros H.
  - rewrite orb_false_r in H. destruct (HasPrefix_app _ _ H) as [r Hr].
    exists "", r. exact Hr.
  - apply orb_true_iff in H as [H|H].
    + destruct (HasPrefix_app _ _ H) as [r Hr]. exists "", r. exact Hr.
    + destruct (IH H) as (s1 & s2 & ->). exists (String c s1), s2. reflexivity.
Qed.

Lemma Contains_false s sub : Contains s sub = false → ¬ occursIn sub s.
Proof.
  induction s as [|c s IH]; simpl; intros H (s1 & s2 & Heq).
  - rewrite orb_false_r in H. destruct s1; [| done].
    rewrite string_app_nil_l in Heq. rewrite Heq, HasPrefix_self_app in H. done.
  - apply orb_false_iff in H as [H1 H2].
    destruct s1 as [|x s1].
    + rewrite string_app_nil_l in Heq. rewrite Heq, HasPrefix_self_app in H1. done.
    + rewrite string_app_cons in Heq. injection Heq as -> ->.
      apply (IH H2). by exists s1, s2.
Qed.

(** Joining a directory with the name of one of its entries appends it. *)
Lemma Join_plain (dir : Path) (name : string) :
  plainName name = true → Join dir name = dir ++ [name].
Proof.
  unfold plainName. intros H.
  destruct (Contains name "/") eqn:Hs; [done |].
  apply Contains_false in Hs. unfold Join.
  rewrite (Split_absent _ _ Hs). simpl. unfold cleanStep.
  destruct (String.eqb name ""); [done |].
  destruct (String.eqb name "."); [done |].
  destruct (String.eqb name ".."); [done |].
  simpl. by rewrite rev_involutive.
Qed.

Lemma Join_hash (dir : Path) : Join dir ".hash" = dir ++ [".hash"].
Proof. unfold Join. simpl. by rewrite rev_involutive. Qed.

(** ** Running computations *)

Ltac unfold_go :=
  unfold mbind, M_bind, bind, mret, M_ret, ret, fail, crash, get, modify,
    attempt, check, catch, liftW, logW, emitW in *.

Lemma bind_Ok {S A B} (m : M S A) (k : A → M S B) s a s' :
  m s = (Ok a, s') → (m ≫= k) s = k a s'.
Proof. intros H. unfold_go. by rewrite H. Qed.

Lemma bind_Fail {S A B} (m : M S A) (k : A → M S B) s e s' :
  m s = (Fail e, s') → (m ≫= k) s = (Fail e, s').
Proof. intros H. unfold_go. by rewrite H. Qed.

Lemma bind_Crash {S A B} (m : M S A) (k : A → M S B) s p s' :
  m s = (Crash p, s') → (m ≫= k) s = (Crash p, s').
Proof. intros H. unfold_go. by rewrite H. Qed.

Lemma liftW_run {A} (m : M World A) st r w :
  m (world st) = (r, w) →
  liftW m st = (r, mkFrame w (allowedDeployments st) (deferred st)).
Proof. intros H. unfold liftW. by rewrite H. Qed.

Section Loop.
Variable E : Env.

Lemma reconcileAll_app deployDir l1 l2 st :
  reconcileAll E deployDir (l1 ++ l2) st =
  match reconcileAll E deployDir l1 st with
  | (Ok _, st') => reconcileAll E deployDir l2 st'
  | r => r
  end.
Proof.
  revert st. induction l1 as [|c l1 IH]; intros st; [done |].
  simpl. unfold_go.
  destruct (reconcileComponent E deployDir c st) as [[[]|e|p] st']; [| done | done].
  apply IH.
Qed.

(** A component whose turn does not end normally ends the loop: the
  components after it are not looked at. *)
Lemma reconcileAll_stops deployDir l1 c l2 st st1 r st2 :
  reconcileAll E deployDir l1 st = (Ok tt, st1) →
  reconcileComponent E deployDir c st1 = (r, st2) →
  r ≠ Ok tt →
  reconcileAll E deployDir (l1 ++ c :: l2) st = (r, st2).
Proof.
  intros H1 H2 Hr. rewrite reconcileAll_app, H1. simpl. unfold_go.
  rewrite H2. destruct r as [[]|e|p]; done.
Qed.

(** ... and so does the call, after its deferred clean-up; the purge is
  not run. *)
Lemma reconcileDeployments_stops reg deployDir w d w1 l1 c l2 st1 r st2 :
  getAppDeployment E reg w = (Ok d, w1) →
  Components d = l1 ++ c :: l2 →
  reconcileAll E deployDir l1 (mkFrame w1 ∅ []) = (Ok tt, st1) →
  reconcileComponent E deployDir c st1 = (r, st2) →
  r ≠ Ok tt →
  reconcileDeployments E reg deployDir w = (r, runDeferred st2).
Proof.
  intros Hd Hc H1 H2 Hr. unfold reconcileDeployments. rewrite Hd, Hc.
  unfold mbind at 1. unfold M_bind, bind.
  rewrite (reconcileAll_stops _ _ _ _ _ _ _ _ H1 H2 Hr).
  destruct r as [[]|e|p]; done.
Qed.

End Loop.

(** ** The digest embedded in a package location (line 215) *)

Section Digest.
Variable E : Env.

Lemma reconcileComponent_no_digest deployDir c st :
  Contains (PackageLocation c) "sha256:" = false →
  reconcileComponent E deployDir c st =
    (Crash (IndexOutOfRange 1 1),
     mkFrame (world st) (<[CName c := true]> (allowedDeployments st)) (deferred st)).
Proof.
  intros H. apply Contains_false in H.
  unfold reconcileComponent. rewrite (Split_absent _ _ H). reflexivity.
Qed.

Lemma reconcileAll_not_Ok deployDir cs c st :
  c ∈ cs →
  Contains (PackageLocation c) "sha256:" = false →
  (reconcileAll E deployDir cs st).1 ≠ Ok tt.
Proof.
  intros Hin Hc. apply list_elem_of_split in Hin as (l1 & l2 & ->).
  rewrite reconcileAll_app.
  destruct (reconcileAll E deployDir l1 st) as [[[]|e|p] st1]; [| done | done].
  simpl. unfold_go. by rewrite reconcileComponent_no_digest.
Qed.

End Digest.

(** C9. A component whose packageLocation does not contain "sha256:" makes
    the pass panic: [strings.Split] returns a single piece, index 1 is out
    of range, and the turn of that component ends in a panic in every state
    (never in an error).  A pass over a manifest that lists such a component
    never returns nil, and it panics as soon as the components before it
    went through.  A location that does contain "sha256:" has an element 1. *)
Theorem C9_missing_digest_panics (E : Env) (deployDir : Path) (c : Component) :
  Contains (PackageLocation c) "sha256:" = false →
  Split (PackageLocation c) "sha256:" !! 1 = None
  ∧ (∀ st, (reconcileComponent E deployDir c st).1 = Crash (IndexOutOfRange 1 1))
  ∧ (∀ reg w d w1,
       getAppDeployment E reg w = (Ok d, w1) →
       c ∈ Components d →
       (reconcileDeployments E reg deployDir w).1 ≠ Ok tt)
  ∧ (∀ reg w d w1 l1 l2 st1,
       getAppDeployment E reg w = (Ok d, w1) →
       Components d = l1 ++ c :: l2 →
       reconcileAll E deployDir l1 (mkFrame w1 ∅ []) = (Ok tt, st1) →
       (reconcileDeployments E reg deployDir w).1 = Crash (IndexOutOfRange 1 1))
  ∧ (∀ c', Contains (PackageLocation c') "sha256:" = true →
       is_Some (Split (PackageLocation c') "sha256:" !! 1)).
Proof.
  intros Hc. split_and!.
  - by rewrite (Split_absent _ _ (Contains_false _ _ Hc)).
  - intros st. by rewrite reconcileComponent_no_digest.
  - intros reg w d w1 Hd Hin. unfold reconcileDeployments. rewrite Hd.
    unfold mbind at 1. unfold M_bind, bind.
    pose proof (reconcileAll_not_Ok E deployDir _ c (mkFrame w1 ∅ []) Hin Hc) as Hn.
    destruct (reconcileAll E deployDir (Components d) _) as [[[]|e|p] st1];
      simpl in *; done.
  - intros reg w d w1 l1 l2 st1 Hd Hl H1.
    by rewrite (reconcileDeployments_stops E reg deployDir w d w1 l1 c l2 st1 _ _
                  Hd Hl H1 (reconcileComponent_no_digest E deployDir c st1 Hc)).
  - intros c' Hc'. apply Split_present; [done |]. by apply Contains_true.
Qed.

Lemma C9_missing_digest_panics_witness :
  Contains (PackageLocation Scenario.noDigest) "sha256:" = false
  ∧ (reconcileDeployments Scenario.noDigestEnv Sample.registry Sample.deployDir
       Scenario.emptyHost).1 = Crash (IndexOutOfRange 1 1).
Proof.
  split; [reflexivity |].
  destruct (C9_missing_digest_panics Scenario.noDigestEnv Sample.deployDir
              Scenario.noDigest eq_refl) as (_ & _ & _ & H & _).
  eapply (H _ _ _ _ [] []); vm_compute; reflexivity.
Defined.

(** ** The application descriptor of a package (lines 262-266) *)

Section Descriptor.
Variable E : Env.

(** The turn of a component that is missing or stale, once its key and
  package were fetched and the package was extracted without a [*.app]
  file in the scratch directory. *)
Lemma reconcileComponent_no_app deployDir c st tempDir w1 key w2 pkg w3 w4 :
  stale deployDir (world st) c = true →
  MkdirTemp E (CName c) (emit (Logged (LogFetching (CName c))) (world st))
    = (Ok tempDir, w1) →
  downloadFromOCI E (KeyLocation c) w1 = (Ok key, w2) →
  downloadFromOCI E (PackageLocation c) w2 = (Ok pkg, w3) →
  unpackTgz E pkg tempDir true w3 = (Ok tt, w4) →
  findAppFiles w4 tempDir = ([], None) →
  reconcileComponent E deployDir c st =
    (Crash (IndexOutOfRange 0 0),
     mkFrame w4 (<[CName c := true]> (allowedDeployments st)) (tempDir :: deferred st)).
Proof.
  intros Hst Htmp Hkey Hpkg Hun Hfind.
  unfold stale, digestOf, hashFileOf, destDirOf in Hst.
  unfold reconcileComponent.
  erewrite bind_Ok by reflexivity. cbv zeta.
  destruct (Split (PackageLocation c) "sha256:" !! 1) as [h|]; [| done].
  erewrite bind_Ok by reflexivity. unfold fileExists, exists_at. cbn [world].
  assert (applyComponent E c (Join deployDir (CName c))
            (Join (Join deployDir (CName c)) ".hash") h
            (mkFrame (world st) (<[CName c := true]> (allowedDeployments st)) (deferred st))
          = (Crash (IndexOutOfRange 0 0),
             mkFrame w4 (<[CName c := true]> (allowedDeployments st))
               (tempDir :: deferred st))) as Happly.
  { unfold applyComponent.
    erewrite bind_Ok by (apply liftW_run; reflexivity).
    erewrite bind_Ok by (apply liftW_run; exact Htmp).
    erewrite bind_Ok by reflexivity.
    erewrite bind_Ok by (apply liftW_run; exact Hkey).
    erewrite bind_Ok by (apply liftW_run; exact Hpkg).
    erewrite bind_Ok by (apply liftW_run; exact Hun).
    erewrite bind_Ok by reflexivity.
    cbn [world]. rewrite Hfind.
    erewrite bind_Ok by reflexivity. reflexivity. }
  destruct (node_at (fs (world st)) _) as [[|a]|] eqn:Hn; [done | | exact Happly].
  unfold ReadFile. rewrite Hn.
  erewrite bind_Ok by reflexivity.
  destruct (String.eqb a h); [done | exact Happly].
Qed.

End Descriptor.

(** ** What a walk visits *)

Lemma elem_of_tree (f : FS) (root p : Path) (n : Node) :
  (p, n) ∈ tree f root ↔ f !! p = Some n ∧ root `prefix_of` p.
Proof.
  unfold tree. rewrite merge_sort_Permutation, elem_of_map_to_list.
  rewrite map_lookup_filter_Some. unfold under. simpl. tauto.
Qed.

Lemma filter_none {A} (f : A → bool) (l : list A) :
  List.filter f l = [] ↔ ∀ x, x ∈ l → f x = false.
Proof.
  induction l as [|a l IH]; simpl.
  - split; [intros _ x Hx; by apply elem_of_nil in Hx | done].
  - destruct (f a) eqn:Ha.
    + split; [done |]. intros H. rewrite (H a) in Ha; [done | by left].
    + rewrite IH. split.
      * intros H x Hx. apply elem_of_cons in Hx as [->|Hx]; auto.
      * intros H x Hx. apply H. by right.
Qed.

(** [findAppFiles] finds nothing exactly when the directory is there and no
    regular file at or below it is named [*.app]. *)
Lemma findAppFiles_nil w dir :
  findAppFiles w dir = ([], None) ↔
  exists_at (fs w) dir = true ∧ ∀ p, dir `prefix_of` p → ¬ appFileAt w p.
Proof.
  unfold findAppFiles, Walk, exists_at.
  destruct (node_at (fs w) dir) as [n0|]; [| split; [done | intros [? _]; done]].
  split.
  - intros H. split; [done |]. intros p Hp (content & Hf & Hs).
    assert (List.filter isAppFile (tree (fs w) dir) = []) as Hnil.
    { destruct (List.filter _ _); [done | simplify_eq/=]. }
    rewrite filter_none in Hnil.
    specialize (Hnil (p, NFile content)). unfold isAppFile in Hnil. simpl in Hnil.
    rewrite Hs in Hnil. discriminate Hnil. by apply elem_of_tree.
  - intros [_ H].
    assert (List.filter isAppFile (tree (fs w) dir) = []) as ->; [| done].
    apply filter_none. intros [p n] Hin. apply elem_of_tree in Hin as [Hf Hp].
    unfold isAppFile. simpl. destruct n as [|content]; [done |]. simpl.
    destruct (HasSuffix (Base p) ".app") eqn:Hs; [| done].
    exfalso. apply (H p Hp). by exists content.
Qed.

(** C10. A component that is missing or stale, whose key and package were
    fetched and whose package was extracted (hidden entries skipped) into the
    scratch directory without leaving a file named [*.app] there
    ([findAppFiles] returns the empty list and no error, see
    [findAppFiles_nil]): its turn ends in the panic of [appFiles[0]], index 0
    out of range for length 0, not in an error, and the pass that reaches it
    panics. *)
Theorem C10_no_app_file_panics (E : Env) (deployDir : Path) (c : Component)
    (st : Frame) (tempDir : Path) (key pkg : string) (w1 w2 w3 w4 : World) :
  stale deployDir (world st) c = true →
  MkdirTemp E (CName c) (emit (Logged (LogFetching (CName c))) (world st))
    = (Ok tempDir, w1) →
  downloadFromOCI E (KeyLocation c) w1 = (Ok key, w2) →
  downloadFromOCI E (PackageLocation c) w2 = (Ok pkg, w3) →
  unpackTgz E pkg tempDir true w3 = (Ok tt, w4) →
  findAppFiles w4 tempDir = ([], None) →
  (reconcileComponent E deployDir c st).1 = Crash (IndexOutOfRange 0 0)
  ∧ (∀ reg w d w0 l1 l2,
       getAppDeployment E reg w = (Ok d, w0) →
       Components d = l1 ++ c :: l2 →
       reconcileAll E deployDir l1 (mkFrame w0 ∅ []) = (Ok tt, st) →
       (reconcileDeployments E reg deployDir w).1 = Crash (IndexOutOfRange 0 0)).
Proof.
  intros Hst Htmp Hkey Hpkg Hun Hfind.
  pose proof (reconcileComponent_no_app E deployDir c st tempDir w1 key w2 pkg w3 w4
                Hst Htmp Hkey Hpkg Hun Hfind) as Hc.
  split; [by rewrite Hc |].
  intros reg w d w0 l1 l2 Hd Hl H1.
  by rewrite (reconcileDeployments_stops E reg deployDir w d w0 l1 c l2 st _ _
                Hd Hl H1 Hc).
Qed.

Lemma C10_no_app_file_panics_witness :
  stale Sample.deployDir ScenarioNoApp.world0 ScenarioNoApp.comp = true
  ∧ (reconcileDeployments ScenarioNoApp.env0 Sample.registry Sample.deployDir
       ScenarioNoApp.world0).1 = Crash (IndexOutOfRange 0 0).
Proof.
  split; [reflexivity |].
  set (w0 := (getAppDeployment ScenarioNoApp.env0 Sample.registry ScenarioNoApp.world0).2).
  edestruct (C10_no_app_file_panics ScenarioNoApp.env0 Sample.deployDir
               ScenarioNoApp.comp (mkFrame w0 ∅ [])) as [_ H].
  1-6: vm_compute; reflexivity.
  eapply (H _ _ _ _ [] []); vm_compute; reflexivity.
Defined.

(** ** A failing component (the [return err] statements of the first loop) *)

(** C1, as the code has it. When the turn of a component ends in an error,
    the call returns that error at once: the world it leaves is the one of
    the moment of the failure with the scratch directories removed, whatever
    components follow in the manifest, and the purge does not run. *)
Theorem C1_failure_ends_pass (E : Env) (reg : string) (deployDir : Path)
    (w w1 : World) (d : ApplicationDeployment) (l1 l2 : list Component)
    (c : Component) (st1 st2 : Frame) (e : error) :
  getAppDeployment E reg w = (Ok d, w1) →
  Components d = l1 ++ c :: l2 →
  reconcileAll E deployDir l1 (mkFrame w1 ∅ []) = (Ok tt, st1) →
  reconcileComponent E deployDir c st1 = (Fail e, st2) →
  reconcileDeployments E reg deployDir w = (Fail e, runDeferred st2).
Proof.
  intros Hd Hl H1 H2.
  by apply (reconcileDeployments_stops E reg deployDir w d w1 l1 c l2 st1 _ _ Hd Hl H1 H2).
Qed.

Lemma C1_failure_ends_pass_witness :
  (reconcileComponent ScenarioFetchFails.env0 Sample.deployDir
     ScenarioFetchFails.compA ScenarioFetchFails.frame0).1
    = Fail (ErrExternal "blob unknown")
  ∧ (reconcileDeployments ScenarioFetchFails.env0 Sample.registry Sample.deployDir
       ScenarioFetchFails.world0).1 = Fail (ErrExternal "blob unknown").
Proof.
  split; [vm_compute; reflexivity |].
  destruct (reconcileComponent ScenarioFetchFails.env0 Sample.deployDir
              ScenarioFetchFails.compA ScenarioFetchFails.frame0) as [r st2] eqn:Hc.
  assert (r = Fail (ErrExternal "blob unknown")) as ->.
  { apply (f_equal fst) in Hc. cbn [fst] in Hc. rewrite <- Hc. vm_compute. reflexivity. }
  by rewrite (C1_failure_ends_pass ScenarioFetchFails.env0 Sample.registry
                Sample.deployDir ScenarioFetchFails.world0 _ _ []
                [ScenarioFetchFails.compB] ScenarioFetchFails.compA
                ScenarioFetchFails.frame0 st2 _
                ltac:(vm_compute; reflexivity) eq_refl eq_refl Hc).
Defined.

(** In a pass over [A; B] in which the key of [A] cannot be fetched, [B],
    whose own turn would go through, is not taken up, and the directory [C],
    which the manifest does not list, is not purged. *)
Lemma C1_counterexample :
  let r := reconcileDeployments ScenarioFetchFails.env0 Sample.registry
             Sample.deployDir ScenarioFetchFails.world0 in
  r.1 = Fail (ErrExternal "blob unknown")
  ∧ (reconcileComponent ScenarioFetchFails.env0 Sample.deployDir
       ScenarioFetchFails.compB ScenarioFetchFails.frame0).1 = Ok tt
  ∧ takenUp "A" (trace r.2) = true
  ∧ takenUp "B" (trace r.2) = false
  ∧ stale Sample.deployDir r.2 ScenarioFetchFails.compB = true
  ∧ purged (trace r.2) = false
  ∧ fs r.2 !! ["deploy"; "C"] = Some NDir.
Proof. vm_compute. repeat split. Qed.

(** ** Passes that fetch nothing *)

Lemma quietly_refl w : quietly w w.
Proof. exists []. by rewrite app_nil_r. Qed.

Lemma quietly_trans w1 w2 w3 : quietly w1 w2 → quietly w2 w3 → quietly w1 w3.
Proof.
  intros (e1 & H1 & Q1) (e2 & H2 & Q2). exists (e1 ++ e2).
  rewrite H2, H1, <- app_assoc. split; [done |].
  rewrite forallb_app, Q1, Q2. done.
Qed.

Lemma quietly_emit ev w : quiet ev = true → quietly w (emit ev w).
Proof. intros H. exists [ev]. simpl. by rewrite H. Qed.

Lemma forallb_ext {A} (f g : A → bool) (l : list A) :
  (∀ x, f x = g x) → forallb f l = forallb g l.
Proof. intros H. induction l as [|a l IH]; simpl; [done | by rewrite H, IH]. Qed.

Section Quiet.
Variable E : Env.

Lemma ensureRunningLogged_spec name dir w :
  ∃ w', ensureRunningLogged E name dir w = (Ok tt, w')
        ∧ fs w' = fs w ∧ quietly w w'.
Proof.
  unfold ensureRunningLogged, dockerEnsureRunning. unfold_go. simpl.
  destruct (composePs E w dir) as [e|output]; simpl.
  { eexists. split; [reflexivity |]. split; [done |].
    eapply quietly_trans; apply quietly_emit; done. }
  destruct (nonEmpty output); simpl.
  { eexists. split; [reflexivity |]. split; [done |]. by apply quietly_emit. }
  destruct (composeUp E _ dir) as [e|]; simpl.
  all: eexists; (split; [reflexivity |]); (split; [done |]).
  all: repeat (eapply quietly_trans; [| apply quietly_emit; done]).
  all: apply quietly_refl.
Qed.

Lemma upToDate_fs deployDir w w' c :
  fs w' = fs w → upToDate deployDir w' c = upToDate deployDir w c.
Proof. intros H. unfold upToDate. by rewrite H. Qed.

(** the turn of an up-to-date component: lines 210-233 *)
Lemma reconcileComponent_upToDate deployDir c st :
  upToDate deployDir (world st) c = true →
  ∃ w', reconcileComponent E deployDir c st =
          (Ok tt, mkFrame w' (<[CName c := true]> (allowedDeployments st)) (deferred st))
        ∧ fs w' = fs (world st) ∧ quietly (world st) w'.
Proof.
  intros Hup. unfold upToDate, digestOf, hashFileOf, destDirOf in Hup.
  unfold reconcileComponent.
  erewrite bind_Ok by reflexivity. cbv zeta.
  destruct (Split (PackageLocation c) "sha256:" !! 1) as [h|]; [| done].
  erewrite bind_Ok by reflexivity. cbn [world].
  unfold fileExists, exists_at.
  unfold ReadFile in *.
  destruct (node_at (fs (world st)) _) as [[|a]|]; [done | | done].
  erewrite bind_Ok by reflexivity. rewrite Hup.
  erewrite bind_Ok by (apply liftW_run; reflexivity).
  destruct (ensureRunningLogged_spec (CName c)
              (Join deployDir (CName c))
              (emit (Logged (LogUpToDate (CName c))) (world st)))
    as (w' & Hrun & Hfs & Hq).
  exists w'. split; [| split].
  - by erewrite liftW_run by exact Hrun.
  - by rewrite Hfs.
  - eapply quietly_trans; [| exact Hq]. by apply quietly_emit.
Qed.

Lemma reconcileAll_upToDate deployDir cs st :
  forallb (upToDate deployDir (world st)) cs = true →
  ∃ w', reconcileAll E deployDir cs st =
          (Ok tt, mkFrame w' (allowedAfter cs (allowedDeployments st)) (deferred st))
        ∧ fs w' = fs (world st) ∧ quietly (world st) w'.
Proof.
  revert st. induction cs as [|c cs IH]; intros st Hall; simpl in *.
  - exists (world st). destruct st. split; [done |]. split; [done | apply quietly_refl].
  - apply andb_true_iff in Hall as [Hc Hcs].
    destruct (reconcileComponent_upToDate deployDir c st Hc) as (w1 & Hrun & Hfs & Hq).
    erewrite bind_Ok by exact Hrun.
    destruct (IH (mkFrame w1 (<[CName c := true]> (allowedDeployments st)) (deferred st)))
      as (w2 & Hrun2 & Hfs2 & Hq2).
    { simpl. rewrite <- Hcs. apply forallb_ext.
      intros c'. by apply upToDate_fs. }
    exists w2. split; [exact Hrun2 |]. simpl in *. split; [congruence |].
    by eapply quietly_trans.
Qed.

(** the second loop: lines 321-334 *)
Lemma purgeEntries_spec deployDir allowed es w :
  ∃ w', purgeEntries E deployDir allowed es w = (Ok tt, w')
        ∧ fs w' = fold_left RemoveAll (purgeTargets deployDir allowed es) (fs w)
        ∧ quietly w w'.
Proof.
  revert w. induction es as [|[name n] es IH]; intros w; simpl.
  - exists w. split; [done |]. split; [done | apply quietly_refl].
  - unfold purgeEntry, purgeTargets. simpl.
    destruct (isDirNode n); simpl.
    2:{ erewrite bind_Ok by reflexivity. apply IH. }
    destruct (default false (allowed !! name)); simpl.
    { erewrite bind_Ok by reflexivity. apply IH. }
    unfold_go. simpl.
    destruct (composeDown E _ _); simpl.
    all: match goal with
         | |- ∃ w', purgeEntries _ _ _ _ ?w0 = _ ∧ _ =>
             destruct (IH w0) as (w' & Hrun & Hfs & Hq)
         end.
    all: exists w'; split; [exact Hrun |]; split; [exact Hfs |].
    all: eapply quietly_trans; [| exact Hq].
    all: repeat (eapply quietly_trans; [| apply quietly_emit; done]).
    all: apply quietly_refl.
Qed.

Lemma getAppDeployment_fs reg w r w1 :
  getAppDeployment E reg w = (r, w1) → fs w1 = fs w.
Proof.
  unfold getAppDeployment. unfold_go. simpl.
  destruct (refNew E reg); simpl; [by intros [= <- <-] |].
  destruct (ping E _ reg); simpl; [by intros [= <- <-] |].
  destruct (manifestGet E _ reg) as [e|[layers|]]; simpl; [by intros [= <- <-] | | by intros [= <- <-]].
  destruct (firstDesiredState layers) as [desc|]; simpl; [| by intros [= <- <-]].
  destruct (blobGet E _ reg (Digest desc)) as [e|b]; simpl; [by intros [= <- <-] |].
  destruct (yamlUnmarshal E b); simpl; by intros [= <- <-].
Qed.

(** a pass in which every component is up to date *)
Lemma reconcileDeployments_upToDate reg deployDir w d w1 :
  getAppDeployment E reg w = (Ok d, w1) →
  forallb (upToDate deployDir w) (Components d) = true →
  ∃ w', reconcileDeployments E reg deployDir w = (Ok tt, w')
        ∧ fs w' = fold_left RemoveAll
                    (purgeTargets deployDir (allowedAfter (Components d) ∅)
                       (ReadDir (fs w) deployDir))
                    (fs w)
        ∧ quietly w1 w'.
Proof.
  intros Hd Hall. pose proof (getAppDeployment_fs _ _ _ _ Hd) as Hfs1.
  unfold reconcileDeployments. rewrite Hd.
  destruct (reconcileAll_upToDate deployDir (Components d) (mkFrame w1 ∅ []))
    as (w2 & Hrun & Hfs2 & Hq2).
  { simpl. rewrite <- Hall. apply forallb_ext. intros c. by apply upToDate_fs. }
  erewrite bind_Ok by exact Hrun.
  unfold purge. erewrite bind_Ok by reflexivity. cbn [world allowedDeployments].
  destruct (purgeEntries_spec deployDir (allowedAfter (Components d) ∅)
              (ReadDir (fs w2) deployDir) w2) as (w3 & Hrun3 & Hfs3 & Hq3).
  erewrite liftW_run by exact Hrun3.
  exists w3. simpl in *. split; [done |]. split.
  - rewrite Hfs3, Hfs2, Hfs1. done.
  - by eapply quietly_trans.
Qed.

End Quiet.

(** C4. A pass over a manifest all of whose components have a stored digest
    file holding the digest of their packageLocation returns nil, and after
    the manifest was fetched its trace has no access to the registry and no
    call of [downloadFromOCI]; the turn of each component leaves the file
    system as it is. *)
Theorem C4_settled_pass_fetches_nothing (E : Env) (reg : string) (deployDir : Path)
    (w w1 : World) (d : ApplicationDeployment) :
  getAppDeployment E reg w = (Ok d, w1) →
  forallb (upToDate deployDir w) (Components d) = true →
  (reconcileDeployments E reg deployDir w).1 = Ok tt
  ∧ quietly w1 (reconcileDeployments E reg deployDir w).2
  ∧ (∀ c st, upToDate deployDir (world st) c = true →
       (reconcileComponent E deployDir c st).1 = Ok tt
       ∧ fs (world (reconcileComponent E deployDir c st).2) = fs (world st)
       ∧ quietly (world st) (world (reconcileComponent E deployDir c st).2)).
Proof.
  intros Hd Hall.
  destruct (reconcileDeployments_upToDate E reg deployDir w d w1 Hd Hall)
    as (w' & Hrun & _ & Hq).
  rewrite Hrun. split; [done |]. split; [done |].
  intros c st Hc.
  destruct (reconcileComponent_upToDate E deployDir c st Hc) as (w2 & Hrun2 & Hfs & Hq2).
  rewrite Hrun2. done.
Qed.

Lemma C4_settled_pass_fetches_nothing_witness :
  forallb (upToDate Sample.deployDir ScenarioSettled.world0)
    [ScenarioSettled.compA; ScenarioSettled.compB] = true
  ∧ (reconcileDeployments ScenarioSettled.env0 Sample.registry Sample.deployDir
       ScenarioSettled.world0).1 = Ok tt.
Proof.
  split; [reflexivity |].
  eapply (C4_settled_pass_fetches_nothing ScenarioSettled.env0 Sample.registry
            Sample.deployDir ScenarioSettled.world0).
  - vm_compute. reflexivity.
  - reflexivity.
Defined.

(** ** Removal of directories *)

Lemma RemoveAll_under (f : FS) (p q : Path) :
  p `prefix_of` q → RemoveAll f p !! q = None.
Proof.
  intros H. unfold RemoveAll. apply map_lookup_filter_None. right.
  intros n _ Hn. by apply Hn.
Qed.

Lemma RemoveAll_other (f : FS) (p q : Path) :
  ¬ p `prefix_of` q → RemoveAll f p !! q = f !! q.
Proof.
  intros H. unfold RemoveAll. destruct (f !! q) as [n|] eqn:Hq.
  - apply map_lookup_filter_Some. done.
  - apply map_lookup_filter_None. by left.
Qed.

Lemma RemoveAll_None (f : FS) (p q : Path) :
  f !! q = None → RemoveAll f p !! q = None.
Proof. intros H. unfold RemoveAll. apply map_lookup_filter_None. by left. Qed.

Lemma RemoveAll_fold_None (ts : list Path) (f : FS) (q : Path) :
  f !! q = None → fold_left RemoveAll ts f !! q = None.
Proof.
  revert f. induction ts as [|t ts IH]; intros f H; simpl; [done |].
  apply IH. by apply RemoveAll_None.
Qed.

Lemma RemoveAll_fold_under (ts : list Path) (f : FS) (t q : Path) :
  t ∈ ts → t `prefix_of` q → fold_left RemoveAll ts f !! q = None.
Proof.
  revert f. induction ts as [|t' ts IH]; intros f Hin Hp; simpl.
  - by apply elem_of_nil in Hin.
  - apply elem_of_cons in Hin as [<-|Hin].
    + apply RemoveAll_fold_None. by apply RemoveAll_under.
    + by apply IH.
Qed.

Lemma RemoveAll_fold_other (ts : list Path) (f : FS) (q : Path) :
  (∀ t, t ∈ ts → ¬ t `prefix_of` q) → fold_left RemoveAll ts f !! q = f !! q.
Proof.
  revert f. induction ts as [|t' ts IH]; intros f H; simpl; [done |].
  rewrite IH.
  - apply RemoveAll_other. apply H. by left.
  - intros t Ht. apply H. by right.
Qed.

(** the entries [ReadDir] lists are the children of the directory *)
Lemma elem_of_ReadDir (f : FS) (p : Path) (name : string) (n : Node) :
  (name, n) ∈ ReadDir f p ↔ node_at f p = Some NDir ∧ f !! (p ++ [name]) = Some n.
Proof.
  unfold ReadDir. destruct (node_at f p) as [[|c]|].
  2,3: split; [intros H; by apply elem_of_nil in H | intros [? _]; done].
  rewrite list_elem_of_omap. split.
  - intros ([q n'] & Hin & Hq). apply elem_of_tree in Hin as [Hf [k ->]].
    simpl in Hq. rewrite drop_app_length in Hq.
    destruct k as [|x [|y k]]; simplify_eq/=. done.
  - intros [_ Hf]. exists (p ++ [name], n). split.
    + apply elem_of_tree. split; [done |]. by exists [name].
    + simpl. by rewrite drop_app_length.
Qed.

Lemma allowedAfter_lookup (cs : list Component) (m : gmap string bool) (name : string) :
  default false (allowedAfter cs m !! name) = true ↔
  name ∈ CName <$> cs ∨ default false (m !! name) = true.
Proof.
  revert m. induction cs as [|c cs IH]; intros m; simpl.
  - split; [by right |]. intros [H|H]; [by apply elem_of_nil in H | done].
  - rewrite IH, elem_of_cons. destruct (decide (CName c = name)) as [<-|Hne].
    + rewrite lookup_insert_eq. simpl. tauto.
    + rewrite lookup_insert_ne by done. split; [tauto |].
      intros [[Heq|?]|?]; [by symmetry in Heq | tauto | tauto].
Qed.

Lemma elem_of_purgeTargets deployDir allowed es t :
  t ∈ purgeTargets deployDir allowed es ↔
  ∃ name, (name, NDir) ∈ es ∧ default false (allowed !! name) = false
          ∧ t = Join deployDir name.
Proof.
  unfold purgeTargets. rewrite list_elem_of_fmap. split.
  - intros ([name n] & -> & Hin). apply list_elem_of_In, filter_In in Hin as [Hin Hc].
    simpl in *. apply list_elem_of_In in Hin.
    destruct n; [| done]. simpl in Hc. apply negb_true_iff in Hc.
    by exists name.
  - intros (name & Hin & Hc & ->). exists (name, NDir). split; [done |].
    apply list_elem_of_In, filter_In. split; [by apply list_elem_of_In |].
    simpl. by rewrite Hc.
Qed.

(** C6. In a pass over a manifest all of whose components are up to date,
    with a deployment directory whose entries have ordinary names: the pass
    returns nil; every top-level directory whose name the manifest does not
    list is gone with everything below it; every path that does not lie at
    or below such a directory is as it was before, so in particular
    everything at or below the directory of a listed name. *)
Theorem C6_purge_removes_only_stale (E : Env) (reg : string) (deployDir : Path)
    (w w1 : World) (d : ApplicationDeployment) :
  getAppDeployment E reg w = (Ok d, w1) →
  forallb (upToDate deployDir w) (Components d) = true →
  node_at (fs w) deployDir = Some NDir →
  forallb plainName (fst <$> ReadDir (fs w) deployDir) = true →
  (reconcileDeployments E reg deployDir w).1 = Ok tt
  ∧ (∀ name q,
       fs w !! (deployDir ++ [name]) = Some NDir →
       name ∉ namesOf d →
       (deployDir ++ [name]) `prefix_of` q →
       fs (reconcileDeployments E reg deployDir w).2 !! q = None)
  ∧ (∀ q,
       (∀ name, (deployDir ++ [name]) `prefix_of` q →
                fs w !! (deployDir ++ [name]) = Some NDir → name ∈ namesOf d) →
       fs (reconcileDeployments E reg deployDir w).2 !! q = fs w !! q)
  ∧ (∀ name q,
       name ∈ namesOf d →
       (deployDir ++ [name]) `prefix_of` q →
       fs (reconcileDeployments E reg deployDir w).2 !! q = fs w !! q).
Proof.
  intros Hd Hall Hdir Hplain.
  destruct (reconcileDeployments_upToDate E reg deployDir w d w1 Hd Hall)
    as (w' & Hrun & Hfs & _).
  rewrite Hrun. simpl. rewrite Hfs. clear Hrun Hfs.
  assert (∀ name n, (name, n) ∈ ReadDir (fs w) deployDir →
                    Join deployDir name = deployDir ++ [name]) as Hjoin.
  { intros name n Hin. apply Join_plain.
    rewrite forallb_forall in Hplain. apply Hplain.
    apply list_elem_of_In, list_elem_of_fmap. by exists (name, n). }
  assert (∀ q,
       (∀ name, (deployDir ++ [name]) `prefix_of` q →
                fs w !! (deployDir ++ [name]) = Some NDir → name ∈ namesOf d) →
       fold_left RemoveAll
         (purgeTargets deployDir (allowedAfter (Components d) ∅)
            (ReadDir (fs w) deployDir)) (fs w) !! q = fs w !! q) as Hkeep.
  { intros q Hq. apply RemoveAll_fold_other. intros t Ht Hp.
    apply elem_of_purgeTargets in Ht as (name & Hin & Hno & ->).
    rewrite (Hjoin _ _ Hin) in Hp.
    apply elem_of_ReadDir in Hin as [_ Hf].
    assert (default false (allowedAfter (Components d) ∅ !! name) = true) as Hyes.
    { apply allowedAfter_lookup. left. by apply Hq. }
    congruence. }
  split; [done |]. split; [| split].
  - intros name q Hf Hnot Hp.
    apply (RemoveAll_fold_under _ _ (deployDir ++ [name])); [| done].
    apply elem_of_purgeTargets. exists name.
    assert ((name, NDir) ∈ ReadDir (fs w) deployDir) as Hin
      by by apply elem_of_ReadDir.
    split; [done |]. split; [| by rewrite (Hjoin _ _ Hin)].
    destruct (default false _) eqn:Ha; [| done].
    apply allowedAfter_lookup in Ha as [Ha|Ha]; [done |].
    by rewrite lookup_empty in Ha.
  - exact Hkeep.
  - intros name q Hn Hp. apply Hkeep. intros name' Hp' _.
    destruct Hp as [k ->]. destruct Hp' as [k' Hk].
    rewrite <- !app_assoc in Hk. apply app_inv_head in Hk. by simplify_eq/=.
Qed.

Lemma C6_purge_removes_only_stale_witness :
  forallb (upToDate Sample.deployDir ScenarioSettled.world0)
    [ScenarioSettled.compA; ScenarioSettled.compB] = true
  ∧ fs (reconcileDeployments ScenarioSettled.env0 Sample.registry Sample.deployDir
          ScenarioSettled.world0).2 !! ["deploy"; "C"; "docker-compose.yaml"] = None.
Proof.
  split; [reflexivity |].
  eapply (C6_purge_removes_only_stale ScenarioSettled.env0 Sample.registry
            Sample.deployDir ScenarioSettled.world0).
  - vm_compute. reflexivity.
  - reflexivity.
  - reflexivity.
  - vm_compute. reflexivity.
  - instantiate (1 := "C"). reflexivity.
  - vm_compute. intros H. by repeat (apply elem_of_cons in H as [H|H]; [done |]);
      apply elem_of_nil in H.
  - by exists ["docker-compose.yaml"].
Defined.

(** ** Extraction *)








(** ** Entry names that leave the destination *)

Lemma Join_escape (parent : Path) (d : string) :
  Join (parent ++ [d]) "x/../../evil" = parent ++ ["evil"].
Proof.
  unfold Join. change (Split "x/../../evil" "/") with ["x"; ".."; ".."; "evil"].
  rewrite rev_app_distr. cbn. by rewrite rev_involutive.
Qed.

(** C8. [unpackTgz] joins the destination with the entry name as it is: for
    a destination [parent/d] in an existing directory [parent], the regular
    file entry named "x/../../evil" has the target [parent/evil], which is
    not at or below the destination, and extraction, with or without the
    skip-hidden flag, returns nil having written the entry's bytes there. *)
Theorem C8_entry_escapes_destination (E : Env) (src : string) (parent : Path)
    (d body : string) (skipHidden : bool) (w : World) :
  gunzipTar E src = inr (Sample.archive [Sample.file "x/../../evil" body]) →
  node_at (fs w) parent = Some NDir →
  fs w !! (parent ++ ["evil"]) = None →
  d ≠ "evil" →
  Join (parent ++ [d]) "x/../../evil" = parent ++ ["evil"]
  ∧ ¬ (parent ++ [d]) `prefix_of` (parent ++ ["evil"])
  ∧ (unpackTgz E src (parent ++ [d]) skipHidden w).1 = Ok tt
  ∧ fs (unpackTgz E src (parent ++ [d]) skipHidden w).2 !! (parent ++ ["evil"])
      = Some (NFile body).
Proof.
  intros Hs Hdir Hfree Hd. split; [apply Join_escape |]. split.
  { intros [k Hk]. rewrite <- app_assoc in Hk. apply app_inv_head in Hk.
    simplify_eq/=. }
  unfold unpackTgz. erewrite bind_Ok by (unfold attempt; rewrite Hs; reflexivity).
  simpl. unfold unpackEntry. simpl. rewrite andb_false_r.
  rewrite Join_escape. unfold_go. simpl.
  unfold writeAt, Dir. rewrite removelast_last, Hdir, Hfree.
  destruct (parent ++ ["evil"]) eqn:Hp; [by destruct parent |].
  simpl. rewrite <- Hp. by rewrite lookup_insert_eq.
Qed.

Lemma C8_entry_escapes_destination_witness :
  ¬ ["srv"; "dest"] `prefix_of` ["srv"; "evil"]
  ∧ fs (unpackTgz ScenarioEscape.env0 "EVIL" ["srv"; "dest"] true
          ScenarioEscape.world0).2 !! ["srv"; "evil"] = Some (NFile "payload").
Proof.
  destruct (C8_entry_escapes_destination ScenarioEscape.env0 "EVIL" ["srv"] "dest"
              "payload" true ScenarioEscape.world0 eq_refl eq_refl eq_refl
              ltac:(discriminate)) as (_ & H1 & _ & H2).
  split; [exact H1 | exact H2].
Defined.

(** ** The stored digest and the deployment directory (lines 272-294) *)

Lemma WriteFile_missing_dir (f : FS) (dir : Path) (name data : string) :
  node_at f dir = None → WriteFile f (dir ++ [name]) data = inl ENOENT.
Proof.
  intros H. unfold WriteFile, writeAt, Dir. rewrite removelast_last, H.
  by destruct (dir ++ [name]) eqn:Hp; [destruct dir |].
Qed.

(** The digest file written at line 272 does not outlive the removal of the
    deployment directory at line 282. *)
Lemma RemoveAll_hashFile (f : FS) (destDir : Path) :
  RemoveAll f destDir !! Join destDir ".hash" = None.
Proof. rewrite Join_hash. apply RemoveAll_under. by exists [".hash"]. Qed.

Section Apply.
Variable E : Env.

(** A component whose deployment directory does not exist when its package
  has been verified is not applied: writing the digest file fails. *)
Lemma reconcileComponent_missing_dir deployDir c st tempDir w1 key w2 pkg w3 w4
    app rest w5 :
  stale deployDir (world st) c = true →
  MkdirTemp E (CName c) (emit (Logged (LogFetching (CName c))) (world st))
    = (Ok tempDir, w1) →
  downloadFromOCI E (KeyLocation c) w1 = (Ok key, w2) →
  downloadFromOCI E (PackageLocation c) w2 = (Ok pkg, w3) →
  unpackTgz E pkg tempDir true w3 = (Ok tt, w4) →
  findAppFiles w4 tempDir = (app :: rest, None) →
  verifyGPGSignature E key app (addExt app ".sig") w4 = (Ok tt, w5) →
  node_at (fs w5) (destDirOf deployDir c) = None →
  reconcileComponent E deployDir c st =
    (Fail ENOENT,
     mkFrame w5 (<[CName c := true]> (allowedDeployments st)) (tempDir :: deferred st)).
Proof.
  intros Hst Htmp Hkey Hpkg Hun Hfind Hver Hdir.
  unfold stale, digestOf, hashFileOf, destDirOf in *.
  unfold reconcileComponent.
  erewrite bind_Ok by reflexivity. cbv zeta.
  destruct (Split (PackageLocation c) "sha256:" !! 1) as [h|]; [| done].
  erewrite bind_Ok by reflexivity. unfold fileExists, exists_at. cbn [world].
  assert (applyComponent E c (Join deployDir (CName c))
            (Join (Join deployDir (CName c)) ".hash") h
            (mkFrame (world st) (<[CName c := true]> (allowedDeployments st)) (deferred st))
          = (Fail ENOENT,
             mkFrame w5 (<[CName c := true]> (allowedDeployments st))
               (tempDir :: deferred st))) as Happly.
  { unfold applyComponent.
    erewrite bind_Ok by (apply liftW_run; reflexivity).
    erewrite bind_Ok by (apply liftW_run; exact Htmp).
    erewrite bind_Ok by reflexivity.
    erewrite bind_Ok by (apply liftW_run; exact Hkey).
    erewrite bind_Ok by (apply liftW_run; exact Hpkg).
    erewrite bind_Ok by (apply liftW_run; exact Hun).
    erewrite bind_Ok by reflexivity.
    cbn [world]. rewrite Hfind.
    erewrite bind_Ok by reflexivity.
    erewrite bind_Ok by (apply liftW_run; exact Hver).
    erewrite bind_Fail; [reflexivity |].
    apply liftW_run. cbn [world].
    erewrite bind_Ok by reflexivity.
    rewrite Join_hash, (WriteFile_missing_dir _ _ _ _ Hdir). reflexivity. }
  destruct (node_at (fs (world st)) _) as [[|a]|] eqn:Hn; [done | | exact Happly].
  unfold ReadFile. rewrite Hn.
  erewrite bind_Ok by reflexivity.
  destruct (String.eqb a h); [done | exact Happly].
Qed.

End Apply.

(** ** A package that is rejected (lines 268-270) *)

Section Rejected.
Variable E : Env.

Lemma verifyGPGSignature_fs pubKey signedFile signatureFile w :
  fs (verifyGPGSignature E pubKey signedFile signatureFile w).2 = fs w.
Proof.
  unfold verifyGPGSignature. unfold_go. simpl.
  destruct (readArmoredKeyRing E pubKey) as [e|keyring]; simpl; [done |].
  destruct (Open (fs w) signatureFile) as [e|[|signature]]; simpl; [done | |].
  all: destruct (Open (fs w) signedFile) as [e|[|signed]]; simpl; try done.
  destruct (checkDetachedSignature E keyring signed signature); done.
Qed.

(** When the signature does not verify, the turn of the component returns
  the error with the files as extraction into the scratch directory left
  them: lines 272-313 are not reached. *)
Lemma reconcileComponent_rejected deployDir c st tempDir w1 key w2 pkg w3 w4
    app rest e w5 :
  stale deployDir (world st) c = true →
  MkdirTemp E (CName c) (emit (Logged (LogFetching (CName c))) (world st))
    = (Ok tempDir, w1) →
  downloadFromOCI E (KeyLocation c) w1 = (Ok key, w2) →
  downloadFromOCI E (PackageLocation c) w2 = (Ok pkg, w3) →
  unpackTgz E pkg tempDir true w3 = (Ok tt, w4) →
  findAppFiles w4 tempDir = (app :: rest, None) →
  verifyGPGSignature E key app (addExt app ".sig") w4 = (Fail e, w5) →
  reconcileComponent E deployDir c st =
    (Fail e,
     mkFrame w5 (<[CName c := true]> (allowedDeployments st)) (tempDir :: deferred st))
  ∧ fs w5 = fs w4.
Proof.
  intros Hst Htmp Hkey Hpkg Hun Hfind Hver.
  split; [| by rewrite <- (verifyGPGSignature_fs key app (addExt app ".sig") w4), Hver].
  unfold stale, digestOf, hashFileOf, destDirOf in *.
  unfold reconcileComponent.
  erewrite bind_Ok by reflexivity. cbv zeta.
  destruct (Split (PackageLocation c) "sha256:" !! 1) as [h|]; [| done].
  erewrite bind_Ok by reflexivity. unfold fileExists, exists_at. cbn [world].
  assert (applyComponent E c (Join deployDir (CName c))
            (Join (Join deployDir (CName c)) ".hash") h
            (mkFrame (world st) (<[CName c := true]> (allowedDeployments st)) (deferred st))
          = (Fail e,
             mkFrame w5 (<[CName c := true]> (allowedDeployments st))
               (tempDir :: deferred st))) as Happly.
  { unfold applyComponent.
    erewrite bind_Ok by (apply liftW_run; reflexivity).
    erewrite bind_Ok by (apply liftW_run; exact Htmp).
    erewrite bind_Ok by reflexivity.
    erewrite bind_Ok by (apply liftW_run; exact Hkey).
    erewrite bind_Ok by (apply liftW_run; exact Hpkg).
    erewrite bind_Ok by (apply liftW_run; exact Hun).
    erewrite bind_Ok by reflexivity.
    cbn [world]. rewrite Hfind.
    erewrite bind_Ok by reflexivity.
    erewrite bind_Fail; [reflexivity |].
    apply liftW_run. exact Hver. }
  destruct (node_at (fs (world st)) _) as [[|a]|] eqn:Hn; [done | | exact Happly].
  unfold ReadFile. rewrite Hn.
  erewrite bind_Ok by reflexivity.
  destruct (String.eqb a h); [done | exact Happly].
Qed.

End Rejected.

(** ** What extraction can touch *)

Lemma mkdirFrom_frame (rest : list string) (cur : Path) (f : FS) (q : Path) :
  ¬ q `prefix_of` (cur ++ rest) → (mkdirFrom f cur rest).1 !! q = f !! q.
Proof.
  revert cur f. induction rest as [|s rest IH]; intros cur f Hq; simpl; [done |].
  assert (¬ q `prefix_of` ((cur ++ [s]) ++ rest)) as Hq' by by rewrite <- app_assoc.
  destruct (f !! (cur ++ [s])) as [[|content]|] eqn:Hc; [by apply IH | done |].
  rewrite IH by done. apply lookup_insert_ne.
  intros <-. apply Hq. exists rest. by rewrite <- app_assoc.
Qed.

Lemma writeAt_frame (trunc : bool) (f f' : FS) (p q : Path) (data : string) :
  writeAt trunc f p data = inr f' → q ≠ p → f' !! q = f !! q.
Proof.
  unfold writeAt. intros H Hq.
  destruct p as [|x p]; [done |].
  destruct (node_at f (Dir (x :: p))) as [[|?]|]; [| done | done].
  destruct (f !! (x :: p)) as [[|old]|]; simplify_eq/=; by rewrite lookup_insert_ne.
Qed.

(** an entry changes nothing but its target and the directories above it *)
Lemma unpackEntry_frame dest skipHidden e w q :
  ¬ q `prefix_of` Join dest (Name (header e)) →
  fs (unpackEntry dest skipHidden e w).2 !! q = fs w !! q.
Proof.
  intros Hq. unfold unpackEntry.
  destruct (skipHidden && HasPrefix _ "."); [done |].
  destruct (Ascii.eqb _ TypeDir).
  { unfold_go. simpl.
    pose proof (mkdirFrom_frame (Join dest (Name (header e))) [] (fs w) q Hq) as Hm.
    unfold MkdirAll. destruct (mkdirFrom (fs w) [] _) as [f [err|]]; done. }
  destruct (Ascii.eqb _ TypeReg); [| done].
  unfold_go. simpl.
  destruct (writeAt false (fs w) _ _) as [err|f] eqn:Hw; simpl; [done |].
  assert (f !! q = fs w !! q) as Hf.
  { eapply writeAt_frame; [exact Hw |]. intros ->. by apply Hq. }
  destruct (bodyErr e); done.
Qed.

Lemma unpackEntries_frame dest skipHidden es last w q :
  (∀ e, e ∈ es → ¬ q `prefix_of` Join dest (Name (header e))) →
  fs (unpackEntries dest skipHidden es last w).2 !! q = fs w !! q.
Proof.
  revert w. induction es as [|e es IH]; intros w H; simpl.
  - unfold_go. destruct last; done.
  - pose proof (unpackEntry_frame dest skipHidden e w q (H e ltac:(by left))) as He.
    destruct (unpackEntry dest skipHidden e w) as [[[]|err|p] w2] eqn:Hrun.
    + erewrite bind_Ok by exact Hrun. rewrite IH; [done |].
      intros e' He'. apply H. by right.
    + erewrite bind_Fail by exact Hrun. done.
    + erewrite bind_Crash by exact Hrun. done.
Qed.

Section Fetch.
Variable E : Env.

Lemma downloadFromOCI_fs url w :
  fs (downloadFromOCI E url w).2 = fs w.
Proof.
  unfold downloadFromOCI. unfold_go. simpl.
  destruct (matchBlobURL url) as [[[owner repo] sha256]|]; [| done].
  simpl. destruct (refNew E _); simpl; [done |].
  destruct (blobGet E _ _ _); done.
Qed.

Lemma MkdirTemp_frame pattern w q :
  (∀ name, q ≠ TempDir E ++ [name]) →
  fs (MkdirTemp E pattern w).2 !! q = fs w !! q.
Proof.
  intros Hq. unfold MkdirTemp.
  destruct (hasSeparator pattern); [done |].
  unfold_go. simpl.
  destruct (default (pattern, "") (cutAtLastStar pattern)) as [pre suf].
  destruct (Mkdir (fs w) _) as [err|f] eqn:Hm; simpl; [done |].
  unfold Mkdir in Hm.
  destruct (TempDir E ++ _) as [|x p] eqn:Hp; [done |].
  destruct (node_at (fs w) (Dir (x :: p))) as [[|?]|]; [| done | done].
  destruct (fs w !! (x :: p)); simplify_eq/=.
  apply lookup_insert_ne. rewrite <- Hp. intros Heq. by eapply Hq.
Qed.

(** Where the rejection holds: when no entry of the rejected package has
    its target at or below the deployment directory of the component, and
    the scratch directory is not the deployment directory or one above it,
    the turn of the component leaves everything at or below the deployment
    directory, the stored digest file included, as it was. *)
Lemma reconcileComponent_rejected_frame deployDir c st tempDir w1 key w2 pkg s w3 w4
    app rest e w5 :
  stale deployDir (world st) c = true →
  MkdirTemp E (CName c) (emit (Logged (LogFetching (CName c))) (world st))
    = (Ok tempDir, w1) →
  downloadFromOCI E (KeyLocation c) w1 = (Ok key, w2) →
  downloadFromOCI E (PackageLocation c) w2 = (Ok pkg, w3) →
  gunzipTar E pkg = inr s →
  unpackTgz E pkg tempDir true w3 = (Ok tt, w4) →
  findAppFiles w4 tempDir = (app :: rest, None) →
  verifyGPGSignature E key app (addExt app ".sig") w4 = (Fail e, w5) →
  (∀ name, ¬ destDirOf deployDir c `prefix_of` (TempDir E ++ [name])) →
  (∀ x, x ∈ entries s →
        ¬ destDirOf deployDir c `prefix_of` Join tempDir (Name (header x))) →
  (reconcileComponent E deployDir c st).1 = Fail e
  ∧ ∀ q, destDirOf deployDir c `prefix_of` q →
         fs (world (reconcileComponent E deployDir c st).2) !! q = fs (world st) !! q.
Proof.
  intros Hst Htmp Hkey Hpkg Hs Hun Hfind Hver Hscratch Hentries.
  destruct (reconcileComponent_rejected E deployDir c st tempDir w1 key w2 pkg w3 w4
              app rest e w5 Hst Htmp Hkey Hpkg Hun Hfind Hver) as [Hrun Hfs].
  rewrite Hrun. split; [done |]. intros q Hq. simpl. rewrite Hfs.
  assert (fs w4 !! q = fs w3 !! q) as ->.
  { replace w4 with (unpackTgz E pkg tempDir true w3).2 by by rewrite Hun.
    unfold unpackTgz. erewrite bind_Ok by (unfold attempt; rewrite Hs; reflexivity).
    apply unpackEntries_frame. intros x Hx Hp. apply (Hentries x Hx).
    by etrans. }
  replace (fs w3) with (fs w2)
    by by rewrite <- (downloadFromOCI_fs (PackageLocation c) w2), Hpkg.
  replace (fs w2) with (fs w1)
    by by rewrite <- (downloadFromOCI_fs (KeyLocation c) w1), Hkey.
  replace w1 with (MkdirTemp E (CName c)
                     (emit (Logged (LogFetching (CName c))) (world st))).2
    by by rewrite Htmp.
  rewrite MkdirTemp_frame; [done |].
  intros name ->. by apply (Hscratch name).
Qed.

End Fetch.

(** C2, on the code. With [A] up to date and no directory for [B], the pass
    ensures [A] is running, fetches and verifies the package of [B], and
    then returns the error of writing [deploy/B/.hash] into a directory that
    does not exist: [B] is not deployed and not started.  (The directory is
    only created, at line 291, after the digest file is written, at
    line 272.) *)
Theorem C2_fresh_component_not_deployed :
  let r := reconcileDeployments ScenarioFresh.env0 Sample.registry Sample.deployDir
             ScenarioFresh.world0 in
  upToDate Sample.deployDir ScenarioFresh.world0 ScenarioFresh.compA = true
  ∧ fs ScenarioFresh.world0 !! ["deploy"; "B"] = None
  ∧ r.1 = Fail ENOENT
  ∧ ensuredRunning ["deploy"; "A"] (trace r.2) = true
  ∧ verified (trace r.2) = true
  ∧ fs r.2 !! ["deploy"; "B"] = None
  ∧ fs r.2 !! ["deploy"; "B"; ".hash"] = None
  ∧ ensuredRunning ["deploy"; "B"] (trace r.2) = false.
Proof. vm_compute. repeat split. Qed.

(** C3, on the code. A package whose signature does not verify is extracted
    into the scratch directory before the check, and [unpackTgz] follows
    entry names out of it: after the pass has returned the verification
    error, the digest file of the component holds the digest of the rejected
    package and its orchestration descriptor has the content the package
    brought, so that the next pass finds the component up to date. *)
Theorem C3_rejected_package_changes_deployment :
  let r := reconcileDeployments ScenarioForged.env0 Sample.registry Sample.deployDir
             ScenarioForged.world0 in
  fs ScenarioForged.world0 !! ["deploy"; "A"; ".hash"] = Some (NFile "11")
  ∧ fs ScenarioForged.world0 !! ["deploy"; "A"; "docker-compose.yaml"]
      = Some (NFile "services: {}")
  ∧ r.1 = Fail (ErrVerify "signature verification failed")
  ∧ verified (trace r.2) = false
  ∧ fs r.2 !! ["deploy"; "A"; ".hash"] = Some (NFile "aa")
  ∧ fs r.2 !! ["deploy"; "A"; "docker-compose.yaml"] = Some (NFile "services: {evil}")
  ∧ upToDate Sample.deployDir r.2 ScenarioForged.compA = true.
Proof. vm_compute. repeat split. Qed.

(** C5, on the code. Re-applying a component whose directory declares an
    orchestration descriptor succeeds and leaves no digest file: the file
    written at line 272 is removed with the old directory at line 282 and
    not written again, so the component is stale again after the pass. *)
Theorem C5_reapply_loses_digest :
  let r := reconcileDeployments ScenarioReapply.env0 Sample.registry Sample.deployDir
             ScenarioReapply.world0 in
  digestOf ScenarioReapply.compA = Some "aa"
  ∧ fs ScenarioReapply.world0 !! ["deploy"; "A"; "docker-compose.yaml"]
      = Some (NFile "services: {old}")
  ∧ r.1 = Ok tt
  ∧ verified (trace r.2) = true
  ∧ fs r.2 !! ["deploy"; "A"; "docker-compose.yaml"] = Some (NFile "services: {}")
  ∧ fs r.2 !! ["deploy"; "A"; ".hash"] = None
  ∧ stale Sample.deployDir r.2 ScenarioReapply.compA = true.
Proof. vm_compute. repeat split. Qed.

(** * Further properties of the code *)

(** ** Computations and the relations they respect *)

Lemma respects_ret {S A} (R : S → S → Prop) `{!PreOrder R} (a : A) : respects R (mret a : M S A).
Proof. intros s. reflexivity. Qed.

Lemma respects_fail {S A} (R : S → S → Prop) `{!PreOrder R} (e : error) : respects R (fail e : M S A).
Proof. intros s. reflexivity. Qed.

Lemma respects_crash {S A} (R : S → S → Prop) `{!PreOrder R} (p : panic) : respects R (crash p : M S A).
Proof. intros s. reflexivity. Qed.

Lemma respects_get {S} (R : S → S → Prop) `{!PreOrder R} : respects R (get : M S S).
Proof. intros s. reflexivity. Qed.

Lemma respects_attempt {S A} (R : S → S → Prop) `{!PreOrder R} (r : error + A) : respects R (attempt r : M S A).
Proof. intros s. destruct r; reflexivity. Qed.

Lemma respects_check {S} (R : S → S → Prop) `{!PreOrder R} (r : option error) : respects R (check r : M S unit).
Proof. intros s. destruct r; reflexivity. Qed.

Lemma respects_modify {S} (R : S → S → Prop) `{!PreOrder R} (f : S → S) : (∀ s, R s (f s)) → respects R (modify f).
Proof. intros H s. apply H. Qed.

Lemma respects_bind {S A B} (R : S → S → Prop) `{!PreOrder R} (m : M S A) (k : A → M S B) :
  respects R m → (∀ a, respects R (k a)) → respects R (m ≫= k).
Proof.
  intros Hm Hk s. specialize (Hm s). unfold mbind, M_bind, bind.
  destruct (m s) as [[a|e|p] s1]; simpl in *; [| done | done].
  etrans; [exact Hm | apply Hk].
Qed.

Lemma respects_catch {S} (R : S → S → Prop) `{!PreOrder R} (m : M S unit) (h : error → M S unit) :
  respects R m → (∀ e, respects R (h e)) → respects R (catch m h).
Proof.
  intros Hm Hh s. specialize (Hm s). unfold catch.
  destruct (m s) as [[a|e|p] s1]; simpl in *; [done | | done].
  etrans; [exact Hm | apply Hh].
Qed.


Lemma respects_liftW {A} (RW : World → World → Prop) (R : Frame → Frame → Prop)
    (m : M World A) :
  (∀ st w, RW (world st) w → R st (mkFrame w (allowedDeployments st) (deferred st))) →
  respects RW m → respects R (liftW m).
Proof.
  intros HR Hm st. specialize (Hm (world st)). unfold liftW.
  destruct (m (world st)) as [r w]. simpl in *. by apply HR.
Qed.

Lemma respects_weaken {S A} (R R' : S → S → Prop) (m : M S A) :
  (∀ s s', R s s' → R' s s') → respects R m → respects R' m.
Proof. intros H Hm s. apply H, Hm. Qed.

Global Instance sameAt_preorder q : PreOrder (sameAt q).
Proof.
  split; [intros w; reflexivity |].
  intros w1 w2 w3 H1 H2. unfold sameAt in *. congruence.
Qed.

Global Instance sameFS_preorder : PreOrder sameFS.
Proof.
  split; [intros w; reflexivity |].
  intros w1 w2 w3 H1 H2. unfold sameFS in *. congruence.
Qed.

Global Instance persists_preorder : PreOrder persists.
Proof.
  split.
  - intros w q n H. by exists n.
  - intros w1 w2 w3 H1 H2 q n Hq.
    destruct (H1 q n Hq) as (n2 & Hq2 & Hd2).
    destruct (H2 q n2 Hq2) as (n3 & Hq3 & Hd3).
    exists n3. split; [done | congruence].
Qed.

Lemma sameFS_sameAt q w w' : sameFS w w' → sameAt q w w'.
Proof. unfold sameFS, sameAt. by intros ->. Qed.

Lemma sameFS_persists w w' : sameFS w w' → persists w w'.
Proof. unfold sameFS. intros H q n Hq. exists n. by rewrite H. Qed.

(** ** Where extraction writes (lines 41-57) *)

Lemma cleanStep_grows (stack : list string) (seg : string) :
  String.eqb seg ".." = false → ∃ k, cleanStep stack seg = k ++ stack.
Proof.
  intros H. unfold cleanStep. rewrite H.
  destruct (String.eqb seg ""); [by exists [] |].
  destruct (String.eqb seg "."); [by exists [] |].
  by exists [seg].
Qed.

Lemma fold_cleanStep_grows (segs stack : list string) :
  forallb (λ seg, negb (String.eqb seg "..")) segs = true →
  ∃ k, fold_left cleanStep segs stack = k ++ stack.
Proof.
  revert stack. induction segs as [|seg segs IH]; intros stack H; simpl in *.
  - by exists [].
  - apply andb_true_iff in H as [Hs Hr]. apply negb_true_iff in Hs.
    destruct (cleanStep_grows stack seg Hs) as [k1 ->].
    destruct (IH (k1 ++ stack) Hr) as [k2 ->].
    exists (k2 ++ k1). by rewrite app_assoc.
Qed.

(** A name without [".."] components is joined to a path at or below the
    directory. *)
Lemma Join_under (dir : Path) (name : string) :
  noDotDot name = true → dir `prefix_of` Join dir name.
Proof.
  intros H. unfold Join.
  destruct (fold_cleanStep_grows (Split name "/") (rev dir) H) as [k ->].
  rewrite rev_app_distr, rev_involutive. by exists (rev k).
Qed.

Lemma unpackEntries_app dest skipHidden es1 es2 last w :
  unpackEntries dest skipHidden (es1 ++ es2) last w =
  match unpackEntries dest skipHidden es1 None w with
  | (Ok _, w1) => unpackEntries dest skipHidden es2 last w1
  | r => r
  end.
Proof.
  revert w. induction es1 as [|e es1 IH]; intros w; [done |].
  simpl. unfold mbind, M_bind, bind.
  destruct (unpackEntry dest skipHidden e w) as [[[]|err|p] w1]; [| done | done].
  apply IH.
Qed.

(** X1. Extraction of an archive none of whose entry names has a ".."
    component leaves every path alone that is neither at or below the
    destination directory nor one of the directories above it. *)
Theorem X1_extraction_confined (E : Env) (src : string) (s : TarStream)
    (dest : Path) (skipHidden : bool) (w : World) (q : Path) :
  gunzipTar E src = inr s →
  safeArchive s = true →
  ¬ dest `prefix_of` q →
  ¬ q `prefix_of` dest →
  fs (unpackTgz E src dest skipHidden w).2 !! q = fs w !! q.
Proof.
  intros Hs Hsafe Hq1 Hq2. unfold unpackTgz.
  erewrite bind_Ok by (unfold attempt; rewrite Hs; reflexivity).
  apply unpackEntries_frame. intros e He Hp.
  unfold safeArchive in Hsafe. rewrite forallb_forall in Hsafe.
  pose proof (Join_under dest _ (Hsafe e (proj1 (list_elem_of_In _ _) He))) as Hd.
  destruct (prefix_weak_total _ _ _ Hd Hp); done.
Qed.

Lemma X1_extraction_confined_witness :
  safeArchive ScenarioPartial.broken = true
  ∧ fs (unpackTgz ScenarioPartial.env0 "BROKEN" ["srv"; "app"] true
          ScenarioPartial.world0).2 !! ["srv"; "other"; "keep"] = Some (NFile "k").
Proof.
  split; [reflexivity |].
  rewrite (X1_extraction_confined ScenarioPartial.env0 "BROKEN" ScenarioPartial.broken
             ["srv"; "app"] true ScenarioPartial.world0 ["srv"; "other"; "keep"]
             eq_refl eq_refl).
  - reflexivity.
  - intros [k Hk]. simplify_eq/=.
  - intros [k Hk]. simplify_eq/=.
Defined.

(** ** What extraction keeps *)

Lemma mkdirFrom_keeps (rest : list string) (cur : Path) (f : FS) (q : Path) (n : Node) :
  f !! q = Some n → (mkdirFrom f cur rest).1 !! q = Some n.
Proof.
  revert cur f. induction rest as [|s rest IH]; intros cur f Hq; simpl; [done |].
  destruct (f !! (cur ++ [s])) as [[|content]|] eqn:Hc; [by apply IH | done |].
  apply IH. rewrite lookup_insert_ne; [done |]. intros <-. congruence.
Qed.

Lemma writeAt_keeps (trunc : bool) (f f' : FS) (p q : Path) (data : string) (n : Node) :
  writeAt trunc f p data = inr f' → f !! q = Some n →
  ∃ n', f' !! q = Some n' ∧ isDirNode n' = isDirNode n.
Proof.
  unfold writeAt. intros H Hq.
  destruct p as [|x p]; [done |].
  destruct (node_at f (Dir (x :: p))) as [[|?]|]; [| done | done].
  destruct (decide (q = x :: p)) as [->|Hne].
  - rewrite Hq in H. destruct n as [|old]; [done |]. simplify_eq/=.
    eexists. by rewrite lookup_insert_eq.
  - exists n. split; [| done].
    destruct (f !! (x :: p)) as [[|old]|]; simplify_eq/=; by rewrite lookup_insert_ne.
Qed.

Lemma unpackEntry_persists dest skipHidden e : respects persists (unpackEntry dest skipHidden e).
Proof.
  intros w. unfold unpackEntry.
  destruct (skipHidden && HasPrefix _ "."); [apply sameFS_persists; reflexivity |].
  destruct (Ascii.eqb _ TypeDir).
  { unfold_go. simpl. unfold MkdirAll.
    assert (∀ q n, fs w !! q = Some n →
                   (mkdirFrom (fs w) [] (Join dest (Name (header e)))).1 !! q = Some n)
      as Hk by (intros; by apply mkdirFrom_keeps).
    destruct (mkdirFrom (fs w) [] _) as [f [err|]]; simpl in *.
    all: intros q n Hq; exists n; split; [by apply Hk | done]. }
  destruct (Ascii.eqb _ TypeReg); [| apply sameFS_persists; reflexivity].
  unfold_go. simpl.
  destruct (writeAt false (fs w) _ _) as [err|f] eqn:Hw; simpl; [reflexivity |].
  assert (persists w (setFS w f)) as Hp.
  { intros q n Hq. simpl. by eapply writeAt_keeps. }
  destruct (bodyErr e); exact Hp.
Qed.

Lemma unpackEntries_respects (R : World → World → Prop) `{!PreOrder R}
    dest skipHidden es last :
  (∀ e, e ∈ es → respects R (unpackEntry dest skipHidden e)) →
  respects R (unpackEntries dest skipHidden es last).
Proof.
  induction es as [|e es IH]; intros H; simpl.
  - by apply respects_check.
  - apply respects_bind; [done | by apply H; left |].
    intros _. apply IH. intros e' He'. apply H. by right.
Qed.

Lemma unpackTgz_respects (E : Env) (R : World → World → Prop) `{!PreOrder R}
    src dest skipHidden :
  (∀ s e, gunzipTar E src = inr s → e ∈ entries s →
          respects R (unpackEntry dest skipHidden e)) →
  respects R (unpackTgz E src dest skipHidden).
Proof.
  intros H w. unfold unpackTgz, mbind, M_bind, bind, attempt.
  destruct (gunzipTar E src) as [err|s] eqn:Hs; simpl; [reflexivity |].
  apply (unpackEntries_respects R). intros e He. by apply (H s).
Qed.

(** X2. Extraction never removes anything: every path that is there before
    is there afterwards, a directory still a directory and a file still a
    file, whatever the archive holds and however extraction ends. *)
Theorem X2_extraction_removes_nothing (E : Env) (src : string) (dest : Path)
    (skipHidden : bool) (w : World) (q : Path) (n : Node) :
  fs w !! q = Some n →
  ∃ n', fs (unpackTgz E src dest skipHidden w).2 !! q = Some n'
        ∧ isDirNode n' = isDirNode n.
Proof.
  intros Hq.
  apply (unpackTgz_respects E persists src dest skipHidden); [| done].
  intros s e _ _. apply unpackEntry_persists.
Qed.

Lemma X2_extraction_removes_nothing_witness :
  ∃ n', fs (unpackTgz ScenarioPartial.env0 "BROKEN" ["srv"; "app"] true
              ScenarioPartial.world0).2 !! ["srv"; "app"; "motd"] = Some n'
        ∧ isDirNode n' = false.
Proof.
  apply (X2_extraction_removes_nothing ScenarioPartial.env0 "BROKEN" ["srv"; "app"]
           true ScenarioPartial.world0 ["srv"; "app"; "motd"] (NFile "welcome, all")).
  reflexivity.
Defined.

(** ** Files that are there already (line 49) *)

Lemma overwrite_nil_l (old : string) : overwrite "" old = old.
Proof.
  unfold overwrite. simpl. rewrite string_app_nil_l.
  apply string_of_list_ascii_of_string.
Qed.

Lemma overwrite_nil_r (data : string) : overwrite data "" = data.
Proof.
  unfold overwrite. simpl. rewrite drop_nil. simpl. apply string_app_nil_r.
Qed.

Lemma overwrite_cons (a b : ascii) (data old : string) :
  overwrite (String a data) (String b old) = String a (overwrite data old).
Proof. reflexivity. Qed.

(** bytes beyond the written ones stay *)
Lemma overwrite_tail (data pre tail : string) :
  String.length pre = String.length data →
  overwrite data (pre +:+ tail) = data +:+ tail.
Proof.
  revert pre. induction data as [|a data IH]; intros [|b pre] H; simplify_eq/=.
  - rewrite !string_app_nil_l. apply overwrite_nil_l.
  - rewrite !string_app_cons, overwrite_cons. f_equal. by apply IH.
Qed.

(** a file that is not longer than the written bytes is replaced *)
Lemma overwrite_short (data old : string) :
  (String.length old ≤ String.length data)%nat → overwrite data old = data.
Proof.
  revert old. induction data as [|a data IH]; intros [|b old] H; simpl in *.
  - done.
  - lia.
  - apply overwrite_nil_r.
  - rewrite overwrite_cons. f_equal. apply IH. lia.
Qed.

(** a regular-file entry that is not passed over: lines 48-57 *)
Lemma unpackEntry_reg (dest : Path) (skipHidden : bool) (e : TarEntry) (w : World) :
  skipHidden && hiddenEntry e = false →
  Typeflag (header e) = TypeReg →
  unpackEntry dest skipHidden e w =
    match writeAt false (fs w) (Join dest (Name (header e))) (body e) with
    | inl err => (Fail err, w)
    | inr f => (match bodyErr e with Some err => Fail err | None => Ok tt end,
                setFS w f)
    end.
Proof.
  intros Hh Ht. unfold unpackEntry. unfold hiddenEntry in Hh. rewrite Hh, Ht.
  change (Ascii.eqb TypeReg TypeDir) with false.
  change (Ascii.eqb TypeReg TypeReg) with true. cbv iota.
  unfold mbind, M_bind, bind, get, attempt, modify, check, fail, ret.
  destruct (writeAt false (fs w) _ _) as [err|f]; [done |].
  by destruct (bodyErr e).
Qed.

(** X3. A regular-file entry whose target is an existing file is written
    over it from the first byte without truncating it: a file that is not
    longer than the entry ends up with the entry's bytes, a longer one keeps
    its bytes beyond the length of the entry. *)
Theorem X3_extraction_does_not_truncate (dest : Path) (skipHidden : bool)
    (e : TarEntry) (w : World) (old : string) :
  skipHidden && hiddenEntry e = false →
  Typeflag (header e) = TypeReg →
  Join dest (Name (header e)) ≠ [] →
  node_at (fs w) (Dir (Join dest (Name (header e)))) = Some NDir →
  fs w !! Join dest (Name (header e)) = Some (NFile old) →
  ((String.length old ≤ String.length (body e))%nat →
     fs (unpackEntry dest skipHidden e w).2 !! Join dest (Name (header e))
       = Some (NFile (body e)))
  ∧ (∀ pre tail, old = pre +:+ tail → String.length pre = String.length (body e) →
     fs (unpackEntry dest skipHidden e w).2 !! Join dest (Name (header e))
       = Some (NFile (body e +:+ tail))).
Proof.
  intros Hh Ht Hne Hdir Hold. rewrite (unpackEntry_reg dest skipHidden e w Hh Ht).
  unfold writeAt.
  destruct (Join dest (Name (header e))) as [|x p] eqn:Hj; [done |].
  rewrite Hdir, Hold. cbn [snd fs setFS]. rewrite lookup_insert_eq.
  split.
  - intros Hlen. by rewrite overwrite_short.
  - intros pre tail -> Hlen. by rewrite overwrite_tail.
Qed.

Lemma X3_extraction_does_not_truncate_witness :
  fs (unpackEntry ["srv"; "app"] true (Sample.file "motd" "hello")
        ScenarioPartial.world0).2 !! ["srv"; "app"; "motd"]
    = Some (NFile "hellome, all").
Proof.
  destruct (X3_extraction_does_not_truncate ["srv"; "app"] true
              (Sample.file "motd" "hello") ScenarioPartial.world0 "welcome, all"
              eq_refl eq_refl ltac:(discriminate) eq_refl eq_refl) as (_ & H).
  exact (H "welco" "me, all" eq_refl eq_refl).
Defined.

(** ** Extraction that fails (the [return err] statements of lines 33-57) *)

(** X4. Extraction stops at the first entry that fails and returns its
    error: what the entries before it wrote stays written (nothing is rolled
    back) and the entries after it are not extracted. *)
Theorem X4_extraction_stops_at_first_failure (E : Env) (src : string) (dest : Path)
    (skipHidden : bool) (es1 es2 : list TarEntry) (e : TarEntry)
    (last : option error) (w w1 : World) (err : error) :
  gunzipTar E src = inr (mkStream (es1 ++ e :: es2) last) →
  unpackEntries dest skipHidden es1 None w = (Ok tt, w1) →
  (unpackEntry dest skipHidden e w1).1 = Fail err →
  unpackTgz E src dest skipHidden w = (Fail err, (unpackEntry dest skipHidden e w1).2).
Proof.
  intros Hs H1 He. unfold unpackTgz.
  erewrite bind_Ok by (unfold attempt; rewrite Hs; reflexivity).
  cbn [entries streamErr]. rewrite unpackEntries_app, H1. cbn [unpackEntries].
  destruct (unpackEntry dest skipHidden e w1) as [r w2] eqn:Hrun. simpl in He. subst r.
  by erewrite bind_Fail by exact Hrun.
Qed.

Lemma X4_extraction_stops_at_first_failure_witness :
  (unpackTgz ScenarioPartial.env0 "BROKEN" ["srv"; "app"] true
     ScenarioPartial.world0).1 = Fail ENOENT
  ∧ fs (unpackTgz ScenarioPartial.env0 "BROKEN" ["srv"; "app"] true
          ScenarioPartial.world0).2 !! ["srv"; "app"; "conf"; "a.yaml"]
      = Some (NFile "a: 1")
  ∧ fs (unpackTgz ScenarioPartial.env0 "BROKEN" ["srv"; "app"] true
          ScenarioPartial.world0).2 !! ["srv"; "app"; "conf"; "c.yaml"] = None.
Proof.
  rewrite (X4_extraction_stops_at_first_failure ScenarioPartial.env0 "BROKEN"
             ["srv"; "app"] true
             [Sample.dir "conf"; Sample.file "conf/a.yaml" "a: 1"]
             [Sample.file "conf/c.yaml" "c: 3"]
             (Sample.file "data/b.bin" "B") None ScenarioPartial.world0
             (unpackEntries ["srv"; "app"] true
                [Sample.dir "conf"; Sample.file "conf/a.yaml" "a: 1"] None
                ScenarioPartial.world0).2
             ENOENT eq_refl).
  - vm_compute. done.
  - vm_compute. reflexivity.
  - vm_compute. reflexivity.
Defined.



(** ** The order of a walk and the descriptor that is picked (lines 65-77, 266) *)

Lemma compare_Lt_le (a b : string) :
  String.compare a b = Lt → String.le a b ∧ a ≠ b.
Proof.
  intros H. split.
  - unfold String.le, String.leb. by rewrite H.
  - intros ->. pose proof (String.compare_antisym b b) as Hb.
    rewrite H in Hb. discriminate Hb.
Qed.

Lemma le_compare_Lt (a b : string) :
  String.le a b → a ≠ b → String.compare a b = Lt.
Proof.
  unfold String.le, String.leb. intros H Hne.
  destruct (String.compare a b) eqn:Hc; [| done | done].
  by apply String.compare_eq_iff in Hc.
Qed.

Lemma compare_Lt_trans (a b c : string) :
  String.compare a b = Lt → String.compare b c = Lt → String.compare a c = Lt.
Proof.
  intros [Hab Hne1]%compare_Lt_le [Hbc Hne2]%compare_Lt_le.
  apply le_compare_Lt; [by etrans |].
  intros ->. apply Hne1. by apply (anti_symm String.le).
Qed.

Lemma path_leb_total (p q : Path) : path_leb p q = true ∨ path_leb q p = true.
Proof.
  revert q. induction p as [|a p IH]; intros [|b q]; simpl; auto.
  rewrite (String.compare_antisym a b).
  destruct (String.compare b a) eqn:Hc; simpl; auto.
Qed.

Lemma path_leb_trans (p q r : Path) :
  path_leb p q = true → path_leb q r = true → path_leb p r = true.
Proof.
  revert q r. induction p as [|a p IH]; intros [|b q] [|c r]; simpl; try done.
  destruct (String.compare a b) eqn:Hab; [| | done].
  - apply String.compare_eq_iff in Hab as ->.
    destruct (String.compare b c); [apply IH | done | done].
  - destruct (String.compare b c) eqn:Hbc; [| | done].
    + apply String.compare_eq_iff in Hbc as <-. by rewrite Hab.
    + by rewrite (compare_Lt_trans a b c).
Qed.

Global Instance by_path_total : Total by_path.
Proof. intros a b. apply path_leb_total. Qed.

Global Instance by_path_trans : Transitive by_path.
Proof. intros a b c. apply path_leb_trans. Qed.

Lemma tree_sorted (f : FS) (root : Path) : StronglySorted by_path (tree f root).
Proof. apply StronglySorted_merge_sort; apply _. Qed.

Lemma tree_NoDup (f : FS) (root : Path) : NoDup ((tree f root).*1).
Proof.
  unfold tree. rewrite merge_sort_Permutation. apply NoDup_fst_map_to_list.
Qed.

Lemma filter_sorted_fst (g : Path * Node → bool) (l : list (Path * Node)) :
  StronglySorted by_path l →
  StronglySorted (λ p q, path_leb p q = true) ((List.filter g l).*1).
Proof.
  induction 1 as [|a l Hl IH Hall]; simpl; [constructor |].
  destruct (g a); simpl; [| done].
  constructor; [done |].
  apply Forall_forall. intros p Hp.
  apply list_elem_of_fmap in Hp as (b & -> & Hb).
  apply list_elem_of_In, filter_In in Hb as [Hb _].
  rewrite Forall_forall in Hall. by apply Hall, list_elem_of_In.
Qed.

Lemma filter_NoDup_fst (g : Path * Node → bool) (l : list (Path * Node)) :
  NoDup (l.*1) → NoDup ((List.filter g l).*1).
Proof.
  induction l as [|a l IH]; simpl; [done |].
  intros [Hna Hl]%NoDup_cons. destruct (g a); simpl; [| by apply IH].
  apply NoDup_cons. split; [| by apply IH].
  intros Hin. apply Hna.
  apply list_elem_of_fmap in Hin as (b & Hb & Hin).
  apply list_elem_of_In, filter_In in Hin as [Hin _].
  apply list_elem_of_fmap. exists b. split; [done | by apply list_elem_of_In].
Qed.

(** X6. When the walk of [findAppFiles] goes through, the list it returns
    holds exactly the regular files at or below the directory whose name
    ends in ".app", each once and in the order of the walk; so the
    descriptor the agent picks, element 0, comes before every other one in
    that order. *)
Theorem X6_findAppFiles_finds_all_in_order (w : World) (dir : Path)
    (apps : list Path) :
  findAppFiles w dir = (apps, None) →
  (∀ p, p ∈ apps ↔ dir `prefix_of` p ∧ appFileAt w p)
  ∧ NoDup apps
  ∧ StronglySorted (λ p q, path_leb p q = true) apps
  ∧ (∀ app rest p, apps = app :: rest → p ∈ rest → path_leb app p = true).
Proof.
  unfold findAppFiles, Walk.
  destruct (node_at (fs w) dir) as [n0|]; [| done].
  intros [= <-].
  assert (StronglySorted (λ p q, path_leb p q = true)
            ((List.filter isAppFile (tree (fs w) dir)).*1)) as Hsorted
    by apply filter_sorted_fst, tree_sorted.
  split_and!.
  - intros p. rewrite list_elem_of_fmap. split.
    + intros ([p' n] & -> & Hin).
      apply list_elem_of_In, filter_In in Hin as [Hin Happ].
      apply list_elem_of_In, elem_of_tree in Hin as [Hf Hp].
      split; [done |]. unfold isAppFile in Happ. simpl in *.
      destruct n as [|content]; [done |]. by exists content.
    + intros [Hp (content & Hf & Hs)]. exists (p, NFile content). split; [done |].
      apply list_elem_of_In, filter_In. split.
      * apply list_elem_of_In, elem_of_tree. done.
      * unfold isAppFile. simpl. by rewrite Hs.
  - apply filter_NoDup_fst, tree_NoDup.
  - exact Hsorted.
  - intros app rest p Heq Hp. rewrite Heq in Hsorted.
    apply StronglySorted_inv in Hsorted as [_ Hall].
    rewrite Forall_forall in Hall. by apply Hall.
Qed.

Lemma X6_findAppFiles_finds_all_in_order_witness :
  path_leb ["pkg"; "a"; "z.app"] ["pkg"; "b.app"] = true.
Proof.
  destruct (X6_findAppFiles_finds_all_in_order ScenarioWalk.world0 ["pkg"]
              [["pkg"; "a"; "z.app"]; ["pkg"; "b.app"]]
              ltac:(vm_compute; reflexivity)) as (_ & _ & _ & H).
  apply (H _ _ _ eq_refl). by left.
Defined.

(** ** The locations [downloadFromOCI] accepts (lines 182-191) *)

Lemma stripPrefix_Some (p s r : string) : stripPrefix p s = Some r ↔ s = p +:+ r.
Proof.
  revert s. induction p as [|a p IH]; intros s.
  - rewrite string_app_nil_l. simpl. split; congruence.
  - rewrite string_app_cons. destruct s as [|b s]; simpl; [done |].
    destruct (Ascii.eqb_spec a b) as [->|Hne].
    + rewrite IH. split; congruence.
    + split; [done | congruence].
Qed.

Lemma Contains_slash_cons (c : ascii) (s : string) :
  Contains (String c s) "/" = Ascii.eqb "/" c || Contains s "/".
Proof. cbn [Contains HasPrefix]. by destruct (Ascii.eqb "/" c). Qed.

Lemma spanNoSlash_spec (s a b : string) :
  spanNoSlash s = (a, b) →
  s = a +:+ b ∧ Contains a "/" = false ∧ (b = "" ∨ ∃ b', b = "/" +:+ b').
Proof.
  revert a b. induction s as [|c s IH]; intros a b; simpl.
  - intros [= <- <-]. auto.
  - destruct (Ascii.eqb_spec c "/") as [->|Hne].
    + intros [= <- <-]. split; [done |]. split; [done |]. right. by exists s.
    + destruct (spanNoSlash s) as [a' b'] eqn:Hs. intros [= <- <-].
      destruct (IH a' b' eq_refl) as (-> & Ha & Hb).
      split; [done |]. split; [| done].
      rewrite Contains_slash_cons, Ha.
      destruct (Ascii.eqb_spec "/" c) as [<-|]; done.
Qed.

Lemma spanNoSlash_app (a b : string) :
  Contains a "/" = false → spanNoSlash (a +:+ "/" +:+ b) = (a, "/" +:+ b).
Proof.
  induction a as [|c a IH]; intros Ha.
  - by rewrite string_app_nil_l.
  - rewrite Contains_slash_cons in Ha. apply orb_false_iff in Ha as [Hc Ha].
    rewrite string_app_cons. simpl.
    destruct (Ascii.eqb_spec c "/") as [->|Hne]; [done |].
    by rewrite (IH Ha).
Qed.

Lemma nonEmpty_true (s : string) : nonEmpty s = true ↔ s ≠ "".
Proof. destruct s; simpl; split; done. Qed.

(** X7. The pattern of [downloadFromOCI] matches exactly the locations
    [http://ghcr.io/v2/<owner>/<repo>/blobs/sha256:<hex>] with a non-empty
    owner and repository free of "/" and a non-empty digest of the
    characters 0-9 and a-f; the submatches are the owner, the repository and
    ["sha256:<hex>"]. *)
Theorem X7_blob_location_format (url owner repo digest : string) :
  matchBlobURL url = Some (owner, repo, digest) ↔
  ∃ hex,
    digest = "sha256:" +:+ hex
    ∧ url = "http://ghcr.io/v2/" +:+ owner +:+ "/" +:+ repo +:+ "/blobs/" +:+ digest
    ∧ owner ≠ "" ∧ repo ≠ "" ∧ hex ≠ ""
    ∧ Contains owner "/" = false ∧ Contains repo "/" = false
    ∧ forallb isLowerHex (String.list_ascii_of_string hex) = true.
Proof.
  unfold matchBlobURL. split.
  - destruct (stripPrefix "http://ghcr.io/v2/" url) as [r0|] eqn:H0; [| done].
    cbn [mbind option_bind].
    destruct (spanNoSlash r0) as [o r1] eqn:H1.
    destruct (stripPrefix "/" r1) as [r2|] eqn:H2; cbn [mbind option_bind]; [| discriminate].
    destruct (spanNoSlash r2) as [r r3] eqn:H3.
    destruct (stripPrefix "/blobs/sha256:" r3) as [hex|] eqn:H4;
      cbn [mbind option_bind]; [| discriminate].
    destruct (nonEmpty o && nonEmpty r && nonEmpty hex && _) eqn:Hc; [| discriminate].
    intros [= <- <- <-]. exists hex.
    apply andb_true_iff in Hc as [Hc Hhex].
    apply andb_true_iff in Hc as [Hc Hne3].
    apply andb_true_iff in Hc as [Hne1 Hne2].
    apply stripPrefix_Some in H0, H2, H4.
    apply spanNoSlash_spec in H1 as (-> & Ho & _).
    apply spanNoSlash_spec in H3 as (-> & Hr & _).
    subst. rewrite <- !nonEmpty_true. split_and!; done.
  - intros (hex & -> & -> & Ho & Hr & Hh & Hso & Hsr & Hhex).
    assert (stripPrefix "http://ghcr.io/v2/"
              ("http://ghcr.io/v2/" +:+ owner +:+ "/" +:+ repo +:+ "/blobs/"
               +:+ "sha256:" +:+ hex)
            = Some (owner +:+ "/" +:+ repo +:+ "/blobs/" +:+ "sha256:" +:+ hex)) as ->
      by by apply stripPrefix_Some.
    cbn [mbind option_bind]. rewrite (spanNoSlash_app owner _ Hso).
    assert (stripPrefix "/" ("/" +:+ repo +:+ "/blobs/" +:+ "sha256:" +:+ hex)
            = Some (repo +:+ "/blobs/" +:+ "sha256:" +:+ hex)) as ->
      by by apply stripPrefix_Some.
    cbn [mbind option_bind].
    change (repo +:+ "/blobs/" +:+ "sha256:" +:+ hex)
      with (repo +:+ "/" +:+ ("blobs/sha256:" +:+ hex)).
    rewrite (spanNoSlash_app repo _ Hsr).
    assert (stripPrefix "/blobs/sha256:" ("/" +:+ "blobs/sha256:" +:+ hex) = Some hex) as ->
      by by apply stripPrefix_Some.
    cbn [mbind option_bind]. apply nonEmpty_true in Ho, Hr, Hh. by rewrite Ho, Hr, Hh, Hhex.
Qed.

Lemma X7_blob_location_format_witness :
  matchBlobURL "http://ghcr.io/v2/acme/apps/blobs/sha256:0a1b"
    = Some ("acme", "apps", "sha256:0a1b").
Proof.
  apply X7_blob_location_format. exists "0a1b". by split_and!.
Defined.

(** ** Steps that only record events *)

Ltac pre_order := solve [assumption | apply _].

Ltac respects_step :=
  first
    [ apply respects_ret; pre_order | apply respects_fail; pre_order
    | apply respects_crash; pre_order | apply respects_get; pre_order
    | apply respects_attempt; pre_order | apply respects_check; pre_order
    | apply respects_bind; [ pre_order | | intros ? ]
    | apply respects_catch; [ pre_order | | intros ? ]
    | match goal with
      | |- respects _ (if ?b then _ else _) => destruct b
      | |- respects _ (match ?x with _ => _ end) => destruct x
      end ].

Global Instance adds_preorder P : PreOrder (adds P).
Proof.
  split.
  - intros w. exists []. by rewrite app_nil_r.
  - intros w1 w2 w3 (e1 & H1 & Q1) (e2 & H2 & Q2). exists (e1 ++ e2).
    rewrite H2, H1, <- app_assoc. split; [done |].
    by rewrite forallb_app, Q1, Q2.
Qed.

Global Instance onWorld_preorder RW `{!PreOrder RW} : PreOrder (onWorld RW).
Proof.
  split; [intros st; unfold onWorld; reflexivity |].
  intros s1 s2 s3. unfold onWorld. apply transitivity.
Qed.

Lemma emitClosed_sameFS : emitClosed sameFS.
Proof. intros ev w _. reflexivity. Qed.

Lemma emitClosed_sameAt q : emitClosed (sameAt q).
Proof. intros ev w _. reflexivity. Qed.

Lemma emitClosed_adds : emitClosed (adds loopEvent).
Proof. intros ev w H. exists [ev]. simpl. by rewrite H. Qed.

Section EmitOnly.
Variable E : Env.
Variable RW : World → World → Prop.
Hypothesis Hpre : PreOrder RW.
Hypothesis Hemit : emitClosed RW.

Lemma logW_respects l : loopEvent (Logged l) = true → respects RW (logW l).
Proof using Hpre Hemit.
  intros H. apply respects_modify; [done |]. intros w. by apply Hemit.
Qed.

Lemma emitW_respects ev : loopEvent ev = true → respects RW (emitW ev).
Proof using Hpre Hemit.
  intros H. apply respects_modify; [done |]. intros w. by apply Hemit.
Qed.

Lemma downloadFromOCI_respects url : respects RW (downloadFromOCI E url).
Proof using Hpre Hemit.
  unfold downloadFromOCI.
  apply respects_bind; [done | by apply logW_respects | intros _].
  destruct (matchBlobURL url) as [[[owner repo] sha256]|]; [| by apply respects_fail].
  repeat first [ by apply emitW_respects | respects_step ].
Qed.

Lemma dockerEnsureRunning_respects dir : respects RW (dockerEnsureRunning E dir).
Proof using Hpre Hemit.
  unfold dockerEnsureRunning.
  repeat first [ by apply emitW_respects | by apply logW_respects | respects_step ].
Qed.

Lemma ensureRunningLogged_respects name dir : respects RW (ensureRunningLogged E name dir).
Proof using Hpre Hemit.
  unfold ensureRunningLogged.
  apply respects_catch; [done | apply dockerEnsureRunning_respects |].
  intros e. by apply logW_respects.
Qed.

Lemma uploadToDocker_respects file : respects RW (uploadToDocker E file).
Proof using Hpre Hemit.
  unfold uploadToDocker.
  repeat first [ by apply emitW_respects | respects_step ].
Qed.

Lemma uploadAll_respects files : respects RW (uploadAll E files).
Proof using Hpre Hemit.
  induction files as [|f files IH]; simpl; [by apply respects_ret |].
  apply respects_bind; [done | apply uploadToDocker_respects | by intros _].
Qed.

Lemma verifyGPGSignature_respects pubKey signedFile signatureFile :
  respects RW (verifyGPGSignature E pubKey signedFile signatureFile).
Proof using Hpre Hemit.
  unfold verifyGPGSignature.
  repeat first [ by apply logW_respects | respects_step ].
Qed.

Lemma getAppDeployment_respects reg : respects RW (getAppDeployment E reg).
Proof using Hpre Hemit.
  unfold getAppDeployment.
  repeat first [ by apply emitW_respects | respects_step ].
Qed.

End EmitOnly.

(** ** The frame of a pass: deferred removals (lines 243, 250, 257, 289) *)

Lemma liftW_ignores {A} (R : Frame → Frame → Prop) (m : M World A) :
  ignoresWorld R → respects R (liftW m).
Proof.
  intros H st. unfold liftW. destruct (m (world st)) as [r w]. apply H.
Qed.

Section FrameOnly.
Variable E : Env.
Variable R : Frame → Frame → Prop.
Hypothesis Hpre : PreOrder R.
Hypothesis Hign : ignoresWorld R.
Hypothesis Hpush :
  ∀ t st, R st (mkFrame (world st) (allowedDeployments st) (t :: deferred st)).
Hypothesis Hallow :
  ∀ name st, R st (mkFrame (world st) (<[name := true]> (allowedDeployments st))
                     (deferred st)).

Ltac frame_step :=
  first [ apply liftW_ignores; exact Hign
        | apply respects_modify; [pre_order | intros ?; first [apply Hpush | apply Hallow]]
        | respects_step ].

Lemma applyComponent_respects_frame c destDir hashFile h :
  respects R (applyComponent E c destDir hashFile h).
Proof using Hpre Hign Hpush. unfold applyComponent. repeat frame_step. Qed.

Lemma reconcileComponent_respects_frame deployDir c :
  respects R (reconcileComponent E deployDir c).
Proof using Hpre Hign Hpush Hallow.
  unfold reconcileComponent.
  apply respects_bind; [done | apply respects_modify; [done | intros ?; apply Hallow] |].
  intros _. cbv zeta.
  destruct (Split (PackageLocation c) "sha256:" !! 1) as [h|]; [| by apply respects_crash].
  apply respects_bind; [done | by apply respects_get | intros st].
  destruct (fileExists (world st) _); [| apply applyComponent_respects_frame].
  apply respects_bind; [done | by apply respects_attempt | intros actual].
  destruct (String.eqb actual h); [| apply applyComponent_respects_frame].
  repeat frame_step.
Qed.

Lemma reconcileAll_respects_frame deployDir cs :
  respects R (reconcileAll E deployDir cs).
Proof using Hpre Hign Hpush Hallow.
  induction cs as [|c cs IH]; simpl; [by apply respects_ret |].
  apply respects_bind; [done | apply reconcileComponent_respects_frame | by intros _].
Qed.

Lemma purge_respects_frame deployDir : respects R (purge E deployDir).
Proof using Hpre Hign. unfold purge. repeat frame_step. Qed.

End FrameOnly.

Global Instance keepsDeferred_preorder : PreOrder keepsDeferred.
Proof.
  split; [intros st; unfold keepsDeferred; reflexivity |].
  intros s1 s2 s3. unfold keepsDeferred. apply transitivity.
Qed.

Lemma keepsDeferred_ignores : ignoresWorld keepsDeferred.
Proof. intros st w. unfold keepsDeferred. reflexivity. Qed.

Lemma keepsDeferred_push t st :
  keepsDeferred st (mkFrame (world st) (allowedDeployments st) (t :: deferred st)).
Proof. by exists [t]. Qed.

Lemma keepsDeferred_allow name st :
  keepsDeferred st (mkFrame (world st) (<[name := true]> (allowedDeployments st))
                      (deferred st)).
Proof. unfold keepsDeferred. reflexivity. Qed.

Lemma runDeferred_fs (st : Frame) :
  fs (runDeferred st) = fold_left RemoveAll (deferred st) (fs (world st)).
Proof.
  unfold runDeferred. generalize (world st). induction (deferred st) as [|t ts IH];
    intros w; simpl; [done |]. by rewrite IH.
Qed.

(** a stale component is handed to lines 237-313 *)
Lemma reconcileComponent_stale (E : Env) deployDir c st :
  stale deployDir (world st) c = true →
  ∃ h, digestOf c = Some h
       ∧ reconcileComponent E deployDir c st =
           applyComponent E c (destDirOf deployDir c) (hashFileOf deployDir c) h
             (mkFrame (world st) (<[CName c := true]> (allowedDeployments st))
                (deferred st)).
Proof.
  unfold stale, reconcileComponent, digestOf, hashFileOf, destDirOf. intros Hst.
  erewrite bind_Ok by reflexivity. cbv zeta.
  destruct (Split (PackageLocation c) "sha256:" !! 1) as [h|]; [| done].
  exists h. split; [done |].
  erewrite bind_Ok by reflexivity. unfold fileExists, exists_at. cbn [world].
  destruct (node_at (fs (world st)) _) as [[|a]|] eqn:Hn; [done | | done].
  unfold ReadFile. rewrite Hn. erewrite bind_Ok by reflexivity.
  by destruct (String.eqb a h).
Qed.

(** the scratch directory of a turn is registered for removal, however the
    turn ends *)
Lemma reconcileComponent_registers (E : Env) deployDir c st t w1 :
  stale deployDir (world st) c = true →
  MkdirTemp E (CName c) (emit (Logged (LogFetching (CName c))) (world st))
    = (Ok t, w1) →
  t ∈ deferred (reconcileComponent E deployDir c st).2.
Proof.
  intros Hst Htmp.
  destruct (reconcileComponent_stale E deployDir c st Hst) as (h & _ & ->).
  unfold applyComponent.
  erewrite bind_Ok by (apply liftW_run; reflexivity).
  erewrite bind_Ok by (apply liftW_run; exact Htmp).
  erewrite bind_Ok by reflexivity.
  match goal with
  | |- _ ∈ deferred (?m ?s).2 =>
      assert (respects keepsDeferred m) as Hr
  end.
  { repeat first [ apply liftW_ignores; exact keepsDeferred_ignores
                 | respects_step ]. }
  match goal with
  | |- _ ∈ deferred (?m ?s).2 => destruct (Hr s) as [k ->]
  end.
  apply elem_of_app. right. by left.
Qed.

(** X8. The scratch directory a component's turn created is gone when
    [reconcileDeployments] returns, with everything in it, however the turn
    and the pass end: with nil, with an error or with a panic. *)
Theorem X8_scratch_directory_removed (E : Env) (reg : string) (deployDir : Path)
    (w w1 : World) (d : ApplicationDeployment) (l1 l2 : list Component)
    (c : Component) (st1 : Frame) (t : Path) (w2 : World) (q : Path) :
  getAppDeployment E reg w = (Ok d, w1) →
  Components d = l1 ++ c :: l2 →
  reconcileAll E deployDir l1 (mkFrame w1 ∅ []) = (Ok tt, st1) →
  stale deployDir (world st1) c = true →
  MkdirTemp E (CName c) (emit (Logged (LogFetching (CName c))) (world st1))
    = (Ok t, w2) →
  t `prefix_of` q →
  fs (reconcileDeployments E reg deployDir w).2 !! q = None.
Proof.
  intros Hd Hl H1 Hst Htmp Hq.
  pose proof (reconcileComponent_registers E deployDir c st1 t w2 Hst Htmp) as Hreg.
  unfold reconcileDeployments. rewrite Hd, Hl.
  assert (∀ cs, respects keepsDeferred (reconcileAll E deployDir cs)) as Hall.
  { intros cs. apply reconcileAll_respects_frame;
      [apply _ | apply keepsDeferred_ignores | apply keepsDeferred_push
      | apply keepsDeferred_allow]. }
  assert (respects keepsDeferred (purge E deployDir)) as Hpurge.
  { apply purge_respects_frame; [apply _ | apply keepsDeferred_ignores]. }
  assert (t ∈ deferred ((reconcileAll E deployDir (l1 ++ c :: l2);; purge E deployDir)
                          (mkFrame w1 ∅ [])).2) as Hin.
  { unfold mbind at 1. unfold M_bind, bind.
    rewrite reconcileAll_app, H1. cbn [reconcileAll].
    unfold mbind at 1. unfold M_bind, bind.
    destruct (reconcileComponent E deployDir c st1) as [[[]|e|p] st2]; simpl in *;
      [| done | done].
    destruct (reconcileAll E deployDir l2 st2) as [[[]|e|p] st3] eqn:H3.
    - destruct (Hpurge st3) as [k3 Hk3]. destruct (Hall l2 st2) as [k2 Hk2].
      rewrite H3 in Hk2. simpl in *. rewrite Hk3, Hk2. set_solver.
    - destruct (Hall l2 st2) as [k2 Hk2]. rewrite H3 in Hk2. simpl in *.
      rewrite Hk2. set_solver.
    - destruct (Hall l2 st2) as [k2 Hk2]. rewrite H3 in Hk2. simpl in *.
      rewrite Hk2. set_solver. }
  destruct ((reconcileAll E deployDir (l1 ++ c :: l2);; purge E deployDir)
              (mkFrame w1 ∅ [])) as [r st].
  simpl in *. rewrite runDeferred_fs. by apply (RemoveAll_fold_under _ _ t).
Qed.

Lemma X8_scratch_directory_removed_witness :
  stale Sample.deployDir (world ScenarioScratch.frame0) ScenarioScratch.comp = true
  ∧ fs (reconcileDeployments ScenarioScratch.env0 Sample.registry Sample.deployDir
          ScenarioScratch.world0).2 !! ["tmp"; "A4711"; "docs"; "README"] = None.
Proof.
  split; [reflexivity |].
  apply (X8_scratch_directory_removed ScenarioScratch.env0 Sample.registry
           Sample.deployDir ScenarioScratch.world0
           (world ScenarioScratch.frame0) (mkDeployment [ScenarioScratch.comp])
           [] [] ScenarioScratch.comp ScenarioScratch.frame0 ["tmp"; "A4711"]
           (MkdirTemp ScenarioScratch.env0 "A"
              (emit (Logged (LogFetching "A")) (world ScenarioScratch.frame0))).2).
  - vm_compute. reflexivity.
  - reflexivity.
  - reflexivity.
  - reflexivity.
  - vm_compute. reflexivity.
  - by exists ["docs"; "README"].
Defined.

(** ** The world of a pass: steps that change files *)

Lemma respects_bind_post {S A B} (R : S → S → Prop) `{!PreOrder R} (Q : A → Prop)
    (m : M S A) (k : A → M S B) :
  (∀ s a s', m s = (Ok a, s') → Q a) →
  respects R m → (∀ a, Q a → respects R (k a)) → respects R (m ≫= k).
Proof.
  intros HQ Hm Hk s. specialize (Hm s). unfold mbind, M_bind, bind.
  destruct (m s) as [[a|e|p] s1] eqn:Hrun; simpl in *; [| done | done].
  etrans; [exact Hm | apply Hk]. by eapply HQ.
Qed.

Lemma liftW_onWorld {A} (RW : World → World → Prop) (m : M World A) :
  respects RW m → respects (onWorld RW) (liftW m).
Proof. intros Hm. apply (respects_liftW RW); [| done]. by intros st w. Qed.

Lemma MkdirTemp_value (E : Env) pattern w t w' :
  MkdirTemp E pattern w = (Ok t, w') → ∃ x, t = TempDir E ++ [x].
Proof.
  unfold MkdirTemp. destruct (hasSeparator pattern); [done |].
  unfold_go. simpl.
  destruct (default (pattern, "") (cutAtLastStar pattern)) as [pre suf].
  destruct (Mkdir (fs w) _) as [err|f]; simpl; [done |].
  intros [= <- _]. by eexists.
Qed.

Section WorldSteps.
Variable E : Env.
Variable RW : World → World → Prop.
Variables (c : Component) (destDir hashFile : Path) (h : string).
Hypothesis Hpre : PreOrder RW.
Hypothesis Hemit : emitClosed RW.
Hypothesis HmkTemp : respects RW (MkdirTemp E (CName c)).
Hypothesis Hun1 : ∀ pkg x, respects RW (unpackTgz E pkg (TempDir E ++ [x]) true).
Hypothesis Hwrite : ∀ w f, WriteFile (fs w) hashFile h = inr f → RW w (setFS w f).
Hypothesis Hremove : ∀ w, RW w (setFS w (RemoveAll (fs w) destDir)).
Hypothesis Hmkdir : ∀ w, RW w (setFS w (MkdirAll (fs w) destDir).1).
Hypothesis Hun2 : ∀ f, respects RW (unpackTgz E f destDir true).

Lemma writeDigest_respects :
  respects RW (w ← get; f ← attempt (WriteFile (fs w) hashFile h);
               modify (λ w, setFS w f)).
Proof using Hpre Hwrite.
  intros w. unfold mbind, M_bind, bind, get, attempt, modify, fail, ret.
  destruct (WriteFile (fs w) hashFile h) as [err|f] eqn:Hw; simpl; [reflexivity |].
  by apply Hwrite.
Qed.

Lemma teardown_respects :
  respects RW (w ← get; emitW (ExecComposeDown destDir);;
               check (composeDown E w destDir);;
               modify (λ w, setFS w (RemoveAll (fs w) destDir))).
Proof using Hpre Hemit Hremove.
  repeat first [ by apply emitW_respects
               | apply respects_modify; [done | exact Hremove]
               | respects_step ].
Qed.

Ltac world_step :=
  first
    [ apply liftW_onWorld;
      first [ by apply logW_respects
            | by apply downloadFromOCI_respects
            | by apply verifyGPGSignature_respects
            | by apply uploadAll_respects
            | by apply ensureRunningLogged_respects
            | exact HmkTemp | apply Hun1 | apply Hun2
            | apply writeDigest_respects | apply teardown_respects
            | apply respects_modify; [done | exact Hmkdir] ]
    | apply respects_modify; [pre_order | intros ?; unfold onWorld; reflexivity]
    | respects_step ].

Lemma activate_respects app : respects (onWorld RW) (activate E c destDir app).
Proof using Hpre Hemit Hremove Hmkdir Hun2.
  unfold activate. repeat world_step.
Qed.

Lemma applyComponent_respects :
  respects (onWorld RW) (applyComponent E c destDir hashFile h).
Proof using All.
  unfold applyComponent.
  apply respects_bind; [apply _ | by apply liftW_onWorld, logW_respects | intros _].
  apply (respects_bind_post _ (λ t, ∃ x, t = TempDir E ++ [x])).
  { intros st t st' Hrun. unfold liftW in Hrun.
    destruct (MkdirTemp E (CName c) (world st)) as [r w'] eqn:Htmp.
    simplify_eq/=. by eapply MkdirTemp_value. }
  { by apply liftW_onWorld. }
  intros t [x ->]. repeat world_step.
Qed.

End WorldSteps.

Lemma reconcileComponent_respects (E : Env) (RW : World → World → Prop)
    (deployDir : Path) (c : Component) :
  PreOrder RW → emitClosed RW →
  respects RW (MkdirTemp E (CName c)) →
  (∀ pkg x, respects RW (unpackTgz E pkg (TempDir E ++ [x]) true)) →
  (∀ h w f, WriteFile (fs w) (hashFileOf deployDir c) h = inr f → RW w (setFS w f)) →
  (∀ w, RW w (setFS w (RemoveAll (fs w) (destDirOf deployDir c)))) →
  (∀ w, RW w (setFS w (MkdirAll (fs w) (destDirOf deployDir c)).1)) →
  (∀ f, respects RW (unpackTgz E f (destDirOf deployDir c) true)) →
  respects (onWorld RW) (reconcileComponent E deployDir c).
Proof.
  intros Hpre Hemit HmkTemp Hun1 Hwrite Hremove Hmkdir Hun2.
  assert (∀ h, respects (onWorld RW)
                 (applyComponent E c (destDirOf deployDir c) (hashFileOf deployDir c) h))
    as Happly.
  { intros h. apply applyComponent_respects; try done. apply Hwrite. }
  unfold reconcileComponent.
  apply respects_bind; [apply _ | | intros _].
  { apply respects_modify; [apply _ |]. intros st. unfold onWorld. reflexivity. }
  cbv zeta.
  destruct (Split (PackageLocation c) "sha256:" !! 1) as [h|];
    [| apply respects_crash; apply _].
  apply respects_bind; [apply _ | apply respects_get; apply _ | intros st].
  destruct (fileExists (world st) _); [| apply Happly].
  apply respects_bind; [apply _ | apply respects_attempt; apply _ | intros actual].
  destruct (String.eqb actual h); [| apply Happly].
  apply respects_bind; [apply _ | | intros _].
  - by apply liftW_onWorld, logW_respects.
  - by apply liftW_onWorld, ensureRunningLogged_respects.
Qed.

Lemma reconcileAll_respects (E : Env) (RW : World → World → Prop)
    (deployDir : Path) (cs : list Component) :
  PreOrder RW →
  (∀ c, c ∈ cs → respects (onWorld RW) (reconcileComponent E deployDir c)) →
  respects (onWorld RW) (reconcileAll E deployDir cs).
Proof.
  intros Hpre. induction cs as [|c cs IH]; intros H; simpl.
  - apply respects_ret. apply _.
  - apply respects_bind; [apply _ | apply H; by left | intros _].
    apply IH. intros c' Hc'. apply H. by right.
Qed.

(** ** What a turn of the first loop can touch (lines 210-313) *)

Lemma MkdirTemp_sameAt (E : Env) (pattern : string) (q : Path) :
  ¬ TempDir E `prefix_of` q → respects (sameAt q) (MkdirTemp E pattern).
Proof.
  intros Hq w. apply MkdirTemp_frame. intros name ->. apply Hq. by exists [name].
Qed.

Lemma unpackTgz_sameAt (E : Env) (src : string) (dest : Path) (skipHidden : bool)
    (q : Path) :
  (∀ s, gunzipTar E src = inr s → safeArchive s = true) →
  ¬ dest `prefix_of` q → ¬ q `prefix_of` dest →
  respects (sameAt q) (unpackTgz E src dest skipHidden).
Proof.
  intros Hsafe Hq1 Hq2 w. unfold sameAt, unpackTgz.
  destruct (gunzipTar E src) as [err|s] eqn:Hs; [done |].
  erewrite bind_Ok by reflexivity.
  apply unpackEntries_frame. intros e He Hp.
  specialize (Hsafe s eq_refl). unfold safeArchive in Hsafe.
  rewrite forallb_forall in Hsafe.
  pose proof (Join_under dest _ (Hsafe e (proj1 (list_elem_of_In _ _) He))) as Hd.
  destruct (prefix_weak_total _ _ _ Hd Hp); done.
Qed.

Lemma prefix_snoc_inv {A} (q l : list A) (x : A) :
  q `prefix_of` (l ++ [x]) → q `prefix_of` l ∨ l `prefix_of` q.
Proof.
  intros [k Hk]. destruct (decide (k = [])) as [->|Hne].
  - right. exists [x]. by rewrite app_nil_r in Hk.
  - left. destruct (exists_last Hne) as (k' & y & ->).
    rewrite app_assoc in Hk. apply app_inj_tail in Hk as [-> _]. by exists k'.
Qed.

Lemma reconcileComponent_sameAt (E : Env) (deployDir : Path) (c : Component) (q : Path) :
  (∀ src s, gunzipTar E src = inr s → safeArchive s = true) →
  ¬ destDirOf deployDir c `prefix_of` q → ¬ q `prefix_of` destDirOf deployDir c →
  ¬ TempDir E `prefix_of` q → ¬ q `prefix_of` TempDir E →
  respects (onWorld (sameAt q)) (reconcileComponent E deployDir c).
Proof.
  intros Hsafe Hd1 Hd2 Ht1 Ht2.
  apply reconcileComponent_respects.
  - apply _.
  - apply emitClosed_sameAt.
  - by apply MkdirTemp_sameAt.
  - intros pkg x. apply unpackTgz_sameAt; [by apply Hsafe | |].
    + intros [k ->]. apply Ht1. exists ([x] ++ k). by rewrite app_assoc.
    + intros Hp. by destruct (prefix_snoc_inv _ _ _ Hp).
  - intros h w f Hw. unfold sameAt. simpl.
    eapply writeAt_frame; [exact Hw |]. intros ->. apply Hd1.
    unfold hashFileOf. rewrite Join_hash. by exists [".hash"].
  - intros w. unfold sameAt. simpl. by apply RemoveAll_other.
  - intros w. unfold sameAt. simpl. unfold MkdirAll. by apply mkdirFrom_frame.
  - intros f. apply unpackTgz_sameAt; [by apply Hsafe | done | done].
Qed.

(** X9. With archives none of whose entry names has a ".." component, the
    first loop changes nothing outside the deployment directories of the
    components it goes through and the directory for temporary files: a
    path that is neither at or below one of these directories, nor one of
    the directories above them, is after the loop as it was before, however
    the loop ends. *)
Theorem X9_loop_confined (E : Env) (deployDir : Path) (cs : list Component)
    (st : Frame) (q : Path) :
  (∀ src s, gunzipTar E src = inr s → safeArchive s = true) →
  (∀ c, c ∈ cs → ¬ destDirOf deployDir c `prefix_of` q
                 ∧ ¬ q `prefix_of` destDirOf deployDir c) →
  ¬ TempDir E `prefix_of` q →
  ¬ q `prefix_of` TempDir E →
  fs (world (reconcileAll E deployDir cs st).2) !! q = fs (world st) !! q.
Proof.
  intros Hsafe Hcs Ht1 Ht2.
  apply (reconcileAll_respects E (sameAt q) deployDir cs); [apply _ |].
  intros c Hc. destruct (Hcs c Hc). by apply reconcileComponent_sameAt.
Qed.

Lemma sample_archives_safe manifest blobs archives :
  forallb (λ kv, safeArchive kv.2) archives = true →
  ∀ src s, gunzipTar (Sample.env manifest blobs archives) src = inr s →
           safeArchive s = true.
Proof.
  intros Hall src s. simpl.
  induction archives as [|[k a] archives IH]; simpl in *; [done |].
  apply andb_true_iff in Hall as [Ha Hrest].
  destruct (String.eqb src k); [by intros [= <-] | by apply IH].
Qed.

Lemma X9_loop_confined_witness :
  fs (world ScenarioUpgrade.frame0) !! ["deploy"; "A"; "docker-compose.yaml"] = None
  ∧ fs (world (reconcileAll ScenarioUpgrade.env0 Sample.deployDir
                 [ScenarioUpgrade.compA] ScenarioUpgrade.frame0).2)
      !! ["deploy"; "A"; "docker-compose.yaml"] = Some (NFile "services: {}")
  ∧ fs (world (reconcileAll ScenarioUpgrade.env0 Sample.deployDir
                 [ScenarioUpgrade.compA] ScenarioUpgrade.frame0).2)
      !! ["deploy"; "B"; "data"] = Some (NFile "rows").
Proof.
  split; [vm_compute; reflexivity |]. split; [vm_compute; reflexivity |].
  rewrite (X9_loop_confined ScenarioUpgrade.env0 Sample.deployDir
             [ScenarioUpgrade.compA] ScenarioUpgrade.frame0 ["deploy"; "B"; "data"]).
  - vm_compute. reflexivity.
  - by apply sample_archives_safe.
  - intros c Hc. apply list_elem_of_singleton in Hc as ->.
    split; intros [k Hk]; vm_compute in Hk; simplify_eq/=.
  - intros [k Hk]. simplify_eq/=.
  - intros [k Hk]. simplify_eq/=.
Defined.

(** ** The names the first loop records and the second loop (lines 211, 316-334) *)

Global Instance sameAllowed_preorder : PreOrder sameAllowed.
Proof.
  split; [by intros st |].
  intros s1 s2 s3 H1 H2. unfold sameAllowed in *. congruence.
Qed.

(** whatever a turn does after line 211, the set of names stays as that
    line left it *)
Lemma reconcileComponent_allowed (E : Env) deployDir c st :
  allowedDeployments (reconcileComponent E deployDir c st).2
  = <[CName c := true]> (allowedDeployments st).
Proof.
  assert (∀ h s, allowedDeployments
                   (applyComponent E c (Join deployDir (CName c))
                      (Join (Join deployDir (CName c)) ".hash") h s).2
                 = allowedDeployments s) as Happly.
  { intros h s. apply (applyComponent_respects_frame E sameAllowed); [apply _ | | ].
    - by intros ??.
    - by intros ??. }
  unfold reconcileComponent.
  erewrite bind_Ok by reflexivity. cbv zeta.
  destruct (Split (PackageLocation c) "sha256:" !! 1) as [h|]; [| done].
  erewrite bind_Ok by reflexivity. cbn [world].
  destruct (fileExists _ _); [| by rewrite Happly].
  destruct (ReadFile _ _) as [err|actual]; [done |].
  erewrite bind_Ok by reflexivity.
  destruct (String.eqb actual h); [| by rewrite Happly].
  unfold mbind, M_bind, bind, liftW. simpl.
  by destruct (ensureRunningLogged E _ _ _) as [[] ?].
Qed.

Lemma reconcileAll_allowed (E : Env) deployDir cs st st1 :
  reconcileAll E deployDir cs st = (Ok tt, st1) →
  allowedDeployments st1 = allowedAfter cs (allowedDeployments st).
Proof.
  revert st. induction cs as [|c cs IH]; intros st; simpl.
  - by intros [= <-].
  - pose proof (reconcileComponent_allowed E deployDir c st) as Hc.
    unfold mbind, M_bind, bind.
    destruct (reconcileComponent E deployDir c st) as [[[]|e|p] st2]; [| done | done].
    intros Hrest. rewrite (IH _ Hrest). simpl in Hc. by rewrite Hc.
Qed.

(** X10. When the first loop has gone through the whole manifest, the
    second loop never fails, whatever [docker-compose down] answers; it
    removes every directory of the deployment directory whose name the
    manifest does not list, with everything below it, and leaves everything
    at or below the directory of a listed name as the first loop left it,
    also what was deployed in this very pass.  (Directory entries are taken
    to have ordinary names.) *)
Theorem X10_purge_after_loop (E : Env) (deployDir : Path) (cs : list Component)
    (w : World) (st1 : Frame) :
  reconcileAll E deployDir cs (mkFrame w ∅ []) = (Ok tt, st1) →
  node_at (fs (world st1)) deployDir = Some NDir →
  forallb plainName (fst <$> ReadDir (fs (world st1)) deployDir) = true →
  (purge E deployDir st1).1 = Ok tt
  ∧ (∀ name q,
       fs (world st1) !! (deployDir ++ [name]) = Some NDir →
       name ∉ CName <$> cs →
       (deployDir ++ [name]) `prefix_of` q →
       fs (world (purge E deployDir st1).2) !! q = None)
  ∧ (∀ name q,
       name ∈ CName <$> cs →
       (deployDir ++ [name]) `prefix_of` q →
       fs (world (purge E deployDir st1).2) !! q = fs (world st1) !! q).
Proof.
  intros Hloop Hdir Hplain.
  pose proof (reconcileAll_allowed E deployDir cs _ _ Hloop) as Hallowed.
  cbn [allowedDeployments] in Hallowed.
  unfold purge. erewrite bind_Ok by reflexivity.
  destruct (purgeEntries_spec E deployDir (allowedDeployments st1)
              (ReadDir (fs (world st1)) deployDir) (world st1))
    as (w3 & Hrun & Hfs & _).
  erewrite liftW_run by exact Hrun. cbn [fst snd world]. rewrite Hfs, Hallowed.
  assert (∀ name n, (name, n) ∈ ReadDir (fs (world st1)) deployDir →
                    Join deployDir name = deployDir ++ [name]) as Hjoin.
  { intros name n Hin. apply Join_plain.
    rewrite forallb_forall in Hplain. apply Hplain.
    apply list_elem_of_In, list_elem_of_fmap. by exists (name, n). }
  split; [done |]. split.
  - intros name q Hf Hnot Hp.
    apply (RemoveAll_fold_under _ _ (deployDir ++ [name])); [| done].
    apply elem_of_purgeTargets. exists name.
    assert ((name, NDir) ∈ ReadDir (fs (world st1)) deployDir) as Hin
      by by apply elem_of_ReadDir.
    split; [done |]. split; [| by rewrite (Hjoin _ _ Hin)].
    destruct (default false _) eqn:Ha; [| done].
    apply allowedAfter_lookup in Ha as [Ha|Ha]; [done |].
    by rewrite lookup_empty in Ha.
  - intros name q Hn Hp. apply RemoveAll_fold_other. intros t Ht Hpt.
    apply elem_of_purgeTargets in Ht as (name' & Hin & Hno & ->).
    rewrite (Hjoin _ _ Hin) in Hpt.
    assert (name' = name) as ->.
    { destruct Hp as [k ->]. destruct Hpt as [k' Hk].
      rewrite <- !app_assoc in Hk. apply app_inv_head in Hk. by simplify_eq/=. }
    assert (default false (allowedAfter cs ∅ !! name) = true) as Hyes
      by (apply allowedAfter_lookup; by left).
    congruence.
Qed.

Lemma X10_purge_after_loop_witness :
  let st1 := (reconcileAll ScenarioUpgrade.env0 Sample.deployDir
                [ScenarioUpgrade.compA] ScenarioUpgrade.frame0).2 in
  fs (world st1) !! ["deploy"; "B"; "data"] = Some (NFile "rows")
  ∧ fs (world (purge ScenarioUpgrade.env0 Sample.deployDir st1).2)
      !! ["deploy"; "B"; "data"] = None
  ∧ fs (world (purge ScenarioUpgrade.env0 Sample.deployDir st1).2)
      !! ["deploy"; "A"; "docker-compose.yaml"] = Some (NFile "services: {}").
Proof.
  set (st1 := (reconcileAll ScenarioUpgrade.env0 Sample.deployDir
                 [ScenarioUpgrade.compA] ScenarioUpgrade.frame0).2).
  assert (reconcileAll ScenarioUpgrade.env0 Sample.deployDir [ScenarioUpgrade.compA]
            (mkFrame (world ScenarioUpgrade.frame0) ∅ []) = (Ok tt, st1)) as Hloop
    by (vm_compute; reflexivity).
  destruct (X10_purge_after_loop ScenarioUpgrade.env0 Sample.deployDir
              [ScenarioUpgrade.compA] (world ScenarioUpgrade.frame0) st1 Hloop)
    as (_ & Hgone & Hkept).
  - vm_compute. reflexivity.
  - vm_compute. reflexivity.
  - cbv zeta. split; [vm_compute; reflexivity |]. split.
    + apply (Hgone "B").
      * vm_compute. reflexivity.
      * intros H. apply list_elem_of_singleton in H. discriminate H.
      * by exists ["data"].
    + rewrite (Hkept "A").
      * vm_compute. reflexivity.
      * by apply list_elem_of_singleton.
      * by exists ["docker-compose.yaml"].
Defined.

(** ** Nothing is activated before the signature has verified (lines 237-270) *)

Global Instance gated_preorder T : PreOrder (gated T).
Proof.
  split.
  - intros w. exists []. rewrite app_nil_r. done.
  - intros w1 w2 w3 (e1 & H1 & G1) (e2 & H2 & G2). exists (e1 ++ e2).
    split; [by rewrite H2, H1, <- app_assoc |].
    unfold verified in *. rewrite existsb_app. intros Hv.
    apply orb_false_iff in Hv as [Hv1 Hv2].
    destruct (G1 Hv1) as [P1 F1]. destruct (G2 Hv2) as [P2 F2].
    split; [by rewrite forallb_app, P1, P2 |].
    intros q Hq1 Hq2. by rewrite F2, F1.
Qed.

Lemma respects_gated {A} T (m : M World A) :
  respects (adds preparing) m →
  (∀ q, ¬ T `prefix_of` q → ¬ q `prefix_of` T → respects (sameAt q) m) →
  respects (gated T) m.
Proof.
  intros Hadds Hsame w. destruct (Hadds w) as (evs & Htr & Hp).
  exists evs. split; [done |]. intros _. split; [done |].
  intros q Hq1 Hq2. by apply Hsame.
Qed.

Lemma gated_emit T ev w : preparing ev = true → gated T w (emit ev w).
Proof.
  intros H. exists [ev]. split; [done |]. intros _. simpl. by rewrite H.
Qed.

Lemma adds_emit (P : event → bool) ev w : P ev = true → adds P w (emit ev w).
Proof. intros H. exists [ev]. simpl. by rewrite H. Qed.

Lemma adds_setFS (P : event → bool) w f : adds P w (setFS w f).
Proof. exists []. simpl. by rewrite app_nil_r. Qed.

(** extraction records its two warnings and changes files *)
Lemma unpackEntry_events (R : World → World → Prop) `{!PreOrder R} dest skipHidden e :
  (∀ l w, preparing (Logged l) = true → R w (emit (Logged l) w)) →
  (∀ w f, R w (setFS w f)) →
  respects R (unpackEntry dest skipHidden e).
Proof.
  intros Hlog Hfs. unfold unpackEntry. cbv zeta.
  destruct (skipHidden && HasPrefix _ ".").
  { apply respects_modify; [done |]. intros w. by apply Hlog. }
  destruct (Ascii.eqb _ TypeDir).
  { apply respects_bind; [done | by apply respects_get | intros w].
    destruct (MkdirAll (fs w) _) as [f err].
    apply respects_bind; [done | by apply respects_modify | intros _].
    by apply respects_check. }
  destruct (Ascii.eqb _ TypeReg).
  { apply respects_bind; [done | by apply respects_get | intros w].
    apply respects_bind; [done | by apply respects_attempt | intros f].
    apply respects_bind; [done | by apply respects_modify | intros _].
    by apply respects_check. }
  apply respects_modify; [done |]. intros w. by apply Hlog.
Qed.

Lemma unpackTgz_adds (E : Env) (P : event → bool) src dest skipHidden :
  (∀ ev, preparing ev = true → P ev = true) →
  respects (adds P) (unpackTgz E src dest skipHidden).
Proof.
  intros HP. apply (unpackTgz_respects E (adds P)). intros s e _ _.
  apply (unpackEntry_events (adds P)).
  - intros l w Hl. apply adds_emit. by apply HP.
  - apply adds_setFS.
Qed.

Lemma MkdirTemp_trace (E : Env) pattern w : trace (MkdirTemp E pattern w).2 = trace w.
Proof.
  unfold MkdirTemp. destruct (hasSeparator pattern); [done |].
  unfold_go. simpl.
  destruct (default (pattern, "") (cutAtLastStar pattern)) as [pre suf].
  by destruct (Mkdir (fs w) _).
Qed.

Lemma MkdirTemp_adds (E : Env) (P : event → bool) pattern :
  respects (adds P) (MkdirTemp E pattern).
Proof. intros w. exists []. by rewrite MkdirTemp_trace, app_nil_r. Qed.

Section Preparing.
Variable E : Env.
Variable RW : World → World → Prop.
Hypothesis Hpre : PreOrder RW.
Hypothesis Hemit : ∀ ev w, preparing ev = true → RW w (emit ev w).

Lemma downloadFromOCI_preparing url : respects RW (downloadFromOCI E url).
Proof using Hpre Hemit.
  unfold downloadFromOCI.
  apply respects_bind; [done | | intros _].
  { apply respects_modify; [done |]. intros w. by apply Hemit. }
  destruct (matchBlobURL url) as [[[owner repo] sha256]|]; [| by apply respects_fail].
  repeat first [ apply respects_modify; [done | intros ?; by apply Hemit]
               | respects_step ].
Qed.

End Preparing.

(** how the check of a signature ends: with the two log lines of a
    signature that verified, or with the first of them only *)
Lemma verifyGPGSignature_trace (E : Env) pubKey signedFile signatureFile w :
  match verifyGPGSignature E pubKey signedFile signatureFile w with
  | (Ok _, w') =>
      trace w' = trace w ++ [Logged (LogVerifying signedFile); Logged LogVerified]
  | (_, w') =>
      trace w' = trace w ++ [Logged (LogVerifying signedFile)] ∧ fs w' = fs w
  end.
Proof.
  unfold verifyGPGSignature. unfold_go. simpl.
  destruct (readArmoredKeyRing E pubKey) as [e|keyring]; simpl; [done |].
  destruct (Open (fs w) signatureFile) as [e|[|signature]]; simpl; [done | |].
  all: destruct (Open (fs w) signedFile) as [e|[|signed]]; simpl; try done.
  destruct (checkDetachedSignature E keyring signed signature); simpl; [done |].
  by rewrite <- app_assoc.
Qed.

Lemma applyComponent_gated (E : Env) c destDir hashFile h :
  (∀ src s, gunzipTar E src = inr s → safeArchive s = true) →
  respects (onWorld (gated (TempDir E))) (applyComponent E c destDir hashFile h).
Proof.
  intros Hsafe. unfold applyComponent.
  assert (∀ ev w, preparing ev = true → gated (TempDir E) w (emit ev w)) as Hemit
    by (intros; by apply gated_emit).
  apply respects_bind; [apply _ | | intros _].
  { apply liftW_onWorld, respects_modify; [apply _ |]. intros w. by apply Hemit. }
  apply (respects_bind_post _ (λ t, ∃ x, t = TempDir E ++ [x])).
  { intros st t st' Hrun. unfold liftW in Hrun.
    destruct (MkdirTemp E (CName c) (world st)) as [r w'] eqn:Htmp.
    simplify_eq/=. by eapply MkdirTemp_value. }
  { apply liftW_onWorld, respects_gated; [apply MkdirTemp_adds |].
    intros q Hq _. by apply MkdirTemp_sameAt. }
  intros t [x ->].
  apply respects_bind; [apply _ | | intros _].
  { apply respects_modify; [apply _ |]. intros st. unfold onWorld. reflexivity. }
  apply respects_bind; [apply _ | | intros pubKey].
  { apply liftW_onWorld. by apply downloadFromOCI_preparing; [apply _ |]. }
  apply respects_bind; [apply _ | | intros pkg].
  { apply liftW_onWorld. by apply downloadFromOCI_preparing; [apply _ |]. }
  apply respects_bind; [apply _ | | intros _].
  { apply liftW_onWorld, respects_gated; [by apply unpackTgz_adds |].
    intros q Hq1 Hq2. apply unpackTgz_sameAt; [by apply Hsafe | |].
    - intros [k ->]. apply Hq1. exists ([x] ++ k). by rewrite app_assoc.
    - intros Hp. by destruct (prefix_snoc_inv _ _ _ Hp). }
  apply respects_bind; [apply _ | apply respects_get; apply _ | intros st].
  destruct (findAppFiles (world st) _) as [appFiles err].
  apply respects_bind; [apply _ | apply respects_check; apply _ | intros _].
  destruct appFiles as [|app rest]; [apply respects_crash; apply _ |].
  intros st0.
  pose proof (verifyGPGSignature_trace E pubKey app (addExt app ".sig") (world st0)) as Hv.
  destruct (verifyGPGSignature E pubKey app (addExt app ".sig") (world st0))
    as [[[]|e|p] w5] eqn:Hver.
  - erewrite bind_Ok by (apply liftW_run; exact Hver).
    assert (respects (onWorld (adds loopEvent))
              (liftW (w ← get; f ← attempt (WriteFile (fs w) hashFile h);
                      modify (λ w, setFS w f));;
               activate E c destDir app)) as Hrest.
    { apply respects_bind; [apply _ | | intros _].
      - apply liftW_onWorld, writeDigest_respects; [apply _ |].
        intros w f _. apply adds_setFS.
      - apply activate_respects.
        + apply _.
        + apply emitClosed_adds.
        + intros w. apply adds_setFS.
        + intros w. apply adds_setFS.
        + intros f. apply unpackTgz_adds. by intros [[]| | | | | | |]. }
    destruct (Hrest (mkFrame w5 (allowedDeployments st0) (deferred st0)))
      as (evs & Htr & _).
    exists ([Logged (LogVerifying app); Logged LogVerified] ++ evs). split.
    + etrans; [exact Htr |]. cbn [world]. by rewrite Hv, <- app_assoc.
    + intros Hno. discriminate Hno.
  - erewrite bind_Fail by (apply liftW_run; exact Hver).
    destruct Hv as [Htr Hfs]. exists [Logged (LogVerifying app)].
    split; [done |]. intros _. split; [done |]. intros q _ _. simpl. by rewrite Hfs.
  - erewrite bind_Crash by (apply liftW_run; exact Hver).
    destruct Hv as [Htr Hfs]. exists [Logged (LogVerifying app)].
    split; [done |]. intros _. split; [done |]. intros q _ _. simpl. by rewrite Hfs.
Qed.

(** X11. The turn of a component that is missing or stale activates
    nothing before a signature has verified.  With archives none of whose
    entry names has a ".." component: unless the events of the turn include
    the log line of a verified signature, they are log lines of the fetch
    and downloads of blobs only (no docker or docker-compose command), and
    every path outside the directory for temporary files and the directories
    above it is after the turn as it was before. *)
Theorem X11_nothing_before_verification (E : Env) (deployDir : Path) (c : Component)
    (st : Frame) :
  stale deployDir (world st) c = true →
  (∀ src s, gunzipTar E src = inr s → safeArchive s = true) →
  ∃ evs,
    trace (world (reconcileComponent E deployDir c st).2) = trace (world st) ++ evs
    ∧ (verified evs = false →
       forallb preparing evs = true
       ∧ ∀ q, ¬ TempDir E `prefix_of` q → ¬ q `prefix_of` TempDir E →
              fs (world (reconcileComponent E deployDir c st).2) !! q
              = fs (world st) !! q).
Proof.
  intros Hst Hsafe.
  destruct (reconcileComponent_stale E deployDir c st Hst) as (h & _ & ->).
  apply (applyComponent_gated E c (destDirOf deployDir c) (hashFileOf deployDir c) h
           Hsafe
           (mkFrame (world st) (<[CName c := true]> (allowedDeployments st))
              (deferred st))).
Qed.

Lemma X11_nothing_before_verification_witness :
  stale Sample.deployDir (world ScenarioUnsigned.frame0) ScenarioUnsigned.compA = true
  ∧ (reconcileComponent ScenarioUnsigned.env0 Sample.deployDir
       ScenarioUnsigned.compA ScenarioUnsigned.frame0).1
    = Fail (ErrVerify "signature verification failed")
  ∧ fs (world (reconcileComponent ScenarioUnsigned.env0 Sample.deployDir
                 ScenarioUnsigned.compA ScenarioUnsigned.frame0).2)
      !! ["deploy"; "A"; "docker-compose.yaml"] = Some (NFile "services: {}").
Proof.
  split; [vm_compute; reflexivity |]. split; [vm_compute; reflexivity |].
  destruct (X11_nothing_before_verification ScenarioUnsigned.env0 Sample.deployDir
              ScenarioUnsigned.compA ScenarioUnsigned.frame0)
    as (evs & Htr & Hgate).
  - vm_compute. reflexivity.
  - by apply sample_archives_safe.
  - vm_compute in Htr. simplify_eq/=.
    destruct (Hgate eq_refl) as [_ Hfs].
    rewrite (Hfs ["deploy"; "A"; "docker-compose.yaml"]).
    + vm_compute. reflexivity.
    + intros [k Hk]. simplify_eq/=.
    + intros [k Hk]. simplify_eq/=.
Defined.

(** ** The digest file once it is written (lines 272-313) *)

Section InstallSteps.
Variable E : Env.
Variable RW : World → World → Prop.
Variables (c : Component) (destDir : Path).
Hypothesis Hpre : PreOrder RW.
Hypothesis Hemit : emitClosed RW.
Hypothesis Hmkdir : ∀ w, RW w (setFS w (MkdirAll (fs w) destDir).1).
Hypothesis Hun2 : ∀ f, respects RW (unpackTgz E f destDir true).

Lemma install_respects app : respects (onWorld RW) (install E c destDir app).
Proof using All.
  unfold install.
  repeat first
    [ apply liftW_onWorld;
      first [ by apply uploadAll_respects
            | by apply ensureRunningLogged_respects
            | apply Hun2
            | apply respects_modify; [done | exact Hmkdir] ]
    | respects_step ].
Qed.

(** without an orchestration descriptor in the directory, lines 276-283 do
    nothing *)
Lemma activate_no_descriptor app st :
  fileExists (world st) (Join destDir "docker-compose.yaml") = false →
  onWorld RW st (activate E c destDir app st).2.
Proof using All.
  intros Hno. unfold activate.
  erewrite bind_Ok by reflexivity. rewrite Hno.
  erewrite bind_Ok by reflexivity.
  apply install_respects.
Qed.

End InstallSteps.

Lemma WriteFile_lookup (f f' : FS) (p : Path) (data : string) :
  WriteFile f p data = inr f' → f' !! p = Some (NFile data).
Proof.
  unfold WriteFile, writeAt. destruct p as [|x p]; [done |].
  destruct (node_at f (Dir (x :: p))) as [[|?]|]; [| done | done].
  destruct (f !! (x :: p)) as [[|old]|]; intros; simplify_eq/=;
    by rewrite lookup_insert_eq.
Qed.

Lemma unpackTgz_spares (E : Env) (deployDir : Path) (c : Component) (src : string) :
  (∀ s, gunzipTar E src = inr s → sparesDigest deployDir c s = true) →
  respects (sameAt (hashFileOf deployDir c))
    (unpackTgz E src (destDirOf deployDir c) true).
Proof.
  intros Hsp. apply (unpackTgz_respects E (sameAt (hashFileOf deployDir c))).
  intros s e Hs He w. specialize (Hsp s Hs). unfold sparesDigest in Hsp.
  rewrite forallb_forall in Hsp.
  specialize (Hsp e (proj1 (list_elem_of_In _ _) He)).
  apply orb_true_iff in Hsp as [Hhid|Hout].
  - unfold unpackEntry, hiddenEntry in *. cbv zeta. rewrite Hhid. reflexivity.
  - apply bool_decide_eq_true in Hout. by apply unpackEntry_frame.
Qed.

(** X12. Once the turn of a component has written the new digest to the
    digest file (line 272), and the deployment directory holds no
    orchestration descriptor at that point, the file keeps that digest to
    the end of the turn, however the turn ends: a deployment that fails
    after line 272 leaves a component that the next pass finds up to date.
    (No entry of an archive that is extracted may have its target at the
    digest file.) *)
Theorem X12_digest_outlives_failure (E : Env) (deployDir : Path) (c : Component)
    (st : Frame) (h : string) (tempDir : Path) (w1 : World) (key : string)
    (w2 : World) (pkg : string) (w3 w4 : World) (app : Path) (rest : list Path)
    (w5 : World) (f : FS) :
  stale deployDir (world st) c = true →
  digestOf c = Some h →
  MkdirTemp E (CName c) (emit (Logged (LogFetching (CName c))) (world st))
    = (Ok tempDir, w1) →
  downloadFromOCI E (KeyLocation c) w1 = (Ok key, w2) →
  downloadFromOCI E (PackageLocation c) w2 = (Ok pkg, w3) →
  unpackTgz E pkg tempDir true w3 = (Ok tt, w4) →
  findAppFiles w4 tempDir = (app :: rest, None) →
  verifyGPGSignature E key app (addExt app ".sig") w4 = (Ok tt, w5) →
  WriteFile (fs w5) (hashFileOf deployDir c) h = inr f →
  fileExists w5 (Join (destDirOf deployDir c) "docker-compose.yaml") = false →
  (∀ src s, gunzipTar E src = inr s → sparesDigest deployDir c s = true) →
  upToDate deployDir (world (reconcileComponent E deployDir c st).2) c = true.
Proof.
  intros Hst Hh Htmp Hkey Hpkg Hun Hfind Hver Hwrite Hno Hsp.
  destruct (reconcileComponent_stale E deployDir c st Hst) as (h' & Hh' & ->).
  assert (h' = h) as -> by congruence.
  unfold applyComponent.
  erewrite bind_Ok by (apply liftW_run; reflexivity).
  erewrite bind_Ok by (apply liftW_run; exact Htmp).
  erewrite bind_Ok by reflexivity.
  erewrite bind_Ok by (apply liftW_run; exact Hkey).
  erewrite bind_Ok by (apply liftW_run; exact Hpkg).
  erewrite bind_Ok by (apply liftW_run; exact Hun).
  erewrite bind_Ok by reflexivity.
  cbn [world]. rewrite Hfind.
  erewrite bind_Ok by reflexivity.
  erewrite bind_Ok by (apply liftW_run; exact Hver).
  erewrite bind_Ok
    by (apply liftW_run; cbn [world]; unfold_go; rewrite Hwrite; reflexivity).
  set (st5 := mkFrame (setFS w5 f) (<[CName c := true]> (allowedDeployments st))
                (tempDir :: deferred st)).
  assert (hashFileOf deployDir c = destDirOf deployDir c ++ [".hash"]) as Hhash
    by apply Join_hash.
  assert (fileExists (world st5) (Join (destDirOf deployDir c) "docker-compose.yaml")
          = false) as Hno'.
  { assert (node_at f (Join (destDirOf deployDir c) "docker-compose.yaml")
            = node_at (fs w5) (Join (destDirOf deployDir c) "docker-compose.yaml"))
      as Heq.
    { rewrite (Join_plain _ "docker-compose.yaml") by reflexivity. unfold node_at.
      destruct (destDirOf deployDir c ++ ["docker-compose.yaml"]) as [|x p] eqn:Hp;
        [done |].
      eapply writeAt_frame; [exact Hwrite |].
      rewrite <- Hp, Hhash. intros Heq. by apply app_inj_tail in Heq as [_ [=]]. }
    unfold fileExists, exists_at. cbn [world fs setFS st5]. rewrite Heq. exact Hno. }
  assert (onWorld (sameAt (hashFileOf deployDir c)) st5
            (activate E c (destDirOf deployDir c) app st5).2) as Hact.
  { apply activate_no_descriptor; [apply _ | apply emitClosed_sameAt | | | exact Hno'].
    - intros w. unfold sameAt, MkdirAll. cbn [fs setFS]. apply mkdirFrom_frame.
      rewrite Hhash. intros [k Hk]. rewrite <- app_assoc in Hk.
      apply (f_equal length) in Hk. rewrite !length_app in Hk. simpl in Hk. lia.
    - intros src. apply unpackTgz_spares. apply Hsp. }
  unfold onWorld, sameAt in Hact. cbn [world fs setFS st5] in Hact.
  rewrite (WriteFile_lookup _ _ _ _ Hwrite) in Hact.
  change (upToDate deployDir
            (world (activate E c (destDirOf deployDir c) app st5).2) c = true).
  unfold upToDate. rewrite Hh. unfold ReadFile.
  assert (node_at (fs (world (activate E c (destDirOf deployDir c) app st5).2))
            (hashFileOf deployDir c) = Some (NFile h)) as ->.
  { rewrite Hhash in *. unfold node_at.
    destruct (destDirOf deployDir c ++ [".hash"]) as [|x p] eqn:Hp;
      [by destruct (destDirOf deployDir c) | exact Hact]. }
  apply String.eqb_refl.
Qed.

Lemma X12_digest_outlives_failure_witness :
  stale Sample.deployDir (world ScenarioHalfway.frame0) ScenarioHalfway.compA = true
  ∧ (reconcileComponent ScenarioHalfway.env0 Sample.deployDir ScenarioHalfway.compA
       ScenarioHalfway.frame0).1 = Fail ENOENT
  ∧ upToDate Sample.deployDir
      (world (reconcileComponent ScenarioHalfway.env0 Sample.deployDir
                ScenarioHalfway.compA ScenarioHalfway.frame0).2)
      ScenarioHalfway.compA = true.
Proof.
  split; [vm_compute; reflexivity |]. split; [vm_compute; reflexivity |].
  eapply (X12_digest_outlives_failure ScenarioHalfway.env0 Sample.deployDir
            ScenarioHalfway.compA ScenarioHalfway.frame0 "aa").
  - vm_compute. reflexivity.
  - reflexivity.
  - vm_compute. reflexivity.
  - vm_compute. reflexivity.
  - vm_compute. reflexivity.
  - vm_compute. reflexivity.
  - vm_compute. reflexivity.
  - vm_compute. reflexivity.
  - vm_compute. reflexivity.
  - vm_compute. reflexivity.
  - intros src s. simpl.
    destruct (String.eqb src "PKG"); [by intros [= <-] |].
    destruct (String.eqb src "APP"); [by intros [= <-] | done].
Defined.

(** ** A pass without a desired state (lines 142-176, 201-204) *)

Lemma getAppDeployment_trace (E : Env) reg w :
  adds (registryAccess reg) w (getAppDeployment E reg w).2.
Proof.
  unfold getAppDeployment, adds. unfold_go. simpl.
  destruct (refNew E reg); simpl; [by exists []; rewrite app_nil_r |].
  destruct (ping E _ reg); simpl.
  { eexists. split; [reflexivity |]. simpl. by rewrite String.eqb_refl. }
  destruct (manifestGet E _ reg) as [e|[layers|]]; simpl.
  1,3: eexists; (split; [by rewrite <- app_assoc |]); simpl;
       by rewrite String.eqb_refl.
  destruct (firstDesiredState layers) as [desc|]; simpl.
  2:{ eexists. split; [by rewrite <- app_assoc |]. simpl.
      by rewrite String.eqb_refl. }
  destruct (blobGet E _ reg (Digest desc)) as [e|b]; simpl.
  2: destruct (yamlUnmarshal E b); simpl.
  all: eexists; (split; [by rewrite <- !app_assoc |]); simpl;
       by rewrite String.eqb_refl.
Qed.

(** X13. When the desired state cannot be obtained (the reference, the
    ping, the manifest, its layers, the blob or the YAML fail, or the
    manifest is no image manifest), [reconcileDeployments] does not return
    nil, leaves every file as it was, so that nothing is deployed and
    nothing purged, and has done nothing but access the registry under the
    given reference. *)
Theorem X13_desired_state_unavailable (E : Env) (reg : string) (deployDir : Path)
    (w : World) :
  (∀ d, (getAppDeployment E reg w).1 ≠ Ok d) →
  (reconcileDeployments E reg deployDir w).1 ≠ Ok tt
  ∧ fs (reconcileDeployments E reg deployDir w).2 = fs w
  ∧ ∃ evs, trace (reconcileDeployments E reg deployDir w).2 = trace w ++ evs
           ∧ forallb (registryAccess reg) evs = true.
Proof.
  intros Hno.
  pose proof (getAppDeployment_trace E reg w) as Htr.
  pose proof (getAppDeployment_fs E reg w) as Hfs.
  unfold reconcileDeployments.
  destruct (getAppDeployment E reg w) as [[d|e|p] w1]; simpl in *.
  - by destruct (Hno d).
  - split; [done |]. split; [by eapply Hfs | exact Htr].
  - split; [done |]. split; [by eapply Hfs | exact Htr].
Qed.

Lemma X13_desired_state_unavailable_witness :
  (reconcileDeployments ScenarioOffline.env0 Sample.registry Sample.deployDir
     ScenarioOffline.world0).1 ≠ Ok tt
  ∧ fs (reconcileDeployments ScenarioOffline.env0 Sample.registry Sample.deployDir
          ScenarioOffline.world0).2 = fs ScenarioOffline.world0.
Proof.
  destruct (X13_desired_state_unavailable ScenarioOffline.env0 Sample.registry
              Sample.deployDir ScenarioOffline.world0) as (Hr & Hfs & _).
  - intros d. vm_compute. discriminate.
  - split; [exact Hr | exact Hfs].
Defined.

(** ** When a turn returns nil (lines 228-233, 311-314) *)

Lemma startsLast_bind {A B} dir (m : M Frame A) (k : A → M Frame B) :
  respects (onWorld (adds notPs)) m → (∀ a, startsLast dir (k a)) →
  startsLast dir (m ≫= k).
Proof.
  intros Hm Hk st. destruct (Hm st) as (e1 & H1 & P1).
  unfold mbind, M_bind, bind.
  destruct (m st) as [[a|e|p] s1]; simpl in *.
  - destruct (Hk a s1) as (e2 & H2 & Q2). exists (e1 ++ e2).
    split; [by rewrite H2, H1, <- app_assoc |].
    destruct (k a s1).1.
    + unfold ensuredRunning in *. by rewrite existsb_app, Q2, orb_true_r.
    + by rewrite forallb_app, P1, Q2.
    + by rewrite forallb_app, P1, Q2.
  - by exists e1.
  - by exists e1.
Qed.

Lemma startsLast_fail {A} dir e : startsLast dir (fail e : M Frame A).
Proof. intros st. exists []. by rewrite app_nil_r. Qed.

Lemma startsLast_crash {A} dir p : startsLast dir (crash p : M Frame A).
Proof. intros st. exists []. by rewrite app_nil_r. Qed.

(** [dockerEnsureRunning] begins with [docker-compose ps] in the directory,
    and its error is logged, not returned *)
Lemma startsLast_ensure (E : Env) name dir :
  startsLast dir (liftW (ensureRunningLogged E name dir)).
Proof.
  intros st. unfold liftW, ensureRunningLogged, dockerEnsureRunning, catch.
  unfold_go. simpl.
  destruct (composePs E _ dir) as [e|output]; simpl.
  2: destruct (nonEmpty output); simpl.
  3: destruct (composeUp E _ dir); simpl.
  all: eexists; (split; [by rewrite <- ?app_assoc |]); simpl;
       by rewrite bool_decide_eq_true_2.
Qed.

Lemma preparing_notPs ev : preparing ev = true → notPs ev = true.
Proof. by destruct ev as [[]| | | | | | |]. Qed.

Ltac adds_step :=
  first
    [ apply respects_modify;
      [ apply _
      | intros ?; first [ apply adds_setFS | apply adds_emit; reflexivity ] ]
    | respects_step ].

Lemma uploadAll_notPs (E : Env) files : respects (adds notPs) (uploadAll E files).
Proof.
  induction files as [|f files IH]; simpl; [apply respects_ret; apply _ |].
  apply respects_bind; [apply _ | | by intros _].
  unfold uploadToDocker, emitW. repeat adds_step.
Qed.

Lemma verifyGPGSignature_notPs (E : Env) pubKey signedFile signatureFile :
  respects (adds notPs) (verifyGPGSignature E pubKey signedFile signatureFile).
Proof.
  intros w.
  pose proof (verifyGPGSignature_trace E pubKey signedFile signatureFile w) as H.
  destruct (verifyGPGSignature E pubKey signedFile signatureFile w) as [[[]|e|p] w'];
    simpl; [| destruct H as [H _] ..]; eexists; split; try exact H; done.
Qed.

Lemma downloadFromOCI_notPs (E : Env) url :
  respects (adds notPs) (downloadFromOCI E url).
Proof.
  apply downloadFromOCI_preparing; [apply _ |].
  intros ev w H. by apply adds_emit, preparing_notPs.
Qed.

Lemma applyComponent_startsLast (E : Env) c destDir hashFile h :
  startsLast destDir (applyComponent E c destDir hashFile h).
Proof.
  unfold applyComponent.
  apply startsLast_bind; [| intros _].
  { apply liftW_onWorld. unfold logW. adds_step. }
  apply startsLast_bind; [apply liftW_onWorld, MkdirTemp_adds | intros tempDir].
  apply startsLast_bind; [| intros _].
  { apply respects_modify; [apply _ |]. intros st. unfold onWorld. reflexivity. }
  apply startsLast_bind; [apply liftW_onWorld, downloadFromOCI_notPs | intros pubKey].
  apply startsLast_bind; [apply liftW_onWorld, downloadFromOCI_notPs | intros pkg].
  apply startsLast_bind; [| intros _].
  { apply liftW_onWorld, unpackTgz_adds, preparing_notPs. }
  apply startsLast_bind; [apply respects_get; apply _ | intros st].
  destruct (findAppFiles (world st) tempDir) as [appFiles err].
  apply startsLast_bind; [apply respects_check; apply _ | intros _].
  destruct appFiles as [|app rest]; [apply startsLast_crash |].
  apply startsLast_bind; [apply liftW_onWorld, verifyGPGSignature_notPs | intros _].
  apply startsLast_bind; [| intros _].
  { apply liftW_onWorld. repeat adds_step. }
  apply startsLast_bind; [apply respects_get; apply _ | intros st1].
  apply startsLast_bind; [| intros _].
  { destruct (fileExists _ _); [| apply respects_ret; apply _].
    apply liftW_onWorld. unfold emitW. repeat adds_step. }
  apply startsLast_bind; [apply respects_get; apply _ | intros st2].
  apply startsLast_bind; [apply respects_attempt; apply _ | intros f].
  apply startsLast_bind; [| intros _].
  { apply liftW_onWorld. adds_step. }
  apply startsLast_bind; [| intros _].
  { apply liftW_onWorld, unpackTgz_adds, preparing_notPs. }
  apply startsLast_bind; [apply respects_get; apply _ | intros st3].
  apply startsLast_bind; [apply respects_attempt; apply _ | intros tree].
  apply startsLast_bind; [apply liftW_onWorld, uploadAll_notPs | intros _].
  apply startsLast_ensure.
Qed.

Lemma reconcileComponent_startsLast (E : Env) deployDir c :
  startsLast (destDirOf deployDir c) (reconcileComponent E deployDir c).
Proof.
  unfold reconcileComponent.
  apply startsLast_bind; [| intros _].
  { apply respects_modify; [apply _ |]. intros st. unfold onWorld. reflexivity. }
  cbv zeta.
  destruct (Split (PackageLocation c) "sha256:" !! 1) as [h|];
    [| apply startsLast_crash].
  apply startsLast_bind; [apply respects_get; apply _ | intros st].
  destruct (fileExists (world st) _); [| apply applyComponent_startsLast].
  apply startsLast_bind; [apply respects_attempt; apply _ | intros actual].
  destruct (String.eqb actual h); [| apply applyComponent_startsLast].
  apply startsLast_bind; [| intros _; apply startsLast_ensure].
  apply liftW_onWorld. unfold logW. adds_step.
Qed.

Lemma notPs_not_ensured dir evs :
  forallb notPs evs = true → ensuredRunning dir evs = false.
Proof.
  induction evs as [|ev evs IH]; simpl; [done |].
  intros H. apply andb_true_iff in H as [H1 H2]. rewrite (IH H2).
  by destruct ev.
Qed.

(** X14. The turn of a component returns nil exactly when it got as far as
    [dockerEnsureRunning] for the directory of the component: an error or a
    panic anywhere before ends the turn without [docker-compose ps] having
    been run at all, so the component is not started, and an error of
    [dockerEnsureRunning] itself is logged and does not fail the turn. *)
Theorem X14_nil_iff_ensured_running (E : Env) (deployDir : Path) (c : Component)
    (st : Frame) :
  ∃ evs,
    trace (world (reconcileComponent E deployDir c st).2) = trace (world st) ++ evs
    ∧ ((reconcileComponent E deployDir c st).1 = Ok tt
       ↔ ensuredRunning (destDirOf deployDir c) evs = true)
    ∧ ((reconcileComponent E deployDir c st).1 ≠ Ok tt → forallb notPs evs = true).
Proof.
  destruct (reconcileComponent_startsLast E deployDir c st) as (evs & Htr & H).
  exists evs. split; [exact Htr |].
  destruct (reconcileComponent E deployDir c st).1 as [[]|e|p].
  - split; [done |]. intros Hne. by destruct Hne.
  - split; [| done]. rewrite (notPs_not_ensured _ _ H). done.
  - split; [| done]. rewrite (notPs_not_ensured _ _ H). done.
Qed.

(** ** Component names and the scratch directory (line 239) *)

(** X15. A component that is missing or stale and whose name contains a
    path separator cannot be deployed: [os.MkdirTemp] rejects the name as a
    pattern, so the turn returns that error right after its first log line,
    before anything is downloaded, with the files as they were. *)
Theorem X15_separator_in_name (E : Env) (deployDir : Path) (c : Component)
    (st : Frame) :
  stale deployDir (world st) c = true →
  hasSeparator (CName c) = true →
  (reconcileComponent E deployDir c st).1 = Fail ErrPatternHasSeparator
  ∧ fs (world (reconcileComponent E deployDir c st).2) = fs (world st)
  ∧ trace (world (reconcileComponent E deployDir c st).2)
    = trace (world st) ++ [Logged (LogFetching (CName c))].
Proof.
  intros Hst Hsep.
  destruct (reconcileComponent_stale E deployDir c st Hst) as (h & _ & ->).
  unfold applyComponent.
  erewrite bind_Ok by (apply liftW_run; reflexivity).
  erewrite bind_Fail
    by (apply liftW_run; unfold MkdirTemp; rewrite Hsep; reflexivity).
  done.
Qed.

Lemma X15_separator_in_name_witness :
  (reconcileComponent ScenarioNested.env0 Sample.deployDir ScenarioNested.comp
     ScenarioNested.frame0).1 = Fail ErrPatternHasSeparator.
Proof.
  apply (X15_separator_in_name ScenarioNested.env0 Sample.deployDir
           ScenarioNested.comp ScenarioNested.frame0).
  - vm_compute. reflexivity.
  - reflexivity.
Defined.
